(** * K-means colour quantisation: a shallow embedding of
      [src/image_compressor.py] and [src/main.py]

    The Python program reads an image, clusters its pixel colours with
    scikit-learn's [KMeans], rebuilds the image from the cluster centres and
    writes it to disk; [src/visualizer.py] draws the comparison figures.
    This development embeds the program's own functions one to one and
    keeps the third-party collaborators behind interfaces:

    - NumPy arrays are a shape together with the row-major list of elements;
    - Python exceptions are values of [exn], fallible calls return
      [result A], and code that touches the file system or NumPy's global
      generator runs in the state-and-exception monad [py];
    - scikit-learn's clustering routine is a [KMeansEngine]; the facts used
      about it are the class [KMeansLawful], and [lloyd_engine] is an
      executable engine that satisfies them;
    - Pillow's decoder and encoder are an [ImageCodec], Matplotlib's
      renderer a [FigureCodec];
    - cluster centres are rationals, as every float is; their values are the
      engine's own and nothing is assumed about them.  Console output is
      not modelled. *)

From Stdlib Require Import ZArith QArith Qround Lia.
From Stdlib Require Import Ascii String DecimalString DecimalPos DecimalZ.
From stdpp Require Import base option list gmap sets strings.

Local Open Scope Z_scope.

(** ** Exceptions and results *)

Inductive exn : Type :=
| ValueError
| IndexError
| TypeError
| FileNotFoundError
| FileExistsError
| NotADirectoryError
| IsADirectoryError
| OSError
| ZeroDivisionError
| SystemExit (code : Z).

Inductive result (A : Type) : Type :=
| Ok (a : A)
| Err (e : exn).
Arguments Ok {A} a.
Arguments Err {A} e.

Definition result_bind {A B} (r : result A) (k : A -> result B) : result B :=
  match r with
  | Ok a => k a
  | Err e => Err e
  end.

(** ** NumPy arrays *)

Record ndarray (A : Type) : Type := mk_ndarray {
  shape : list nat;
  data : list A
}.
Arguments mk_ndarray {A} shape data.
Arguments shape {A} _.
Arguments data {A} _.

Definition prod_shape (s : list nat) : nat := fold_right Nat.mul 1%nat s.

(** [a.size] *)
Definition size {A} (a : ndarray A) : nat := prod_shape (shape a).

(** The buffer holds exactly [a.size] elements. *)
Definition wf_ndarray {A} (a : ndarray A) : Prop :=
  length (data a) = size a.

(** The rows of a buffer read three elements at a time, in order. *)
Fixpoint rows3 {A} (l : list A) : list (list A) :=
  match l with
  | a :: b :: c :: r => [a; b; c] :: rows3 r
  | _ => []
  end.

(** [a.reshape(-1, 3)]: the unknown dimension is [a.size / 3]; NumPy raises
    [ValueError] when [a.size] is not a multiple of 3.  The (n, 3) result is
    given by its list of rows. *)
Definition reshape_m1_3 {A} (a : ndarray A) : result (list (list A)) :=
  if (size a mod 3 =? 0)%nat then Ok (rows3 (data a)) else Err ValueError.

(** [m.reshape(new_shape)] for a two-dimensional [m] given by its rows. *)
Definition reshape_rows {A} (m : list (list A)) (new_shape : list nat)
  : result (ndarray A) :=
  if (length (concat m) =? prod_shape new_shape)%nat
  then Ok (mk_ndarray new_shape (concat m))
  else Err ValueError.

(** [centers[labels]]: one row of [centers] per label, [IndexError] when a
    label is out of range. *)
Fixpoint take_rows {A} (centers : list (list A)) (labels : list nat)
  : result (list (list A)) :=
  match labels with
  | [] => Ok []
  | l :: ls =>
      match centers !! l with
      | None => Err IndexError
      | Some c => result_bind (take_rows centers ls) (fun r => Ok (c :: r))
      end
  end.

(** Conversion of one float to [np.uint8]: the fraction is dropped (towards
    zero) and the integer is kept modulo 256. *)
Definition Qtruncate (q : Q) : Z :=
  if Qle_bool 0 q then Qfloor q else Qceiling q.

Definition to_uint8 (q : Q) : Z := Qtruncate q mod 256.

(** [a.astype(np.uint8)] *)
Definition astype_uint8 (a : ndarray Q) : ndarray Z :=
  mk_ndarray (shape a) (map to_uint8 (data a)).

(** [a / b] on Python ints: true division, [ZeroDivisionError] on zero. *)
Definition py_truediv (a b : Z) : result Q :=
  if b =? 0 then Err ZeroDivisionError else Ok (inject_Z a / inject_Z b)%Q.

(** [len(np.unique(m, axis=0))]: the number of distinct rows. *)
Definition count_unique_rows (m : list (list Z)) : nat :=
  length (remove_dups m).

(** ** The clustering interface *)

(** Constructor arguments of [sklearn.cluster.KMeans] that the program sets. *)
Record KMeans : Type := mk_KMeans {
  n_clusters : Z;
  random_state : option Z;
  n_init : Z
}.

(** The attributes read after [fit]. *)
Record Fitted : Type := mk_Fitted {
  cluster_centers_ : list (list Q);
  labels_ : list nat
}.

(** A clustering routine draws from a generator and clusters the samples;
    [RandomState_seed s] is [np.random.RandomState(s)]. *)
Class KMeansEngine : Type := {
  RandomState : Type;
  RandomState_seed : Z -> RandomState;
  k_means : RandomState -> Z -> Z -> list (list Z) -> result Fitted * RandomState
}.

(** Column sums and the mean row of a non-empty list of samples. *)
Definition col_sums (rows : list (list Z)) : list Z :=
  match rows with
  | [] => []
  | r :: rs => fold_left (zip_with Z.add) rs r
  end.

Definition mean_rows (rows : list (list Z)) : list Q :=
  map (fun s => Qmake s (Pos.of_nat (length rows))) (col_sums rows).

(** The samples that an assignment [a] puts in cluster [j]. *)
Definition members (X : list (list Z)) (a : list nat) (j : nat)
  : list (list Z) :=
  fmap fst (filter (fun p => snd p = j) (zip X a)).

(** What the program relies on from the clustering routine:
    - [n_clusters] below 1 or above the number of samples is refused;
    - otherwise there are [n_clusters] centres of the samples' width and one
      label below [n_clusters] per sample.
    The values of the centres are the routine's own business: scikit-learn
    computes them in floating point, and nothing is assumed about them. *)
Class KMeansLawful (E : KMeansEngine) : Prop := {
  k_means_invalid : forall g k ni X,
    k < 1 \/ Z.of_nat (length X) < k ->
    fst (k_means g k ni X) = Err ValueError;
  k_means_valid : forall g k ni X d,
    1 <= k <= Z.of_nat (length X) -> 1 <= ni ->
    Forall (fun x => length x = d) X ->
    exists f,
      fst (k_means g k ni X) = Ok f /\
      length (cluster_centers_ f) = Z.to_nat k /\
      Forall (fun c => length c = d) (cluster_centers_ f) /\
      length (labels_ f) = length X /\
      Forall (fun l => (l < Z.to_nat k)%nat) (labels_ f)
}.

(** ** The world: files, directories and NumPy's global generator *)

(** Pillow: decoding the bytes of an image file into an array, and encoding
    an array for a file name (the format follows the extension).  An
    encoding can fail at two moments: in [Image.fromarray] or in the choice
    of the format, before the output file is touched, or in the format's
    writer, which runs on the file already opened for writing;
    [image_fails_early] tells which. *)
Class ImageCodec : Type := {
  image_decode : list Byte.byte -> option (ndarray Z);
  image_encode : string -> ndarray Z -> result (list Byte.byte);
  image_fails_early : string -> ndarray Z -> bool
}.

Section Program.

Context {E : KMeansEngine} {C : ImageCodec}.

Record world : Type := mk_world {
  files : gmap string (list Byte.byte);
  dirs : gset string;
  np_random : RandomState
}.

(** Python code with side effects: it returns or raises, and leaves a world
    behind either way. *)
Definition py (A : Type) : Type := world -> result A * world.

Definition ret {A} (a : A) : py A := fun w => (Ok a, w).

Definition raise {A} (e : exn) : py A := fun w => (Err e, w).

Definition bind {A B} (m : py A) (k : A -> py B) : py B :=
  fun w =>
    match m w with
    | (Ok a, w') => k a w'
    | (Err e, w') => (Err e, w')
    end.

Definition lift {A} (r : result A) : py A := fun w => (r, w).

End Program.

Declare Scope py_scope.
Delimit Scope py_scope with py.
Notation "x <- m ;; k" := (bind m (fun x => k))
  (at level 100, m at next level, right associativity) : py_scope.
Notation "m ;;; k" := (bind m (fun _ => k))
  (at level 100, right associativity) : py_scope.

(** ** [os.path] on POSIX path strings *)

Local Open Scope string_scope.

Definition sep : ascii := "/"%char.

(** [(p[:i], p[i:])] for [i = p.rfind(ch) + 1]. *)
Fixpoint rsplit_at (ch : ascii) (p : string) : string * string :=
  match p with
  | EmptyString => (EmptyString, EmptyString)
  | String c r =>
      let '(h, t) := rsplit_at ch r in
      match h with
      | EmptyString =>
          if Ascii.eqb c ch then (String c EmptyString, t)
          else (EmptyString, String c t)
      | String _ _ => (String c h, t)
      end
  end.

(** [s.rstrip(ch)] *)
Fixpoint rstrip (ch : ascii) (s : string) : string :=
  match s with
  | EmptyString => EmptyString
  | String c r =>
      match rstrip ch r with
      | EmptyString => if Ascii.eqb c ch then EmptyString else String c EmptyString
      | String c' r' => String c (String c' r')
      end
  end.

(** [s == ch * len(s)] *)
Fixpoint all_char (ch : ascii) (s : string) : bool :=
  match s with
  | EmptyString => true
  | String c r => Ascii.eqb c ch && all_char ch r
  end.

Definition is_empty (s : string) : bool :=
  match s with EmptyString => true | String _ _ => false end.

(** [posixpath.split] *)
Definition os_path_split (p : string) : string * string :=
  let '(head, tail) := rsplit_at sep p in
  let head := if negb (is_empty head) && negb (all_char sep head)
              then rstrip sep head else head in
  (head, tail).

Definition os_path_dirname (p : string) : string := fst (os_path_split p).

Definition os_path_basename (p : string) : string := snd (rsplit_at sep p).

Fixpoint last_char (s : string) : option ascii :=
  match s with
  | EmptyString => None
  | String c EmptyString => Some c
  | String _ r => last_char r
  end.

(** [s.endswith(ch)] *)
Definition ends_with (ch : ascii) (s : string) : bool :=
  match last_char s with
  | Some c => Ascii.eqb c ch
  | None => false
  end.

Definition starts_with (ch : ascii) (s : string) : bool :=
  match s with
  | EmptyString => false
  | String c _ => Ascii.eqb c ch
  end.

(** [posixpath.join(a, b)] *)
Definition os_path_join (a b : string) : string :=
  if starts_with sep b then b
  else if is_empty a || ends_with sep a then a ++ b
  else a ++ String sep b.

(** All characters but the last. *)
Fixpoint drop_last (s : string) : string :=
  match s with
  | EmptyString => EmptyString
  | String c EmptyString => EmptyString
  | String c r => String c (drop_last r)
  end.

(** [posixpath.splitext(p)[0]]: the extension starts at the last dot of the
    last component, unless only dots come before it in that component. *)
Definition os_path_splitext_root (p : string) : string :=
  let '(head, tail) := rsplit_at sep p in
  let '(th, _) := rsplit_at "."%char tail in
  let stem := drop_last th in
  if is_empty th || all_char "."%char stem then p else head ++ stem.

(** The directories on the way to [p], outermost first, [p] itself last:
    the prefixes of [p] that stop in front of a separator, and [p]. *)
Fixpoint path_prefixes (acc p : string) : list string :=
  match p with
  | EmptyString => if is_empty acc then [] else [acc]
  | String c r =>
      let rest := path_prefixes (acc ++ String c EmptyString) r in
      if Ascii.eqb c sep && negb (is_empty acc) && negb (all_char sep acc)
      then acc :: rest else rest
  end.

Definition ancestors (p : string) : list string := path_prefixes "" p.

(** No separator occurs in [s]. *)
Fixpoint no_sep (s : string) : bool :=
  match s with
  | EmptyString => true
  | String c r => negb (Ascii.eqb c sep) && no_sep r
  end.

(** A directory name as the program's defaults write them: not empty and
    without a trailing separator. *)
Definition clean_dir (d : string) : bool :=
  negb (is_empty d) && negb (ends_with sep d).

(** The directory part of a file joined to the directory name [d]: [d]
    less its trailing separators, or [d] itself when it has none or holds
    nothing else. *)
Definition joined_dirname (d : string) : string :=
  if ends_with sep d && negb (all_char sep d) then rstrip sep d else d.

(** [str(n)] for a Python int. *)
Definition str_of_Z (n : Z) : string := NilZero.string_of_int (Z.to_int n).

Local Close Scope string_scope.

(** ** The file system calls the program makes

    Paths are compared as written: aliases through [.], [..], doubled
    separators or links, and access rights, are not modelled.  The working
    directory and the root always exist. *)

Section FileSystem.

Context {E : KMeansEngine} {C : ImageCodec}.

Definition is_file (w : world) (p : string) : bool :=
  bool_decide (p ∈ dom (files w)).

Definition is_dir (w : world) (p : string) : bool :=
  bool_decide (p ∈ dirs w).

(** [os.path.exists(p)] *)
Definition os_path_exists (p : string) : py bool :=
  fun w => (Ok (is_file w p || is_dir w p), w).

(** [os.makedirs(name, exist_ok=True)]: the empty name is refused by the
    underlying [mkdir]; a regular file of that name, or one on the way to
    it, is an error; otherwise every missing directory on the way is
    created. *)
Definition os_makedirs (name : string) : py unit :=
  fun w =>
    if is_empty name then (Err FileNotFoundError, w)
    else if is_file w name then (Err FileExistsError, w)
    else if existsb (is_file w) (ancestors name)
    then (Err NotADirectoryError, w)
    else (Ok tt, mk_world (files w)
                          (dirs w ∪ list_to_set (ancestors name))
                          (np_random w)).

(** The directory a new file goes into must be there. *)
Definition parent_exists (w : world) (p : string) : bool :=
  let d := os_path_dirname p in
  is_empty d || all_char sep d || is_dir w d.

(** [Image.fromarray(a).save(p)].  The array is converted and the format
    chosen from the file name; then the file is opened with mode [w+b], which
    creates it or empties the one that is there; then the format's writer
    fills it.  When the writer raises, Pillow closes the file and removes it
    if the call created it: a file that existed before stays, empty. *)
Definition Image_save (a : ndarray Z) (p : string) : py unit :=
  fun w =>
    match image_encode p a with
    | Err e =>
        if image_fails_early p a then (Err e, w)
        else if is_empty (os_path_basename p) || is_dir w p
        then (Err IsADirectoryError, w)
        else if negb (parent_exists w p) then (Err FileNotFoundError, w)
        else if is_file w p
        then (Err e, mk_world (<[p := []]> (files w)) (dirs w) (np_random w))
        else (Err e, w)
    | Ok bytes =>
        if is_empty (os_path_basename p) || is_dir w p
        then (Err IsADirectoryError, w)
        else if negb (parent_exists w p) then (Err FileNotFoundError, w)
        else (Ok tt, mk_world (<[p := bytes]> (files w)) (dirs w) (np_random w))
    end.

(** [os.path.getsize(p)] *)
Definition os_path_getsize (p : string) : py Z :=
  fun w =>
    match files w !! p with
    | Some bytes => (Ok (Z.of_nat (length bytes)), w)
    | None => (Err FileNotFoundError, w)
    end.

(** [np.array(Image.open(p))] *)
Definition Image_open_array (p : string) : py (ndarray Z) :=
  fun w =>
    match files w !! p with
    | None => (Err FileNotFoundError, w)
    | Some bytes =>
        match image_decode bytes with
        | None => (Err ValueError, w)
        | Some a => (Ok a, w)
        end
    end.

(** [try: ... except Exception: ...] around a computation: [SystemExit] is
    not an [Exception] and passes through. *)
Definition try_except {A} (m : py A) (handler : py A) : py A :=
  fun w =>
    match m w with
    | (Ok a, w') => (Ok a, w')
    | (Err (SystemExit c), w') => (Err (SystemExit c), w')
    | (Err _, w') => handler w'
    end.

End FileSystem.

(** ** [image_compressor.py] *)

(** One entry of the list built by [compress_with_multiple_levels]. *)
Record CompressionResult : Type := mk_CompressionResult {
  n_colors : Z;
  path : string;
  image : ndarray Z;
  ratio : Q;
  file_size : Z
}.

Section ImageCompressor.

Context {E : KMeansEngine} {C : ImageCodec}.

Local Open Scope py_scope.

(** [KMeans(...).fit(X)]: an integer [random_state] seeds a generator of
    its own; [None] draws from NumPy's global generator and advances it. *)
Definition KMeans_fit (km : KMeans) (X : list (list Z)) : py Fitted :=
  fun w =>
    match random_state km with
    | Some seed =>
        (fst (k_means (RandomState_seed seed) (n_clusters km) (n_init km) X), w)
    | None =>
        let '(r, g) := k_means (np_random w) (n_clusters km) (n_init km) X in
        (r, mk_world (files w) (dirs w) g)
    end.

(** The two [shape] look-ups printed by [load_image]. *)
Definition print_dimensions (a : ndarray Z) : result unit :=
  if (length (shape a) <? 2)%nat then Err IndexError else Ok tt.

Definition load_image (image_path : string) : py (option (ndarray Z)) :=
  try_except
    (img_array <- Image_open_array image_path ;;
     lift (print_dimensions img_array) ;;;
     ret (Some img_array))
    (ret None).

Definition compress_image_kmeans (img_array : ndarray Z) (n_colors : Z)
  : py (ndarray Z) :=
  let original_shape := shape img_array in
  pixels <- lift (reshape_m1_3 img_array) ;;
  kmeans <- KMeans_fit (mk_KMeans n_colors (Some 42) 10) pixels ;;
  compressed_pixels <-
    lift (take_rows (cluster_centers_ kmeans) (labels_ kmeans)) ;;
  compressed_img <- lift (reshape_rows compressed_pixels original_shape) ;;
  ret (astype_uint8 compressed_img).

Definition calculate_compression_ratio (original_img compressed_img : ndarray Z)
  : result Q :=
  result_bind (reshape_m1_3 original_img) (fun orig_rows =>
  result_bind (reshape_m1_3 compressed_img) (fun comp_rows =>
  let orig_colors := Z.of_nat (count_unique_rows orig_rows) in
  let comp_colors := Z.of_nat (count_unique_rows comp_rows) in
  if comp_colors >? 0 then py_truediv orig_colors comp_colors else Ok 1%Q)).

Definition save_image (img_array : ndarray Z) (output_path : string) : py Z :=
  os_makedirs (os_path_dirname output_path) ;;;
  Image_save img_array output_path ;;;
  file_size <- os_path_getsize output_path ;;
  ret file_size.

Definition compress_image_file (input_path output_path : string) (n_colors : Z)
  : py (option (ndarray Z)) :=
  img_array <- load_image input_path ;;
  match img_array with
  | None => ret None
  | Some img_array =>
      compressed_img <- compress_image_kmeans img_array n_colors ;;
      ratio <- lift (calculate_compression_ratio img_array compressed_img) ;;
      file_size <- save_image compressed_img output_path ;;
      ret (Some compressed_img)
  end.

(** [f"compressed_{n_colors}_colors.png"] *)
Definition level_filename (n_colors : Z) : string :=
  ("compressed_" ++ str_of_Z n_colors ++ "_colors.png")%string.

(** The body of the [for n_colors in levels] loop, with [results] the list
    appended to so far. *)
Fixpoint levels_loop (img_array : ndarray Z) (output_dir : string)
    (levels : list Z) (results : list CompressionResult)
  : py (list CompressionResult) :=
  match levels with
  | [] => ret results
  | n_colors :: rest =>
      compressed_img <- compress_image_kmeans img_array n_colors ;;
      let filename := level_filename n_colors in
      let output_path := os_path_join output_dir filename in
      file_size <- save_image compressed_img output_path ;;
      ratio <- lift (calculate_compression_ratio img_array compressed_img) ;;
      levels_loop img_array output_dir rest
        (results ++ [mk_CompressionResult n_colors output_path compressed_img
                       ratio file_size])
  end.

Definition compress_with_multiple_levels (input_path output_dir : string)
    (levels : list Z) : py (option (list CompressionResult)) :=
  img_array <- load_image input_path ;;
  match img_array with
  | None => ret None
  | Some img_array =>
      results <- levels_loop img_array output_dir levels [] ;;
      ret (Some results)
  end.

End ImageCompressor.

(** ** [main.py] *)

(** The parsed command line. *)
Record Args : Type := mk_Args {
  input : string;
  colors : Z;
  analysis : bool;
  output : string
}.

Section Main.

Context {E : KMeansEngine} {C : ImageCodec}.

(** [visualizer.generate_full_report], the plotting collaborator. *)
Variable generate_full_report :
  string -> list CompressionResult -> string -> py unit.

Local Open Scope py_scope.

Definition compress_single_image (input_path : string) (n_colors : Z)
    (output_dir : string) : py (option (ndarray Z)) :=
  let filename := os_path_splitext_root (os_path_basename input_path) in
  let output_path :=
    os_path_join output_dir
      (filename ++ "_compressed_" ++ str_of_Z n_colors ++ ".png")%string in
  compressed_img <- compress_image_file input_path output_path n_colors ;;
  ret compressed_img.

Definition analysis_levels : list Z := [4; 8; 16; 32; 64; 128].

Definition default_comparison_dir : string := "../images/comparisons"%string.

Definition compress_with_analysis (input_path output_dir comparison_dir : string)
  : py unit :=
  let levels := analysis_levels in
  os_makedirs output_dir ;;;
  os_makedirs comparison_dir ;;;
  results <- compress_with_multiple_levels input_path output_dir levels ;;
  match results with
  | Some (r :: rs) => generate_full_report input_path (r :: rs) comparison_dir
  | _ => ret tt
  end.

Definition main (args : Args) : py unit :=
  found <- os_path_exists (input args) ;;
  if negb found then raise (SystemExit 1)
  else if analysis args
       then compress_with_analysis (input args) (output args)
              default_comparison_dir
       else compress_single_image (input args) (colors args) (output args) ;;;
            ret tt.

(** The status the interpreter exits with. *)
Definition exit_status {A} (r : result A) : Z :=
  match r with
  | Ok _ => 0
  | Err (SystemExit code) => code
  | Err _ => 1
  end.

End Main.

(** ** A reference clustering engine: Lloyd's algorithm on exact rationals

    Initial centres are [k] distinct samples chosen by the generator; each
    round assigns every sample to its nearest centre (lowest index on ties)
    and moves every non-empty cluster's centre to the mean of its samples;
    the best of [n_init] runs by inertia is kept. *)

Module Lloyd.

Definition sq_dist (x : list Z) (c : list Q) : Q :=
  fold_right Qplus 0%Q
    (zip_with (fun xi ci => let d := (inject_Z xi - ci)%Q in (d * d)%Q) x c).

Fixpoint argmin_from (x : list Z) (cs : list (list Q)) (i best : nat) (bd : Q)
  : nat :=
  match cs with
  | [] => best
  | c :: cs' =>
      let d := sq_dist x c in
      if Qle_bool bd d then argmin_from x cs' (S i) best bd
      else argmin_from x cs' (S i) i d
  end.

Definition nearest (cs : list (list Q)) (x : list Z) : nat :=
  match cs with
  | [] => 0%nat
  | c :: cs' => argmin_from x cs' 1%nat 0%nat (sq_dist x c)
  end.

Definition assign (X : list (list Z)) (cs : list (list Q)) : list nat :=
  map (nearest cs) X.

Definition update (X : list (list Z)) (a : list nat) (old : list (list Q))
  : list (list Q) :=
  imap (fun j c_old =>
          match members X a j with
          | [] => c_old
          | m => map Qred (mean_rows m)
          end) old.

Fixpoint iterate (fuel : nat) (X : list (list Z)) (cs : list (list Q))
    (a : list nat) : list (list Q) * list nat :=
  match fuel with
  | O => (cs, a)
  | S fuel' =>
      let a' := assign X cs in
      if bool_decide (a' = a) then (cs, a)
      else iterate fuel' X (update X a' cs) a'
  end.

Definition max_iter : nat := 300.

Record run : Type := mk_run {
  run_centers : list (list Q);
  run_assign : list nat;
  run_labels : list nat;
  run_inertia : Q
}.

Definition inertia (X : list (list Z)) (cs : list (list Q)) (labels : list nat)
  : Q :=
  fold_right Qplus 0%Q
    (zip_with (fun x l => sq_dist x (default [] (cs !! l))) X labels).

Definition lcg (g : Z) : Z := (g * 1103515245 + 12345) mod 2147483648.

Definition init_centers (g : Z) (k : nat) (X : list (list Z))
  : list (list Q) :=
  map (map inject_Z)
      (take k (rotate (Z.to_nat (g mod Z.of_nat (length X))) X)).

Definition single_run (g : Z) (k : nat) (X : list (list Z)) : run :=
  let init := init_centers g k X in
  let a0 := assign X init in
  let '(cs, a) := iterate (pred max_iter) X (update X a0 init) a0 in
  let labels := assign X cs in
  mk_run cs a labels (Qred (inertia X cs labels)).

Fixpoint best_of (n : nat) (g : Z) (k : nat) (X : list (list Z)) (best : run)
  : run * Z :=
  match n with
  | O => (best, g)
  | S n' =>
      let g' := lcg g in
      let r := single_run g' k X in
      best_of n' g' k X
        (if Qle_bool (run_inertia best) (run_inertia r) then best else r)
  end.

Definition k_means (g : Z) (k n_init : Z) (X : list (list Z))
  : result Fitted * Z :=
  if (k <? 1) || (Z.of_nat (length X) <? k) || (n_init <? 1)
  then (Err ValueError, g)
  else
    let g1 := lcg g in
    let '(r, g') := best_of (Z.to_nat (n_init - 1)) g1 (Z.to_nat k) X
                      (single_run g1 (Z.to_nat k) X) in
    (Ok (mk_Fitted (run_centers r) (run_labels r)), g').

(** The state kept between rounds: [k] centres of width [d], and the
    assignment whose clusters those centres are the means of. *)
Definition round_inv (X : list (list Z)) (k d : nat)
    (cs : list (list Q)) (a : list nat) : Prop :=
  length cs = k /\
  Forall (fun c => length c = d) cs /\
  length a = length X /\
  Forall (fun l => (l < k)%nat) a /\
  forall j c, cs !! j = Some c -> members X a j <> [] ->
              Forall2 Qeq c (mean_rows (members X a j)).

(** What a finished run offers. *)
Definition run_ok (X : list (list Z)) (k d : nat) (r : run) : Prop :=
  round_inv X k d (run_centers r) (run_assign r) /\
  length (run_labels r) = length X /\
  Forall (fun l => (l < k)%nat) (run_labels r).

End Lloyd.

#[export] Instance lloyd_engine : KMeansEngine := {
  RandomState := Z;
  RandomState_seed := fun s => s;
  k_means := Lloyd.k_means
}.

(** ** A reference codec: three dimension bytes, then the raw channels *)

Definition byte_of_Z (z : Z) : Byte.byte :=
  default Byte.x00 (Byte.of_N (Z.to_N (z mod 256))).

Definition Z_of_byte (b : Byte.byte) : Z := Z.of_N (Byte.to_N b).

Definition raw_decode (bytes : list Byte.byte) : option (ndarray Z) :=
  match bytes with
  | h :: w :: c :: rest =>
      let s := map (fun b => N.to_nat (Byte.to_N b)) [h; w; c] in
      if (length rest =? prod_shape s)%nat
      then Some (mk_ndarray s (map Z_of_byte rest))
      else None
  | _ => None
  end.

Definition raw_encode (p : string) (a : ndarray Z) : result (list Byte.byte) :=
  match shape a with
  | [h; w; c] =>
      Ok (map (fun n => byte_of_Z (Z.of_nat n)) [h; w; c]
          ++ map byte_of_Z (data a))
  | _ => Err TypeError
  end.

#[export] Instance raw_codec : ImageCodec := {
  image_decode := raw_decode;
  image_encode := raw_encode;
  image_fails_early := fun _ _ => true
}.

(** A codec whose writer, like Pillow's JPEG writer, refuses a fourth
    channel: the refusal comes once the output file is open. *)
Definition rgb_encode (p : string) (a : ndarray Z) : result (list Byte.byte) :=
  match shape a with
  | [_; _; 4%nat] => Err OSError
  | _ => raw_encode p a
  end.

Definition rgb_fails_early (p : string) (a : ndarray Z) : bool :=
  match shape a with
  | [_; _; 4%nat] => false
  | _ => true
  end.

Definition rgb_codec : ImageCodec := {|
  image_decode := raw_decode;
  image_encode := rgb_encode;
  image_fails_early := rgb_fails_early
|}.

(** A reporting collaborator that writes nothing. *)
Definition silent_report (input_path : string)
    (results : list CompressionResult) (output_dir : string) : py unit :=
  ret tt.

(** ** [visualizer.py]: the comparison figures

    A figure is the list of its axes, and an axes the list of the drawing
    calls it received, in order.  Texts are kept as the values they are
    formatted from; sizes, fonts and colours play no part. *)

(** The plotting code can raise what [exn] has, and the [AttributeError]
    of a method called on an object that lacks it. *)
Inductive plot_exn : Type :=
| AttributeError
| Raised (e : exn).

Inductive plot_result (A : Type) : Type :=
| Drawn (a : A)
| Failed (e : plot_exn).
Arguments Drawn {A} a.
Arguments Failed {A} e.

Definition plot_bind {A B} (r : plot_result A) (k : A -> plot_result B)
  : plot_result B :=
  match r with
  | Drawn a => k a
  | Failed e => Failed e
  end.

Definition of_result {A} (r : result A) : plot_result A :=
  match r with
  | Ok a => Drawn a
  | Err e => Failed (Raised e)
  end.

(** The formatted strings of the two comparison functions. *)
Inductive label : Type :=
| OriginalImage
| UniqueColours (orig_colors : nat)
| Compressed (n_colors : Z)
| RatioText (ratio : Q)
| OriginalWithColours (orig_colors : nat)
| LevelWithRatio (n_colors : Z) (ratio : Q).

Inductive draw : Type :=
| imshow (a : ndarray Z)
| set_title (l : label)
| axis_off
| text (l : label).

Definition Axes : Type := list draw.

(** What [plt.subplots] hands back for the axes: one [Axes] for a 1 x 1
    grid, an array of them otherwise (given flattened, row by row). *)
Inductive axes_obj : Type :=
| an_Axes (a : Axes)
| an_array (l : list Axes).

Definition plt_subplots (nrows ncols : nat) : axes_obj :=
  if ((nrows =? 1) && (ncols =? 1))%nat then an_Axes []
  else an_array (replicate (nrows * ncols) []).

(** [axes.flatten()] *)
Definition flatten (o : axes_obj) : plot_result (list axes_obj) :=
  match o with
  | an_Axes _ => Failed AttributeError
  | an_array l => Drawn (map an_Axes l)
  end.

(** [axes[i].method(...)] on a Python list of axes objects. *)
Definition call (axes : list axes_obj) (i : nat) (d : draw)
  : plot_result (list axes_obj) :=
  match axes !! i with
  | None => Failed (Raised IndexError)
  | Some (an_array _) => Failed AttributeError
  | Some (an_Axes a) => Drawn (<[i := an_Axes (a ++ [d])]> axes)
  end.

(** The arrays [imshow] draws whatever their values: M x N, M x N x 3 and
    M x N x 4 with at least one element. *)
Definition image_shape_ok (s : list nat) : bool :=
  match s with
  | [m; n] => (0 <? m * n)%nat
  | [m; n; c] => ((c =? 3)%nat || (c =? 4)%nat) && (0 <? m * n)%nat
  | _ => false
  end.

Record Figure : Type := mk_Figure {
  fig_axes : list axes_obj;
  suptitle : bool
}.

(** Matplotlib: what [imshow] raises, if anything, on an array outside
    [image_shape_ok] (it squeezes a last axis of length 1, refuses other
    shapes, and takes the minimum of a three-dimensional array, which fails
    on one without elements), and the bytes of a figure for a file name. *)
Class FigureCodec : Type := {
  imshow_other : ndarray Z -> option exn;
  figure_encode : string -> Figure -> result (list Byte.byte)
}.

(** [axes[i].imshow(a)] *)
Definition call_imshow `{FigureCodec} (axes : list axes_obj) (i : nat)
    (a : ndarray Z) : plot_result (list axes_obj) :=
  plot_bind (call axes i (imshow a)) (fun axes' =>
  if image_shape_ok (shape a) then Drawn axes'
  else match imshow_other a with
       | Some e => Failed (Raised e)
       | None => Drawn axes'
       end).

(** [cols] and [rows] of [compare_multiple_compressions]. *)
Definition grid_cols (n_results : nat) : nat := Nat.min 4 (n_results + 1).

Definition grid_rows (n_results : nat) : nat :=
  ((n_results + 1 + grid_cols n_results - 1) / grid_cols n_results)%nat.

(** The body of [for i, result in enumerate(compression_results)]. *)
Fixpoint draw_results `{FigureCodec} (axes : list axes_obj) (i : nat)
    (results : list CompressionResult) : plot_result (list axes_obj) :=
  match results with
  | [] => Drawn axes
  | result :: rest =>
      plot_bind (call_imshow axes (i + 1) (image result)) (fun axes =>
      plot_bind (call axes (i + 1)
                   (set_title (LevelWithRatio (n_colors result) (ratio result))))
        (fun axes =>
      plot_bind (call axes (i + 1) axis_off) (fun axes =>
      draw_results axes (S i) rest)))
  end.

(** The body of [for i in range(n_results + 1, len(axes))]. *)
Fixpoint hide_axes (axes : list axes_obj) (indices : list nat)
  : plot_result (list axes_obj) :=
  match indices with
  | [] => Drawn axes
  | i :: rest =>
      plot_bind (call axes i axis_off) (fun axes => hide_axes axes rest)
  end.

Section Visualizer.

Context {E : KMeansEngine} {C : ImageCodec} {F : FigureCodec}.

(** Plotting code with side effects. *)
Definition plot (A : Type) : Type := world -> plot_result A * world.

(** [plt.savefig(p)]: the figure is rendered, then the file written. *)
Definition plt_savefig (fig : Figure) (p : string) : py unit :=
  fun w =>
    match figure_encode p fig with
    | Err e => (Err e, w)
    | Ok bytes =>
        if is_empty (os_path_basename p) || is_dir w p
        then (Err IsADirectoryError, w)
        else if negb (parent_exists w p) then (Err FileNotFoundError, w)
        else (Ok tt, mk_world (<[p := bytes]> (files w)) (dirs w) (np_random w))
    end.

(** The [if save_path:] block shared by the plotting functions, and the
    [return fig] after it. *)
Definition save_and_return (fig : Figure) (save_path : option string)
  : plot Figure :=
  fun w =>
    match save_path with
    | Some p =>
        if is_empty p then (Drawn fig, w)
        else
          match bind (os_makedirs (os_path_dirname p))
                     (fun _ => plt_savefig fig p) w with
          | (Ok _, w') => (Drawn fig, w')
          | (Err e, w') => (Failed (Raised e), w')
          end
    | None => (Drawn fig, w)
    end.

Definition compare_images (original_img compressed_img : ndarray Z)
    (n_colors : Z) (save_path : option string) : plot Figure :=
  fun w =>
    let axes := [an_Axes []; an_Axes []] in
    let drawn :=
      plot_bind (call_imshow axes 0 original_img) (fun axes =>
      plot_bind (call axes 0 (set_title OriginalImage)) (fun axes =>
      plot_bind (call axes 0 axis_off) (fun axes =>
      plot_bind (of_result (reshape_m1_3 original_img)) (fun rows =>
      let orig_colors := count_unique_rows rows in
      plot_bind (call axes 0 (text (UniqueColours orig_colors))) (fun axes =>
      plot_bind (call_imshow axes 1 compressed_img) (fun axes =>
      plot_bind (call axes 1 (set_title (Compressed n_colors))) (fun axes =>
      plot_bind (call axes 1 axis_off) (fun axes =>
      plot_bind (of_result (py_truediv (Z.of_nat orig_colors) n_colors))
        (fun ratio =>
      plot_bind (call axes 1 (text (RatioText ratio))) (fun axes =>
      Drawn (mk_Figure axes false))))))))))) in
    match drawn with
    | Failed e => (Failed e, w)
    | Drawn fig => save_and_return fig save_path w
    end.

Definition compare_multiple_compressions (original_img : ndarray Z)
    (compression_results : list CompressionResult)
    (save_path : option string) : plot Figure :=
  fun w =>
    let n_results := length compression_results in
    let cols := grid_cols n_results in
    let rows := grid_rows n_results in
    let axes := plt_subplots rows cols in
    let drawn :=
      plot_bind (if (1 <? n_results)%nat then flatten axes else Drawn [axes])
        (fun axes =>
      plot_bind (call_imshow axes 0 original_img) (fun axes =>
      plot_bind (of_result (reshape_m1_3 original_img)) (fun pixel_rows =>
      let orig_colors := count_unique_rows pixel_rows in
      plot_bind (call axes 0 (set_title (OriginalWithColours orig_colors)))
        (fun axes =>
      plot_bind (call axes 0 axis_off) (fun axes =>
      plot_bind (draw_results axes 0 compression_results) (fun axes =>
      plot_bind (hide_axes axes
                   (seq (n_results + 1) (length axes - (n_results + 1))))
        (fun axes =>
      Drawn (mk_Figure axes true)))))))) in
    match drawn with
    | Failed e => (Failed e, w)
    | Drawn fig => save_and_return fig save_path w
    end.

End Visualizer.

(** The axes of one level in a comparison grid, and those left unused. *)
Definition level_cell (r : CompressionResult) : axes_obj :=
  an_Axes [imshow (image r);
           set_title (LevelWithRatio (n_colors r) (ratio r));
           axis_off].

Definition hidden_cell : axes_obj := an_Axes [axis_off].

(** A reference renderer: one byte per axes of the figure. *)
Definition flat_imshow_other (a : ndarray Z) : option exn :=
  match shape a with
  | [_; _] => None
  | [_; _; c] =>
      if (c =? 1)%nat then None
      else if (c =? 3)%nat || (c =? 4)%nat then Some ValueError
      else Some TypeError
  | _ => Some TypeError
  end.

#[export] Instance flat_renderer : FigureCodec := {
  imshow_other := flat_imshow_other;
  figure_encode := fun _ fig => Ok (map (fun _ => Byte.x2a) (fig_axes fig))
}.

(** ** Vocabulary of the statements *)

(** The pixel rows that a fitted model stands for: for every sample, its
    cluster's centre converted to [uint8]. *)
Definition quantized_rows (f : Fitted) : list (list Z) :=
  map (fun l => map to_uint8 (default [] (cluster_centers_ f !! l))) (labels_ f).

(** What the entry for level [k] of a multi-level run on [img] into the
    directory [d] must hold. *)
Definition result_for {E : KMeansEngine} {C : ImageCodec}
    (img : ndarray Z) (d : string) (k : Z) (r : CompressionResult) : Prop :=
  n_colors r = k /\
  path r = os_path_join d (level_filename k) /\
  (forall σ : world, compress_image_kmeans img k σ = (Ok (image r), σ)) /\
  calculate_compression_ratio img (image r) = Ok (ratio r) /\
  exists bytes,
    image_encode (path r) (image r) = Ok bytes /\
    file_size r = Z.of_nat (length bytes).

(** The path written for level [k] under the directory [d]. *)
Definition level_path (d : string) (k : Z) : string :=
  os_path_join d (level_filename k).

(** The directory [d] can receive the files of [levels]: nothing on the way
    to [d] is a regular file, and no directory bears the name of an output
    file. *)
Definition dir_ready {E : KMeansEngine} (d : string) (levels : list Z)
    (σ : world) : Prop :=
  Forall (fun x => is_file σ x = false) (ancestors d) /\
  Forall (fun k => is_dir σ (level_path d k) = false) levels.

(** The codec encodes every H x W x 3 array of bytes for the files of
    [levels] under [d]. *)
Definition codec_ready {C : ImageCodec} (d : string) (levels : list Z)
    (h w : nat) : Prop :=
  forall k a, k ∈ levels -> shape a = [h; w; 3%nat] -> wf_ndarray a ->
    Forall (fun v => 0 <= v <= 255) (data a) ->
    exists bytes, image_encode (level_path d k) a = Ok bytes.

(** The path [p] can receive a new file in the world [σ]: it has a
    directory part and a file name, nothing on the way to the directory is
    a regular file, and [p] itself is not a directory. *)
Definition path_ready {E : KMeansEngine} (σ : world) (p : string) : Prop :=
  is_empty (os_path_dirname p) = false /\
  is_empty (os_path_basename p) = false /\
  Forall (fun x => is_file σ x = false) (ancestors (os_path_dirname p)) /\
  is_dir σ p = false /\
  p ∉ ancestors (os_path_dirname p).

(** The codec encodes every H x W x 3 array of bytes for the path [p]. *)
Definition codec_encodes {C : ImageCodec} (p : string) (h w : nat) : Prop :=
  forall a, shape a = [h; w; 3%nat] -> wf_ndarray a ->
    Forall (fun v => 0 <= v <= 255) (data a) ->
    exists bytes, image_encode p a = Ok bytes.

(** The name [compress_single_image] gives its output file. *)
Definition single_filename (input_path : string) (n_colors : Z) : string :=
  (os_path_splitext_root (os_path_basename input_path)
   ++ "_compressed_" ++ str_of_Z n_colors ++ ".png")%string.

(** What a save that raises leaves behind: the files as they were, or the
    output file, which existed, emptied by a writer that failed late. *)
Definition failed_save `{KMeansEngine} `{ImageCodec}
    (img : ndarray Z) (p : string) (σ σ' : world) : Prop :=
  files σ' = files σ \/
  (is_file σ p = true /\ files σ' = <[p := []]> (files σ) /\
   image_fails_early p img = false /\
   exists e', image_encode p img = Err e').

(** ** Sample inputs *)

(** A 1 x 5 RGB image with two pairs of close colours and one black pixel. *)
Definition sample_image : ndarray Z :=
  mk_ndarray [1; 5; 3]%nat
    [10; 20; 30;  12; 22; 28;  200; 100; 50;  205; 90; 60;  0; 0; 0].

(** Two black and two white pixels. *)
Definition sample_checker : ndarray Z :=
  mk_ndarray [2; 2; 3]%nat [0; 0; 0;  0; 0; 0;  255; 255; 255;  255; 255; 255].

(** Three RGBA pixels. *)
Definition sample_rgba : ndarray Z :=
  mk_ndarray [1; 3; 4]%nat [1; 2; 3; 255;  4; 5; 6; 255;  7; 8; 9; 255].

(** A 2 x 2 single-channel image. *)
Definition sample_gray : ndarray Z := mk_ndarray [2; 2]%nat [0; 85; 170; 255].

(** Four pixels on a line of reds. *)
Definition sample_line : ndarray Z :=
  mk_ndarray [1; 4; 3]%nat [0; 0; 0;  10; 0; 0;  20; 0; 0;  30; 0; 0].

(** An array with no pixel. *)
Definition sample_empty : ndarray Z := mk_ndarray [0; 0; 3]%nat [].

(** The file [sample_image] is stored as by the reference codec. *)
Definition sample_file : list Byte.byte :=
  map byte_of_Z ([1; 5; 3] ++ data sample_image).

(** A world with no files at all, for the reference engine. *)
Definition empty_world : @world lloyd_engine :=
  mk_world ∅ ∅ (0 : Z).

(** An 8 x 16 RGB image (128 pixels), its file and a world holding it. *)
Definition large_image : ndarray Z :=
  mk_ndarray [8; 16; 3]%nat
    (map (fun i => (Z.of_nat i * 37) mod 256) (seq 0 384)).

Definition large_file : list Byte.byte :=
  map byte_of_Z ([8; 16; 3] ++ data large_image).

Definition large_world : @world lloyd_engine :=
  mk_world {[ "photo.png"%string := large_file ]} ∅ (0 : Z).

(** A world whose only file is the sample image. *)
Definition sample_world : @world lloyd_engine :=
  mk_world {[ "photo.png"%string := sample_file ]} ∅ (0 : Z).

(** A world whose only file is not an image. *)
Definition notes_world : @world lloyd_engine :=
  mk_world {[ "notes.txt"%string := [Byte.x00] ]} ∅ (0 : Z).

(** Four entries of a multi-level run, for the figures. *)
Definition sample_results : list CompressionResult :=
  map (fun k => mk_CompressionResult k "" sample_checker 1 0) [2; 3; 4; 5].

(** The command line [main.py photo.png -a] with the default output. *)
Definition analysis_args : Args :=
  mk_Args "photo.png" 16 true "../images/output".

(** * Properties *)

(** ** Arrays *)

Section ArrayFacts.

Context {A : Type}.

Lemma rows3_cons3 (a b c : A) (l : list A) :
  rows3 (a :: b :: c :: l) = [a; b; c] :: rows3 l.
Proof. reflexivity. Qed.

(** Strong induction three elements at a time. *)
Lemma list_ind3 (P : list A -> Prop) :
  P [] -> (forall a, P [a]) -> (forall a b, P [a; b]) ->
  (forall a b c l, P l -> P (a :: b :: c :: l)) ->
  forall l, P l.
Proof.
  intros H0 H1 H2 H3 l.
  assert (HP : P l /\ (forall a, P (a :: l)) /\ (forall a b, P (a :: b :: l))).
  { induction l as [|x l (IH0 & IH1 & IH2)]; [by auto|].
    split; [apply IH1|]. split; [intros a; apply IH2|].
    intros a b. by apply H3. }
  apply HP.
Qed.

Lemma rows3_length (l : list A) : length (rows3 l) = (length l / 3)%nat.
Proof.
  induction l as [| | |a b c l IH] using list_ind3; try reflexivity.
  rewrite rows3_cons3. cbn [length]. rewrite IH.
  change (S (S (S (length l)))) with (3 + length l)%nat.
  replace (3 + length l)%nat with (length l + 1 * 3)%nat by lia.
  rewrite Nat.div_add by lia. lia.
Qed.

Lemma rows3_width (l : list A) : Forall (fun r => length r = 3%nat) (rows3 l).
Proof.
  induction l as [| | |a b c l IH] using list_ind3; try constructor; done.
Qed.

Lemma rows3_concat (l : list A) :
  (length l mod 3 = 0)%nat -> concat (rows3 l) = l.
Proof.
  induction l as [|a|a b|a b c l IH] using list_ind3; intros Hm; try done.
  rewrite rows3_cons3. cbn [concat app]. do 3 f_equal. apply IH.
  cbn [length] in Hm.
  replace (S (S (S (length l)))) with (length l + 1 * 3)%nat in Hm by lia.
  by rewrite Nat.Div0.mod_add in Hm.
Qed.

Lemma concat_rows3 (m : list (list A)) :
  Forall (fun r => length r = 3%nat) m -> rows3 (concat m) = m.
Proof.
  induction 1 as [|r m Hr _ IH]; [done|].
  destruct r as [|a [|b [|c [|]]]]; try done.
  cbn. by rewrite IH.
Qed.

Lemma concat_width_length (m : list (list A)) (d : nat) :
  Forall (fun r => length r = d) m -> length (concat m) = (length m * d)%nat.
Proof.
  induction 1 as [|r m Hr _ IH]; [done|].
  cbn. rewrite length_app, IH, Hr. lia.
Qed.

Lemma take_rows_lookup (centers : list (list A)) (labels : list nat) :
  Forall (fun l => (l < length centers)%nat) labels ->
  take_rows centers labels =
    Ok (map (fun l => default [] (centers !! l)) labels).
Proof.
  induction 1 as [|l ls Hl _ IH]; [done|].
  cbn. destruct (lookup_lt_is_Some_2 centers l Hl) as [c Hc].
  by rewrite Hc, IH.
Qed.

End ArrayFacts.

Lemma wf_rows3_length {A} (a : ndarray A) :
  wf_ndarray a -> length (rows3 (data a)) = (size a / 3)%nat.
Proof. intros Hwf. by rewrite rows3_length, Hwf. Qed.

Lemma size_hw3 {A} (a : ndarray A) (h w c : nat) :
  shape a = [h; w; c] -> size a = (h * w * c)%nat.
Proof. unfold size. intros ->. cbn. lia. Qed.

(** ** Truncation to [uint8] *)

Lemma Qtruncate_comp (p q : Q) : (p == q)%Q -> Qtruncate p = Qtruncate q.
Proof.
  intros Hpq. unfold Qtruncate.
  assert (Hb : Qle_bool 0 p = Qle_bool 0 q).
  { apply eq_true_iff_eq. rewrite !Qle_bool_iff. by rewrite Hpq. }
  rewrite Hb. destruct (Qle_bool 0 q).
  - by apply Qfloor_comp.
  - by apply Qceiling_comp.
Qed.

Lemma to_uint8_comp (p q : Q) : (p == q)%Q -> to_uint8 p = to_uint8 q.
Proof. intros Hpq. unfold to_uint8. by rewrite (Qtruncate_comp p q). Qed.

Lemma to_uint8_range (q : Q) : 0 <= to_uint8 q <= 255.
Proof. unfold to_uint8. pose proof (Z.mod_pos_bound (Qtruncate q) 256). lia. Qed.

Lemma map_to_uint8_comp (c c' : list Q) :
  Forall2 Qeq c c' -> map to_uint8 c = map to_uint8 c'.
Proof.
  induction 1 as [|p q c c' Hpq _ IH]; [done|].
  cbn. by rewrite (to_uint8_comp p q), IH.
Qed.

(** ** [compress_image_kmeans] *)

Section CompressFacts.

Context {E : KMeansEngine} {C : ImageCodec}.

Lemma KMeans_fit_seeded (k seed ni : Z) (X : list (list Z)) (σ : world) :
  KMeans_fit (mk_KMeans k (Some seed) ni) X σ =
    (fst (k_means (RandomState_seed seed) k ni X), σ).
Proof. reflexivity. Qed.

Lemma compress_image_kmeans_bad_size (img : ndarray Z) (k : Z) (σ : world) :
  (size img mod 3 <> 0)%nat ->
  compress_image_kmeans img k σ = (Err ValueError, σ).
Proof.
  intros Hm. unfold compress_image_kmeans, bind, lift, reshape_m1_3.
  by rewrite (proj2 (Nat.eqb_neq _ _) Hm).
Qed.

Lemma compress_image_kmeans_fit_error (img : ndarray Z) (k : Z) (σ : world)
    (e : exn) :
  fst (k_means (RandomState_seed 42) k 10 (rows3 (data img))) = Err e ->
  (size img mod 3 = 0)%nat ->
  compress_image_kmeans img k σ = (Err e, σ).
Proof.
  intros Hfit Hm. unfold compress_image_kmeans, bind, lift, reshape_m1_3.
  rewrite (proj2 (Nat.eqb_eq _ _) Hm), KMeans_fit_seeded. by rewrite Hfit.
Qed.

Lemma quantized_rows_width (f : Fitted) (d : nat) :
  Forall (fun c => length c = d) (cluster_centers_ f) ->
  Forall (fun l => (l < length (cluster_centers_ f))%nat) (labels_ f) ->
  Forall (fun r => length r = d) (quantized_rows f).
Proof.
  intros Hw Hl. unfold quantized_rows. apply Forall_map.
  eapply Forall_impl; [exact Hl|]. intros l Hlt. cbn.
  destruct (lookup_lt_is_Some_2 _ _ Hlt) as [c Hc]. rewrite Hc. cbn.
  rewrite length_map. by eapply (proj1 (Forall_lookup _ _)) in Hw.
Qed.

(** With a lawful engine, a well-formed array whose size is a multiple of 3
    and a valid [k] always give an image: the engine's fitted model on the
    rows of three, rebuilt in the input's shape. *)
Lemma compress_image_kmeans_valid `{!KMeansLawful E}
    (img : ndarray Z) (k : Z) (σ : world) :
  wf_ndarray img -> (size img mod 3 = 0)%nat ->
  1 <= k <= Z.of_nat (size img / 3) ->
  exists f,
    fst (k_means (RandomState_seed 42) k 10 (rows3 (data img))) = Ok f /\
    compress_image_kmeans img k σ =
      (Ok (mk_ndarray (shape img) (concat (quantized_rows f))), σ) /\
    length (cluster_centers_ f) = Z.to_nat k /\
    Forall (fun c => length c = 3%nat) (cluster_centers_ f) /\
    length (labels_ f) = (size img / 3)%nat /\
    Forall (fun l => (l < Z.to_nat k)%nat) (labels_ f).
Proof.
  intros Hwf Hm Hk.
  pose proof (wf_rows3_length img Hwf) as Hn.
  destruct (k_means_valid (RandomState_seed 42) k 10 (rows3 (data img)) 3%nat)
    as (f & Hfit & Hlen & Hwid & Hlab & Hlt).
  { by rewrite Hn. }
  { lia. }
  { apply rows3_width. }
  exists f. rewrite Hn in Hlab.
  split; [exact Hfit|]. split; [|done].
  unfold compress_image_kmeans, bind, lift, reshape_m1_3.
  rewrite (proj2 (Nat.eqb_eq _ _) Hm), KMeans_fit_seeded, Hfit.
  rewrite take_rows_lookup by (by rewrite Hlen).
  unfold reshape_rows.
  assert (Hw3 : Forall (fun r : list Q => length r = 3%nat)
                  (map (fun l => default [] (cluster_centers_ f !! l)) (labels_ f))).
  { apply Forall_map. eapply Forall_impl; [exact Hlt|]. intros l Hl. cbn.
    rewrite <- Hlen in Hl.
    destruct (lookup_lt_is_Some_2 _ _ Hl) as [c Hc]. rewrite Hc. cbn.
    by eapply (proj1 (Forall_lookup _ _)) in Hwid. }
  rewrite (concat_width_length _ 3 Hw3), length_map, Hlab.
  fold (size img).
  assert (Hsz : (size img / 3 * 3)%nat = size img).
  { pose proof (Nat.div_mod_eq (size img) 3). lia. }
  rewrite Hsz, Nat.eqb_refl. unfold ret, astype_uint8. cbn [shape data].
  do 3 f_equal. unfold quantized_rows.
  rewrite <- (map_map (fun l => default [] (cluster_centers_ f !! l)) (map to_uint8)).
  generalize (map (fun l => default [] (cluster_centers_ f !! l)) (labels_ f)).
  intros m. induction m as [|r m IH]; [done|].
  cbn. by rewrite map_app, IH.
Qed.

End CompressFacts.

(** ** The reference engine satisfies the clustering contract *)

Module LloydFacts.

Import Lloyd.

Lemma argmin_from_lt (x : list Z) (cs : list (list Q)) (i best : nat) (bd : Q) :
  (best < i)%nat -> (argmin_from x cs i best bd < i + length cs)%nat.
Proof.
  revert i best bd. induction cs as [|c cs IH]; intros i best bd Hlt; cbn.
  - lia.
  - destruct (Qle_bool bd (sq_dist x c)).
    + specialize (IH (S i) best bd). lia.
    + specialize (IH (S i) i (sq_dist x c)). lia.
Qed.

Lemma nearest_lt (cs : list (list Q)) (x : list Z) :
  (0 < length cs)%nat -> (nearest cs x < length cs)%nat.
Proof.
  destruct cs as [|c cs]; cbn; [lia|]. intros _.
  pose proof (argmin_from_lt x cs 1 0 (sq_dist x c)). lia.
Qed.

Lemma assign_length (X : list (list Z)) (cs : list (list Q)) :
  length (assign X cs) = length X.
Proof. unfold assign. apply length_map. Qed.

Lemma assign_lt (X : list (list Z)) (cs : list (list Q)) :
  (0 < length cs)%nat ->
  Forall (fun l => (l < length cs)%nat) (assign X cs).
Proof.
  intros Hpos. unfold assign. apply Forall_map, Forall_forall.
  intros x _. by apply nearest_lt.
Qed.

Lemma members_subset (X : list (list Z)) (a : list nat) (j : nat) (P : list Z -> Prop) :
  Forall P X -> Forall P (members X a j).
Proof.
  intros HX. unfold members. apply Forall_fmap, Forall_forall.
  intros [x l] Hin. apply list_elem_of_filter in Hin as [_ Hin].
  apply elem_of_zip_l in Hin. cbn. by eapply (proj1 (Forall_forall _ _)) in HX.
Qed.

Lemma fold_zip_add_length (rs : list (list Z)) (r : list Z) (d : nat) :
  length r = d -> Forall (fun x => length x = d) rs ->
  length (fold_left (zip_with Z.add) rs r) = d.
Proof.
  intros Hr Hrs. revert r Hr. induction Hrs as [|x rs Hx _ IH]; intros r Hr.
  - done.
  - cbn. apply IH. rewrite length_zip_with. lia.
Qed.

Lemma mean_rows_length (m : list (list Z)) (d : nat) :
  m <> [] -> Forall (fun x => length x = d) m -> length (mean_rows m) = d.
Proof.
  intros Hne Hm. unfold mean_rows. rewrite length_map.
  destruct m as [|r rs]; [done|]. cbn.
  inversion Hm; subst. by apply fold_zip_add_length.
Qed.

Lemma Forall2_Qred (c : list Q) : Forall2 Qeq (map Qred c) c.
Proof.
  induction c as [|q c IH]; constructor; [apply Qred_correct | exact IH].
Qed.

Lemma update_inv (X : list (list Z)) (a : list nat) (old : list (list Q))
    (k d : nat) :
  Forall (fun x => length x = d) X ->
  length old = k -> Forall (fun c => length c = d) old ->
  length a = length X -> Forall (fun l => (l < k)%nat) a ->
  round_inv X k d (update X a old) a.
Proof.
  intros HX Hk Hold Ha Hlt. unfold round_inv, update.
  split; [by rewrite length_imap|]. split.
  - apply Forall_lookup. intros j c Hj.
    apply list_lookup_imap_Some in Hj as (c0 & Hc0 & ->).
    destruct (members X a j) as [|r rs] eqn:Hm.
    + by eapply (proj1 (Forall_lookup _ _)) in Hold.
    + rewrite length_map. apply mean_rows_length; [done|].
      rewrite <- Hm. by apply members_subset.
  - do 2 (split; [done|]). intros j c Hj Hne.
    apply list_lookup_imap_Some in Hj as (c0 & Hc0 & ->).
    destruct (members X a j) as [|r rs] eqn:Hm; [done|].
    apply Forall2_Qred.
Qed.

Lemma iterate_inv (fuel : nat) (X : list (list Z)) (k d : nat)
    (cs : list (list Q)) (a : list nat) :
  (0 < k)%nat -> Forall (fun x => length x = d) X ->
  round_inv X k d cs a ->
  round_inv X k d (iterate fuel X cs a).1 (iterate fuel X cs a).2.
Proof.
  intros Hk HX. revert cs a.
  induction fuel as [|fuel IH]; intros cs a Hinv; cbn; [done|].
  case_bool_decide; [done|]. apply IH.
  destruct Hinv as (Hlen & Hw & _).
  apply update_inv; try done.
  - apply assign_length.
  - rewrite <- Hlen. apply assign_lt. lia.
Qed.

Lemma init_centers_inv (g : Z) (k d : nat) (X : list (list Z)) :
  (k <= length X)%nat -> Forall (fun x => length x = d) X ->
  length (init_centers g k X) = k /\
  Forall (fun c => length c = d) (init_centers g k X).
Proof.
  intros Hk HX. unfold init_centers. split.
  - rewrite length_map, length_take, length_rotate. lia.
  - apply Forall_map, Forall_forall. intros x Hin. cbn.
    rewrite length_map.
    apply elem_of_take in Hin as (i & Hi & _).
    apply list_elem_of_lookup_2, elem_of_rotate in Hi.
    by eapply (proj1 (Forall_forall _ _)) in HX.
Qed.

Lemma single_run_ok (g : Z) (k d : nat) (X : list (list Z)) :
  (0 < k <= length X)%nat -> Forall (fun x => length x = d) X ->
  run_ok X k d (single_run g k X).
Proof.
  intros [Hpos Hk] HX. unfold single_run.
  destruct (init_centers_inv g k d X Hk HX) as [Hlen Hw].
  set (init := init_centers g k X) in *.
  pose proof (iterate_inv (pred max_iter) X k d
                (update X (assign X init) init) (assign X init) Hpos HX) as Hit.
  destruct (iterate _ X _ _) as [cs a]. cbn in Hit.
  assert (Hinv : round_inv X k d cs a).
  { apply Hit, update_inv; try done.
    - apply assign_length.
    - rewrite <- Hlen. apply assign_lt. lia. }
  split; [exact Hinv|]. cbn. split; [apply assign_length|].
  destruct Hinv as (Hcs & _). rewrite <- Hcs. apply assign_lt. lia.
Qed.

Lemma best_of_ok (n : nat) (g : Z) (k d : nat) (X : list (list Z)) (best : run) :
  (0 < k <= length X)%nat -> Forall (fun x => length x = d) X ->
  run_ok X k d best -> run_ok X k d (best_of n g k X best).1.
Proof.
  intros Hk HX. revert g best.
  induction n as [|n IH]; intros g best Hbest; cbn; [done|].
  apply IH. destruct (Qle_bool _ _); [done|]. by apply single_run_ok.
Qed.

Lemma k_means_refuses (g k ni : Z) (X : list (list Z)) :
  k < 1 \/ Z.of_nat (length X) < k ->
  (Lloyd.k_means g k ni X).1 = Err ValueError.
Proof.
  intros Hbad. unfold Lloyd.k_means.
  assert (Hb : (k <? 1) || (Z.of_nat (length X) <? k) = true).
  { apply orb_true_iff. rewrite !Z.ltb_lt. exact Hbad. }
  by rewrite Hb.
Qed.

Lemma k_means_accepts (g k ni : Z) (X : list (list Z)) (d : nat) :
  1 <= k <= Z.of_nat (length X) -> 1 <= ni ->
  Forall (fun x => length x = d) X ->
  exists r, (Lloyd.k_means g k ni X).1 = Ok (mk_Fitted (run_centers r) (run_labels r))
            /\ run_ok X (Z.to_nat k) d r.
Proof.
  intros Hk Hni HX. unfold Lloyd.k_means.
  assert (Hb : (k <? 1) || (Z.of_nat (length X) <? k) || (ni <? 1) = false).
  { rewrite !orb_false_iff, !Z.ltb_ge. lia. }
  rewrite Hb.
  assert (Hk' : (0 < Z.to_nat k <= length X)%nat) by lia.
  pose proof (best_of_ok (Z.to_nat (ni - 1)) (lcg g) (Z.to_nat k) d X
                (single_run (lcg g) (Z.to_nat k) X) Hk' HX
                (single_run_ok _ _ _ _ Hk' HX)) as Hbest.
  destruct (best_of _ _ _ _ _) as [r g']. cbn in Hbest.
  exists r. by split.
Qed.

End LloydFacts.

#[export] Instance lloyd_lawful : KMeansLawful lloyd_engine.
Proof.
  split.
  - intros g k ni X Hbad. by apply LloydFacts.k_means_refuses.
  - intros g k ni X d Hk Hni HX.
    destruct (LloydFacts.k_means_accepts g k ni X d Hk Hni HX)
      as (r & Hfit & (Hlen & Hw & Ha & Hlt & Hmean) & Hlab & Hlablt).
    exists (mk_Fitted (Lloyd.run_centers r) (Lloyd.run_labels r)).
    split; [exact Hfit|]. cbn. by repeat split.
Qed.

(** ** The quantised image *)

Lemma remove_dups_length_le {A} `{EqDecision A} (l l' : list A) :
  (forall x, x ∈ l -> x ∈ l') -> (length (remove_dups l) <= length l')%nat.
Proof.
  intros Hsub. apply submseteq_length, NoDup_submseteq.
  - apply NoDup_remove_dups.
  - intros x Hx. apply Hsub. by apply elem_of_remove_dups.
Qed.

Lemma shape_hw3_size {A} (a : ndarray A) (h w : nat) :
  shape a = [h; w; 3%nat] ->
  (size a mod 3 = 0)%nat /\ (size a / 3 = h * w)%nat.
Proof.
  intros Hs. rewrite (size_hw3 a h w 3 Hs). split.
  - apply Nat.Div0.mod_mul.
  - apply Nat.div_mul. lia.
Qed.

Section QuantisedImage.

Context {E : KMeansEngine} {C : ImageCodec} `{!KMeansLawful E}.

Lemma quantized_rows_in_palette (f : Fitted) :
  Forall (fun l => (l < length (cluster_centers_ f))%nat) (labels_ f) ->
  Forall (fun px => px ∈ map (map to_uint8) (cluster_centers_ f))
         (quantized_rows f).
Proof.
  intros Hl. unfold quantized_rows. apply Forall_map.
  eapply Forall_impl; [exact Hl|]. intros l Hlt. cbn.
  destruct (lookup_lt_is_Some_2 _ _ Hlt) as [c Hc]. rewrite Hc. cbn.
  apply (list_elem_of_fmap_2 (map to_uint8)).
  by eapply list_elem_of_lookup_2.
Qed.

(** C1: for a well-formed H x W x 3 array and 1 <= k <= H*W,
    [compress_image_kmeans] returns an image every pixel of which is one of
    the k centres found by the engine, converted to [uint8]; the image
    therefore has at most k distinct colours. *)
Theorem compress_at_most_k_colors (img : ndarray Z) (h w : nat) (k : Z)
    (σ : world) :
  shape img = [h; w; 3%nat] -> wf_ndarray img ->
  1 <= k <= Z.of_nat (h * w) ->
  exists out f,
    compress_image_kmeans img k σ = (Ok out, σ) /\
    fst (k_means (RandomState_seed 42) k 10 (rows3 (data img))) = Ok f /\
    length (cluster_centers_ f) = Z.to_nat k /\
    Forall (fun px => px ∈ map (map to_uint8) (cluster_centers_ f))
           (rows3 (data out)) /\
    (count_unique_rows (rows3 (data out)) <= Z.to_nat k)%nat.
Proof.
  intros Hs Hwf Hk. destruct (shape_hw3_size img h w Hs) as [Hm Hd].
  destruct (compress_image_kmeans_valid img k σ Hwf Hm)
    as (f & Hfit & Hrun & Hlen & Hw3 & Hlab & Hlt).
  { by rewrite Hd. }
  rewrite <- Hlen in Hlt.
  exists (mk_ndarray (shape img) (concat (quantized_rows f))), f.
  split; [exact Hrun|]. split; [exact Hfit|]. split; [exact Hlen|].
  cbn [data].
  rewrite concat_rows3 by (by apply quantized_rows_width).
  pose proof (quantized_rows_in_palette f Hlt) as Hpal.
  split; [exact Hpal|].
  unfold count_unique_rows. rewrite <- Hlen.
  rewrite <- (length_map (map to_uint8) (cluster_centers_ f)).
  apply remove_dups_length_le. intros px Hpx.
  by eapply (proj1 (Forall_forall _ _)) in Hpal.
Qed.

(** C2: under the same conditions the returned image has the input's shape
    and as many elements, every channel value lies in 0..255, and the pixel
    at position p is the centre of the cluster that the engine assigned to
    sample p, converted to [uint8]. *)
Theorem compress_keeps_shape_and_maps_centres (img : ndarray Z) (h w : nat)
    (k : Z) (σ : world) :
  shape img = [h; w; 3%nat] -> wf_ndarray img ->
  1 <= k <= Z.of_nat (h * w) ->
  exists out f,
    compress_image_kmeans img k σ = (Ok out, σ) /\
    fst (k_means (RandomState_seed 42) k 10 (rows3 (data img))) = Ok f /\
    shape out = [h; w; 3%nat] /\
    wf_ndarray out /\
    Forall (fun v => 0 <= v <= 255) (data out) /\
    length (rows3 (data out)) = (h * w)%nat /\
    forall p, (p < h * w)%nat ->
      exists l c,
        labels_ f !! p = Some l /\
        cluster_centers_ f !! l = Some c /\
        rows3 (data out) !! p = Some (map to_uint8 c).
Proof.
  intros Hs Hwf Hk. destruct (shape_hw3_size img h w Hs) as [Hm Hd].
  destruct (compress_image_kmeans_valid img k σ Hwf Hm)
    as (f & Hfit & Hrun & Hlen & Hw3 & Hlab & Hlt).
  { by rewrite Hd. }
  rewrite <- Hlen in Hlt. rewrite Hd in Hlab.
  pose proof (quantized_rows_width f 3 Hw3 Hlt) as Hqw.
  assert (Hql : length (quantized_rows f) = (h * w)%nat).
  { unfold quantized_rows. by rewrite length_map. }
  exists (mk_ndarray (shape img) (concat (quantized_rows f))), f.
  split; [exact Hrun|]. split; [exact Hfit|]. cbn [shape data].
  split; [exact Hs|]. split.
  { unfold wf_ndarray. cbn [data]. rewrite (concat_width_length _ 3 Hqw), Hql.
    unfold size. cbn [shape]. rewrite Hs. cbn. lia. }
  split.
  { apply Forall_concat. unfold quantized_rows.
    apply Forall_map, Forall_forall. intros l _. cbn.
    apply Forall_map, Forall_forall. intros q _. apply to_uint8_range. }
  rewrite concat_rows3 by exact Hqw.
  split; [exact Hql|]. intros p Hp.
  destruct (lookup_lt_is_Some_2 (labels_ f) p) as [l Hl]; [lia|].
  pose proof (proj1 (Forall_lookup _ _) Hlt p l Hl) as Hll. cbn in Hll.
  destruct (lookup_lt_is_Some_2 _ _ Hll) as [c Hc].
  exists l, c. split; [exact Hl|]. split; [exact Hc|].
  unfold quantized_rows. rewrite list_lookup_fmap, Hl. cbn. by rewrite Hc.
Qed.

End QuantisedImage.

Lemma compress_at_most_k_colors_witness :
  exists out f,
    compress_image_kmeans sample_image 2 empty_world = (Ok out, empty_world) /\
    fst (k_means (RandomState_seed 42) 2 10 (rows3 (data sample_image))) = Ok f /\
    length (cluster_centers_ f) = Z.to_nat 2 /\
    Forall (fun px => px ∈ map (map to_uint8) (cluster_centers_ f))
           (rows3 (data out)) /\
    (count_unique_rows (rows3 (data out)) <= Z.to_nat 2)%nat.
Proof.
  apply (compress_at_most_k_colors sample_image 1 5 2 empty_world);
    [reflexivity | reflexivity | lia].
Defined.

Lemma compress_keeps_shape_and_maps_centres_witness :
  exists out f,
    compress_image_kmeans sample_image 3 empty_world = (Ok out, empty_world) /\
    fst (k_means (RandomState_seed 42) 3 10 (rows3 (data sample_image))) = Ok f /\
    shape out = [1; 5; 3]%nat /\
    wf_ndarray out /\
    Forall (fun v => 0 <= v <= 255) (data out) /\
    length (rows3 (data out)) = (1 * 5)%nat /\
    forall p, (p < 1 * 5)%nat ->
      exists l c,
        labels_ f !! p = Some l /\
        cluster_centers_ f !! l = Some c /\
        rows3 (data out) !! p = Some (map to_uint8 c).
Proof.
  apply (compress_keeps_shape_and_maps_centres sample_image 1 5 3 empty_world);
    [reflexivity | reflexivity | lia].
Defined.

(** ** Determinism *)

Section Determinism.

Context {E : KMeansEngine} {C : ImageCodec}.

Lemma compress_image_kmeans_pure (img : ndarray Z) (k : Z) :
  exists r, forall σ : world, compress_image_kmeans img k σ = (r, σ).
Proof.
  unfold compress_image_kmeans, bind, lift, ret.
  destruct (reshape_m1_3 img) as [pixels|e]; [|by eexists].
  setoid_rewrite KMeans_fit_seeded.
  destruct (fst (k_means _ _ _ pixels)) as [f|e]; [|by eexists].
  destruct (take_rows _ _) as [cp|e]; [|by eexists].
  destruct (reshape_rows cp (shape img)) as [ci|e]; by eexists.
Qed.

(** C3: [compress_image_kmeans] hands the engine a generator seeded with 42
    at every call, so its outcome is the same whatever the state of the
    world it runs in (files, directories, NumPy's global generator), and it
    leaves that world as it found it: a second run, from the world left by
    the first or from any other, returns the same array. *)
Theorem compress_deterministic (img : ndarray Z) (k : Z) (σ1 σ2 : world) :
  fst (compress_image_kmeans img k σ1) = fst (compress_image_kmeans img k σ2) /\
  snd (compress_image_kmeans img k σ1) = σ1 /\
  fst (compress_image_kmeans img k (snd (compress_image_kmeans img k σ1)))
    = fst (compress_image_kmeans img k σ1).
Proof.
  destruct (compress_image_kmeans_pure img k) as [r Hrun]. by rewrite !Hrun.
Qed.

End Determinism.

(** Without a seed the reference engine's fit does follow the global
    generator: the guarantee above comes from the [random_state] argument. *)
Lemma unseeded_fit_depends_on_generator :
  fst (KMeans_fit (mk_KMeans 3 None 1) (rows3 (data sample_line))
         (mk_world ∅ ∅ (0 : Z)))
  <> fst (KMeans_fit (mk_KMeans 3 None 1) (rows3 (data sample_line))
            (mk_world ∅ ∅ (1 : Z))).
Proof. vm_compute. discriminate. Qed.

(** ** A single cluster *)

Lemma all_below_one (l : list nat) :
  Forall (fun i => (i < 1)%nat) l -> l = replicate (length l) 0%nat.
Proof.
  induction 1 as [|i l Hi _ IH]; [done|]. cbn. rewrite <- IH. f_equal. lia.
Qed.

Lemma members_replicate_0 (X : list (list Z)) :
  members X (replicate (length X) 0%nat) 0 = X.
Proof.
  unfold members. induction X as [|x X IH]; [done|].
  change (zip (x :: X) (replicate (length (x :: X)) 0%nat))
    with ((x, 0%nat) :: zip X (replicate (length X) 0%nat)).
  rewrite filter_cons_True by done. rewrite fmap_cons. cbn [fst]. by rewrite IH.
Qed.


(** The reference engine computes in exact rationals, and there the single
    centre is the mean of all the samples.  A floating-point routine returns
    a value near that mean, which the contract leaves open. *)
Lemma lloyd_single_centre_is_mean (g ni : Z) (X : list (list Z)) (d : nat)
    (f : Fitted) :
  X <> [] -> 1 <= ni -> Forall (fun x => length x = d) X ->
  fst (k_means (KMeansEngine := lloyd_engine) g 1 ni X) = Ok f ->
  exists c, cluster_centers_ f = [c] /\ Forall2 Qeq c (mean_rows X) /\
            map to_uint8 c = map to_uint8 (mean_rows X).
Proof.
  intros HX Hni Hd Hf.
  assert (Hk : 1 <= 1 <= Z.of_nat (length X)).
  { destruct X; [done | cbn [length]; lia]. }
  destruct (LloydFacts.k_means_accepts g 1 ni X d Hk Hni Hd)
    as (r & Hfit & (Hlen & Hw & Ha & Hlt & Hmean) & _).
  change (fst (Lloyd.k_means g 1 ni X) = Ok f) in Hf.
  rewrite Hfit in Hf. injection Hf as <-. cbn [cluster_centers_].
  change (Z.to_nat 1) with 1%nat in *.
  destruct (Lloyd.run_centers r) as [|c [|]] eqn:Hcs; try done.
  exists c. split; [done|].
  specialize (Hmean 0%nat c eq_refl).
  rewrite (all_below_one _ Hlt), Ha, members_replicate_0 in Hmean.
  specialize (Hmean HX). split; [exact Hmean|].
  by apply map_to_uint8_comp.
Qed.

Section SingleCluster.

Context {E : KMeansEngine} {C : ImageCodec} `{!KMeansLawful E}.


End SingleCluster.


(** ** Arrays that are not rows of three *)

Section Regrouping.

Context {E : KMeansEngine} {C : ImageCodec}.

(** C10: [compress_image_kmeans] starts with [reshape(-1, 3)].  An array
    whose element count is not a multiple of 3 makes it raise [ValueError]
    and return no image.  For an H x W x 4 array whose element count is a
    multiple of 3 the reshape succeeds, and the samples given to the engine
    are the buffer read three values at a time: the first sample is pixel
    0's R, G, B and the second is pixel 0's alpha followed by pixel 1's R and
    G, so samples straddle pixel boundaries. *)
Theorem compress_regroups_in_threes (img : ndarray Z) (k : Z) (σ : world) :
  ((size img mod 3 <> 0)%nat ->
   compress_image_kmeans img k σ = (Err ValueError, σ)) /\
  (forall h w r0 g0 b0 a0 r1 g1 b1 a1 rest,
     shape img = [h; w; 4%nat] ->
     data img = r0 :: g0 :: b0 :: a0 :: r1 :: g1 :: b1 :: a1 :: rest ->
     (size img mod 3 = 0)%nat ->
     exists samples,
       reshape_m1_3 img = Ok samples /\
       samples = [r0; g0; b0] :: [a0; r1; g1] :: rows3 (b1 :: a1 :: rest) /\
       compress_image_kmeans img k σ =
         (result_bind (fst (k_means (RandomState_seed 42) k 10 samples))
            (fun f =>
               result_bind (take_rows (cluster_centers_ f) (labels_ f))
                 (fun cp =>
                    result_bind (reshape_rows cp (shape img))
                      (fun ci => Ok (astype_uint8 ci)))), σ)).
Proof.
  split; [apply compress_image_kmeans_bad_size|].
  intros h w r0 g0 b0 a0 r1 g1 b1 a1 rest Hs Hd Hm.
  eexists. split; [|split; [reflexivity|]].
  - unfold reshape_m1_3. by rewrite (proj2 (Nat.eqb_eq _ _) Hm), Hd.
  - unfold compress_image_kmeans, bind, lift, ret, reshape_m1_3.
    rewrite (proj2 (Nat.eqb_eq _ _) Hm), Hd, KMeans_fit_seeded.
    change (rows3 (r0 :: g0 :: b0 :: a0 :: r1 :: g1 :: b1 :: a1 :: rest))
      with ([r0; g0; b0] :: [a0; r1; g1] :: rows3 (b1 :: a1 :: rest)).
    destruct (fst (k_means _ _ _ _)) as [f|e]; [|done]. cbn.
    destruct (take_rows _ _) as [cp|e]; [|done]. cbn.
    by destruct (reshape_rows cp (shape img)) as [ci|e].
Qed.

End Regrouping.

Lemma compress_regroups_in_threes_witness :
  compress_image_kmeans sample_gray 2 empty_world = (Err ValueError, empty_world)
  /\ exists samples,
       reshape_m1_3 sample_rgba = Ok samples /\
       samples = [1; 2; 3] :: [255; 4; 5] :: rows3 [6; 255; 7; 8; 9; 255] /\
       compress_image_kmeans sample_rgba 2 empty_world =
         (result_bind (fst (k_means (RandomState_seed 42) 2 10 samples))
            (fun f =>
               result_bind (take_rows (cluster_centers_ f) (labels_ f))
                 (fun cp =>
                    result_bind (reshape_rows cp (shape sample_rgba))
                      (fun ci => Ok (astype_uint8 ci)))), empty_world).
Proof.
  split.
  - apply (proj1 (compress_regroups_in_threes sample_gray 2 empty_world)).
    vm_compute. discriminate.
  - apply (proj2 (compress_regroups_in_threes sample_rgba 2 empty_world)
             1%nat 3%nat 1 2 3 255 4 5 6 255 [7; 8; 9; 255]);
      reflexivity.
Defined.

(** ** Invalid cluster counts *)

Section InvalidK.

Context {E : KMeansEngine} {C : ImageCodec} `{!KMeansLawful E}.

Lemma load_image_ok (p : string) (bytes : list Byte.byte) (img : ndarray Z)
    (σ : world) :
  files σ !! p = Some bytes -> image_decode bytes = Some img ->
  (2 <= length (shape img))%nat ->
  load_image p σ = (Ok (Some img), σ).
Proof.
  intros Hf Hd Hs.
  unfold load_image, try_except, bind, Image_open_array, lift, ret,
    print_dimensions.
  rewrite Hf, Hd.
  by rewrite (proj2 (Nat.ltb_ge _ _) Hs).
Qed.

(** C4: a cluster count below 1 or above the number of samples makes the
    clustering call raise the engine's parameter error ([ValueError], of
    which scikit-learn's [InvalidParameterError] is a subclass) for every
    sample set; [compress_image_kmeans] raises with it, and
    [compress_image_file] on an image file with such a count raises too and
    leaves the world exactly as it was: no file is written. *)
Theorem invalid_k_fails_without_output (input_path output_path : string)
    (bytes : list Byte.byte) (img : ndarray Z) (k : Z) (σ : world) :
  files σ !! input_path = Some bytes -> image_decode bytes = Some img ->
  (2 <= length (shape img))%nat ->
  k < 1 \/ Z.of_nat (length (rows3 (data img))) < k ->
  (forall X : list (list Z),
     k < 1 \/ Z.of_nat (length X) < k ->
     KMeans_fit (mk_KMeans k (Some 42) 10) X σ = (Err ValueError, σ)) /\
  compress_image_kmeans img k σ = (Err ValueError, σ) /\
  compress_image_file input_path output_path k σ = (Err ValueError, σ).
Proof.
  intros Hf Hd Hs Hk.
  assert (Hfit : forall X : list (list Z),
            k < 1 \/ Z.of_nat (length X) < k ->
            KMeans_fit (mk_KMeans k (Some 42) 10) X σ = (Err ValueError, σ)).
  { intros X HX. rewrite KMeans_fit_seeded. by rewrite k_means_invalid. }
  assert (Hc : compress_image_kmeans img k σ = (Err ValueError, σ)).
  { destruct (decide (size img mod 3 = 0)%nat) as [Hm|Hm].
    - apply compress_image_kmeans_fit_error; [|exact Hm].
      by apply k_means_invalid.
    - by apply compress_image_kmeans_bad_size. }
  split; [exact Hfit|]. split; [exact Hc|].
  unfold compress_image_file, bind.
  by rewrite (load_image_ok _ _ _ _ Hf Hd Hs), Hc.
Qed.

End InvalidK.

Lemma invalid_k_fails_without_output_witness :
  (forall X : list (list Z),
     6 < 1 \/ Z.of_nat (length X) < 6 ->
     KMeans_fit (mk_KMeans 6 (Some 42) 10) X sample_world
       = (Err ValueError, sample_world)) /\
  compress_image_kmeans sample_image 6 sample_world
    = (Err ValueError, sample_world) /\
  compress_image_file "photo.png" "out/photo_6.png" 6 sample_world
    = (Err ValueError, sample_world).
Proof.
  apply (invalid_k_fails_without_output "photo.png" "out/photo_6.png"
           sample_file sample_image 6 sample_world).
  - reflexivity.
  - reflexivity.
  - cbn. lia.
  - right. cbn. lia.
Defined.

(** ** The ratio of unique colours *)

Lemma reshape_m1_3_error {A} (a : ndarray A) (e : exn) :
  reshape_m1_3 a = Err e -> e = ValueError.
Proof.
  unfold reshape_m1_3. destruct (size a mod 3 =? 0)%nat; congruence.
Qed.

(** C5: [calculate_compression_ratio] never raises [ZeroDivisionError];
    whenever both arrays reshape into rows of three it returns the number of
    distinct rows of the original divided by that of the compressed image
    when the latter is not zero, and 1 when it is zero. *)
Theorem ratio_of_unique_colours (original_img compressed_img : ndarray Z) :
  calculate_compression_ratio original_img compressed_img
    <> Err ZeroDivisionError /\
  forall orig_rows comp_rows,
    reshape_m1_3 original_img = Ok orig_rows ->
    reshape_m1_3 compressed_img = Ok comp_rows ->
    (count_unique_rows comp_rows <> 0%nat ->
     calculate_compression_ratio original_img compressed_img =
       Ok (inject_Z (Z.of_nat (count_unique_rows orig_rows)) /
           inject_Z (Z.of_nat (count_unique_rows comp_rows)))%Q) /\
    (count_unique_rows comp_rows = 0%nat ->
     calculate_compression_ratio original_img compressed_img = Ok 1%Q).
Proof.
  unfold calculate_compression_ratio, result_bind, py_truediv. split.
  - destruct (reshape_m1_3 original_img) as [o|e] eqn:Ho;
      [|by rewrite (reshape_m1_3_error _ _ Ho)].
    destruct (reshape_m1_3 compressed_img) as [c|e] eqn:Hc;
      [|by rewrite (reshape_m1_3_error _ _ Hc)].
    destruct (Z.gtb_spec (Z.of_nat (count_unique_rows c)) 0) as [Hp|Hp];
      [|done].
    by rewrite (proj2 (Z.eqb_neq _ _)) by lia.
  - intros o c -> ->. split; intros Hc.
    + rewrite (proj2 (Z.gtb_gt _ _)) by lia.
      by rewrite (proj2 (Z.eqb_neq _ _)) by lia.
    + by rewrite Hc.
Qed.

Lemma ratio_of_unique_colours_witness :
  calculate_compression_ratio sample_image sample_line
    = Ok (inject_Z 5 / inject_Z 4)%Q /\
  calculate_compression_ratio sample_image sample_empty = Ok 1%Q.
Proof.
  split.
  - apply (proj1 (proj2 (ratio_of_unique_colours sample_image sample_line)
                    _ _ eq_refl eq_refl)).
    vm_compute. discriminate.
  - apply (proj2 (proj2 (ratio_of_unique_colours sample_image sample_empty)
                    _ _ eq_refl eq_refl)).
    reflexivity.
Defined.

(** ** The command surface on a missing input *)

Section MissingInput.

Context {E : KMeansEngine} {C : ImageCodec}.

Variable report : string -> list CompressionResult -> string -> py unit.

(** C8: when the input path names neither a file nor a directory, [main]
    raises [SystemExit(1)] straight after the existence test: the process
    exits with status 1, and the world (its files and directories) is the
    one it started from, whatever the other arguments are. *)
Theorem main_missing_input_exits_nonzero (args : Args) (σ : world) :
  is_file σ (input args) = false -> is_dir σ (input args) = false ->
  main report args σ = (Err (SystemExit 1), σ) /\
  exit_status (fst (main report args σ)) = 1 /\
  exit_status (fst (main report args σ)) <> 0 /\
  files (snd (main report args σ)) = files σ.
Proof.
  intros Hf Hd.
  assert (Hmain : main report args σ = (Err (SystemExit 1), σ)).
  { unfold main, bind, os_path_exists, raise. by rewrite Hf, Hd. }
  rewrite Hmain. cbn. done.
Qed.

End MissingInput.

Lemma main_missing_input_exits_nonzero_witness :
  main silent_report (mk_Args "absent.png" 16 true "../images/output")
       sample_world
    = (Err (SystemExit 1), sample_world) /\
  exit_status (fst (main silent_report
                      (mk_Args "absent.png" 16 true "../images/output")
                      sample_world)) = 1 /\
  exit_status (fst (main silent_report
                      (mk_Args "absent.png" 16 true "../images/output")
                      sample_world)) <> 0 /\
  files (snd (main silent_report
                (mk_Args "absent.png" 16 true "../images/output")
                sample_world)) = files sample_world.
Proof.
  apply (main_missing_input_exits_nonzero silent_report
           (mk_Args "absent.png" 16 true "../images/output") sample_world);
    vm_compute; reflexivity.
Defined.

(** ** Paths *)

Section PathFacts.

Local Open Scope string_scope.

Lemma rsplit_at_no_sep (f : string) :
  no_sep f = true -> rsplit_at sep f = ("", f).
Proof.
  induction f as [|c f IH]; [done|]. cbn.
  intros [Hc Hf]%andb_true_iff. rewrite (IH Hf).
  by destruct (Ascii.eqb c sep).
Qed.

Lemma rsplit_at_app (d f : string) :
  no_sep f = true ->
  rsplit_at sep (d ++ String sep f) = (d ++ String sep "", f).
Proof.
  intros Hf. induction d as [|c d IH].
  - simpl. by rewrite (rsplit_at_no_sep f Hf).
  - simpl. rewrite IH. by destruct d.
Qed.

Lemma last_char_None (d : string) : last_char d = None -> d = "".
Proof.
  induction d as [|c d IH]; [done|]. destruct d as [|c' d]; [done|].
  intros Hl. by specialize (IH Hl).
Qed.

Lemma clean_dir_last (d : string) :
  clean_dir d = true ->
  exists c, last_char d = Some c /\ Ascii.eqb c sep = false.
Proof.
  unfold clean_dir, ends_with. intros [Hne Hend]%andb_true_iff.
  destruct (last_char d) as [c|] eqn:Hl.
  - exists c. split; [done|]. by destruct (Ascii.eqb c sep).
  - by rewrite (last_char_None d Hl) in Hne.
Qed.

Lemma all_char_app_last (d r : string) (c : ascii) :
  last_char d = Some c -> Ascii.eqb c sep = false ->
  all_char sep (d ++ r) = false.
Proof.
  intros Hl Hc. induction d as [|c0 d IH]; [done|].
  change (all_char sep (String c0 d ++ r))
    with (Ascii.eqb c0 sep && all_char sep (d ++ r)).
  destruct d as [|c1 d].
  - injection Hl as ->. by rewrite Hc.
  - rewrite IH by exact Hl. apply andb_false_r.
Qed.

Lemma rstrip_app_sep (d : string) :
  rstrip sep (d ++ String sep "") = rstrip sep d.
Proof.
  induction d as [|c d IH]; [done|].
  change (rstrip sep (String c d ++ String sep ""))
    with (match rstrip sep (d ++ String sep "") with
          | "" => if Ascii.eqb c sep then "" else String c ""
          | String c' r' => String c (String c' r')
          end).
  by rewrite IH.
Qed.

Lemma rstrip_id (d : string) (c : ascii) :
  last_char d = Some c -> Ascii.eqb c sep = false -> rstrip sep d = d.
Proof.
  intros Hl Hc. induction d as [|c0 d IH]; [done|].
  change (rstrip sep (String c0 d))
    with (match rstrip sep d with
          | "" => if Ascii.eqb c0 sep then "" else String c0 ""
          | String c' r' => String c0 (String c' r')
          end).
  destruct d as [|c1 d].
  - injection Hl as ->. by rewrite Hc.
  - by rewrite IH by exact Hl.
Qed.

Lemma no_sep_starts_with (f : string) :
  no_sep f = true -> starts_with sep f = false.
Proof.
  destruct f as [|c f]; [done|]. cbn. intros [Hc _]%andb_true_iff.
  by destruct (Ascii.eqb c sep).
Qed.

(** Joining a clean directory and a plain file name, and splitting again. *)
Lemma join_clean (d f : string) :
  clean_dir d = true -> no_sep f = true ->
  os_path_join d f = d ++ String sep f /\
  os_path_dirname (d ++ String sep f) = d /\
  os_path_basename (d ++ String sep f) = f.
Proof.
  intros Hd Hf.
  destruct (clean_dir_last d Hd) as (c & Hl & Hc).
  apply andb_true_iff in Hd as [Hne Hend].
  split; [|split].
  - unfold os_path_join. rewrite (no_sep_starts_with f Hf).
    apply negb_true_iff in Hne, Hend. by rewrite Hne, Hend.
  - unfold os_path_dirname, os_path_split. rewrite (rsplit_at_app d f Hf).
    rewrite (all_char_app_last d _ c Hl Hc).
    assert (Hnemp : is_empty (d ++ String sep "") = false) by (by destruct d).
    rewrite Hnemp. cbn. by rewrite rstrip_app_sep, (rstrip_id d c Hl Hc).
  - unfold os_path_basename. by rewrite (rsplit_at_app d f Hf).
Qed.

Lemma length_app_one (s : string) (c : ascii) :
  String.length (s ++ String c "") = S (String.length s).
Proof. induction s as [|c0 s IH]; [done|]. simpl. by f_equal. Qed.

Lemma length_app_string (s t : string) :
  String.length (s ++ t) = (String.length s + String.length t)%nat.
Proof. induction s as [|c0 s IH]; [done|]. simpl. by f_equal. Qed.

Lemma path_prefixes_length (acc p x : string) :
  x ∈ path_prefixes acc p ->
  (String.length x <= String.length acc + String.length p)%nat.
Proof.
  revert acc. induction p as [|c p IH]; intros acc Hx.
  - cbn in Hx. destruct (is_empty acc); [by apply elem_of_nil in Hx|].
    apply list_elem_of_singleton in Hx as ->. lia.
  - cbn in Hx. cbn [String.length].
    assert (Hrest : x ∈ path_prefixes (acc ++ String c "") p ->
                    (String.length x <= String.length acc + S (String.length p))%nat).
    { intros H. apply IH in H. rewrite length_app_one in H. lia. }
    destruct (Ascii.eqb c sep && negb (is_empty acc) && negb (all_char sep acc));
      [|by apply Hrest].
    apply elem_of_cons in Hx as [->|Hx]; [lia | by apply Hrest].
Qed.

Lemma ancestors_length (p x : string) :
  x ∈ ancestors p -> (String.length x <= String.length p)%nat.
Proof. intros Hx. by apply path_prefixes_length in Hx. Qed.

Lemma no_sep_app (s t : string) :
  no_sep s = true -> no_sep t = true -> no_sep (s ++ t) = true.
Proof.
  intros Hs Ht. induction s as [|c s IH]; [done|].
  simpl in *. apply andb_true_iff in Hs as [Hc Hs]. by rewrite Hc, IH.
Qed.

Lemma no_sep_uint (d : Decimal.uint) :
  no_sep (NilEmpty.string_of_uint d) = true.
Proof. induction d; cbn; done. Qed.

Lemma no_sep_str_of_Z (n : Z) : no_sep (str_of_Z n) = true.
Proof.
  unfold str_of_Z, NilZero.string_of_int, NilZero.string_of_uint.
  destruct (Z.to_int n) as [d|d]; destruct d; cbn; try done;
    apply no_sep_uint.
Qed.

Lemma no_sep_level_filename (k : Z) : no_sep (level_filename k) = true.
Proof.
  unfold level_filename.
  apply (no_sep_app "compressed_"); [done|].
  apply no_sep_app; [apply no_sep_str_of_Z | done].
Qed.

End PathFacts.

(** ** Saving an image *)

Section SaveFacts.

Context {E : KMeansEngine} {C : ImageCodec}.

Lemma bind_ok {A B} (m : py A) (k : A -> py B) (σ σ' : world) (a : A) :
  m σ = (Ok a, σ') -> bind m k σ = k a σ'.
Proof. unfold bind. by intros ->. Qed.

Lemma bind_err {A B} (m : py A) (k : A -> py B) (σ σ' : world) (e : exn) :
  m σ = (Err e, σ') -> bind m k σ = (Err e, σ').
Proof. unfold bind. by intros ->. Qed.

Lemma existsb_is_file_false (σ : world) (l : list string) :
  Forall (fun x => is_file σ x = false) l -> existsb (is_file σ) l = false.
Proof. induction 1 as [|x l Hx _ IH]; [done|]. cbn. by rewrite Hx, IH. Qed.

Lemma os_makedirs_empty (σ : world) :
  os_makedirs "" σ = (Err FileNotFoundError, σ).
Proof. reflexivity. Qed.

Lemma string_app_empty_r (s : string) : (s ++ "")%string = s.
Proof.
  induction s as [|c s IH]; [done|].
  change (String c (s ++ "")%string = String c s). by rewrite IH.
Qed.

Lemma string_app_assoc_one (s t : string) (c : ascii) :
  ((s ++ String c "") ++ t)%string = (s ++ String c t)%string.
Proof.
  induction s as [|c0 s IH]; [done|].
  change (String c0 ((s ++ String c "") ++ t)%string
          = String c0 (s ++ String c t)%string).
  by rewrite IH.
Qed.

Lemma path_prefixes_self (acc p : string) :
  is_empty (acc ++ p)%string = false ->
  (acc ++ p)%string ∈ path_prefixes acc p.
Proof.
  revert acc. induction p as [|c p IH]; intros acc Hne.
  - rewrite string_app_empty_r in *. cbn. rewrite Hne. apply list_elem_of_here.
  - cbn [path_prefixes].
    assert (Hin : (acc ++ String c p)%string
                    ∈ path_prefixes (acc ++ String c "") p).
    { rewrite <- string_app_assoc_one. apply IH.
      rewrite string_app_assoc_one. exact Hne. }
    destruct (_ && _); [by apply list_elem_of_further | exact Hin].
Qed.

Lemma ancestors_self (p : string) :
  is_empty p = false -> p ∈ ancestors p.
Proof. intros Hne. by apply (path_prefixes_self "" p). Qed.

Lemma os_makedirs_ok (name : string) (σ : world) :
  is_empty name = false ->
  Forall (fun x => is_file σ x = false) (ancestors name) ->
  os_makedirs name σ =
    (Ok tt, mk_world (files σ) (dirs σ ∪ list_to_set (ancestors name))
                     (np_random σ)).
Proof.
  intros Hne Hfree. unfold os_makedirs.
  rewrite Hne, (existsb_is_file_false _ _ Hfree).
  by rewrite (proj1 (Forall_forall _ _) Hfree name (ancestors_self name Hne)).
Qed.

(** The failing case: a path without a directory part. *)
Lemma save_image_no_directory (img : ndarray Z) (p : string) (σ : world) :
  os_path_dirname p = ""%string ->
  save_image img p σ = (Err FileNotFoundError, σ).
Proof.
  intros Hd. unfold save_image. rewrite Hd.
  by rewrite (bind_err _ _ σ σ FileNotFoundError (os_makedirs_empty σ)).
Qed.

(** The succeeding case: the directory part is created with everything on
    the way to it, the file is written, and its length is returned. *)
Lemma save_image_ok (img : ndarray Z) (p : string) (bytes : list Byte.byte)
    (σ : world) :
  image_encode p img = Ok bytes ->
  is_empty (os_path_dirname p) = false ->
  is_empty (os_path_basename p) = false ->
  Forall (fun x => is_file σ x = false) (ancestors (os_path_dirname p)) ->
  is_dir σ p = false ->
  p ∉ ancestors (os_path_dirname p) ->
  save_image img p σ =
    (Ok (Z.of_nat (length bytes)),
     mk_world (<[p := bytes]> (files σ))
              (dirs σ ∪ list_to_set (ancestors (os_path_dirname p)))
              (np_random σ)).
Proof.
  intros Henc Hd Hb Hfree Hnd Hna. unfold save_image.
  rewrite (bind_ok _ _ _ _ _ (os_makedirs_ok _ σ Hd Hfree)).
  set (σ1 := mk_world (files σ) _ (np_random σ)).
  assert (Hdir1 : is_dir σ1 p = false).
  { unfold is_dir in *. apply bool_decide_eq_false. cbn.
    apply bool_decide_eq_false in Hnd.
    rewrite elem_of_union, elem_of_list_to_set. tauto. }
  assert (Hpar : parent_exists σ1 p = true).
  { unfold parent_exists. rewrite Hd. cbn.
    apply orb_true_iff. right. unfold is_dir. apply bool_decide_eq_true. cbn.
    apply elem_of_union. right. apply elem_of_list_to_set.
    by apply ancestors_self. }
  assert (Hsave : Image_save img p σ1 =
            (Ok tt, mk_world (<[p := bytes]> (files σ1)) (dirs σ1)
                             (np_random σ1))).
  { unfold Image_save. by rewrite Henc, Hb, Hdir1, Hpar. }
  rewrite (bind_ok _ _ _ _ _ Hsave).
  unfold bind, os_path_getsize, ret. cbn [files].
  by rewrite lookup_insert_eq.
Qed.

End SaveFacts.

(** C9 (the code departs from it): [save_image] calls
    [os.makedirs(os.path.dirname(output_path))] unconditionally, and for a
    path without a directory part that directory name is empty, which
    [os.makedirs] refuses: [save_image] raises [FileNotFoundError], writes
    no file and returns no size, in every world. *)
Theorem save_image_bare_name_fails {E : KMeansEngine} {C : ImageCodec}
    (img : ndarray Z) (σ : world) :
  os_path_dirname "output.jpg" = ""%string /\
  save_image img "output.jpg" σ = (Err FileNotFoundError, σ).
Proof. split; [reflexivity|]. by apply save_image_no_directory. Qed.

(** ** The multi-level driver *)

Section LevelPaths.

Local Open Scope string_scope.

Lemma string_app_inv_head (d s t : string) : d ++ s = d ++ t -> s = t.
Proof.
  induction d as [|c d IH]; [done|]. intros H.
  change (String c (d ++ s) = String c (d ++ t)) in H.
  injection H as H. by apply IH.
Qed.

Lemma level_path_clean (d : string) (k : Z) :
  clean_dir d = true ->
  level_path d k = d ++ String sep (level_filename k) /\
  os_path_dirname (level_path d k) = d /\
  is_empty (os_path_basename (level_path d k)) = false.
Proof.
  intros Hd. unfold level_path.
  destruct (join_clean d (level_filename k) Hd (no_sep_level_filename k))
    as (Hj & Hdir & Hbase).
  rewrite Hj. split; [done|]. split; [done|]. by rewrite Hbase.
Qed.

Lemma level_filename_length (k : Z) :
  (22 <= String.length (level_filename k))%nat.
Proof.
  unfold level_filename. rewrite !length_app_string.
  change (String.length "compressed_") with 11%nat.
  change (String.length "_colors.png") with 11%nat. lia.
Qed.

Lemma clean_dir_not_empty (d : string) :
  clean_dir d = true -> is_empty d = false.
Proof. unfold clean_dir. intros [H _]%andb_true_iff. by apply negb_true_iff. Qed.

(** Directory names with trailing separators. *)
Lemma all_char_app (s t : string) :
  all_char sep (s ++ t) = all_char sep s && all_char sep t.
Proof.
  induction s as [|c s IH]; [done|].
  change (Ascii.eqb c sep && all_char sep (s ++ t)
          = Ascii.eqb c sep && all_char sep s && all_char sep t).
  by rewrite IH, andb_assoc.
Qed.

Lemma rsplit_at_cons (c : ascii) (r : string) :
  rsplit_at sep (String c r) =
    let '(h, t) := rsplit_at sep r in
    match h with
    | "" => if Ascii.eqb c sep then (String c "", t) else ("", String c t)
    | String _ _ => (String c h, t)
    end.
Proof. reflexivity. Qed.

Lemma rsplit_at_app_ends (d f : string) :
  ends_with sep d = true -> no_sep f = true ->
  rsplit_at sep (d ++ f) = (d, f).
Proof.
  intros Hd Hf. induction d as [|c d IH]; [done|].
  destruct d as [|c' d'].
  - assert (Hc : Ascii.eqb c sep = true) by exact Hd.
    change (String c "" ++ f) with (String c f).
    by rewrite rsplit_at_cons, (rsplit_at_no_sep f Hf), Hc.
  - change (String c (String c' d') ++ f) with (String c (String c' d' ++ f)).
    by rewrite rsplit_at_cons, (IH Hd).
Qed.

Lemma rstrip_split (d : string) :
  exists t, d = rstrip sep d ++ t /\ all_char sep t = true.
Proof.
  induction d as [|c d (t & Hd & Ht)]; [by exists ""|].
  change (rstrip sep (String c d))
    with (match rstrip sep d with
          | "" => if Ascii.eqb c sep then "" else String c ""
          | String c' r' => String c (String c' r')
          end).
  destruct (rstrip sep d) as [|c' r'].
  - change (d = t) in Hd. subst t.
    destruct (Ascii.eqb c sep) eqn:Hc.
    + exists (String c d). split; [done|].
      change (Ascii.eqb c sep && all_char sep d = true). by rewrite Hc.
    + by exists d.
  - exists t. split; [|done].
    change (String c d = String c (String c' r' ++ t)). by rewrite <- Hd.
Qed.

Lemma rstrip_not_all (d : string) :
  all_char sep d = false ->
  is_empty (rstrip sep d) = false /\ all_char sep (rstrip sep d) = false.
Proof.
  intros Hall. destruct (rstrip_split d) as (t & Hd & Ht).
  assert (Hr : all_char sep (rstrip sep d) = false).
  { rewrite Hd, all_char_app, Ht, andb_true_r in Hall. exact Hall. }
  split; [|exact Hr]. by destruct (rstrip sep d).
Qed.

Lemma path_prefixes_app_sep (acc s t x : string) :
  is_empty (acc ++ s) = false -> all_char sep (acc ++ s) = false ->
  x ∈ path_prefixes acc s -> x ∈ path_prefixes acc (s ++ String sep t).
Proof.
  revert acc. induction s as [|c s IH]; intros acc Hne Hall Hx.
  - rewrite string_app_empty_r in Hne, Hall.
    cbn [path_prefixes] in Hx. rewrite Hne in Hx.
    apply list_elem_of_singleton in Hx as ->.
    change (acc ∈ path_prefixes acc (String sep t)).
    cbn [path_prefixes]. rewrite Hne, Hall.
    change (Ascii.eqb sep sep) with true. cbn [andb negb].
    apply list_elem_of_here.
  - change (x ∈ path_prefixes acc (String c (s ++ String sep t))).
    cbn [path_prefixes] in *.
    assert (Hrest : x ∈ path_prefixes (acc ++ String c "") s ->
                    x ∈ path_prefixes (acc ++ String c "") (s ++ String sep t)).
    { apply IH; by rewrite string_app_assoc_one. }
    destruct (_ && _); [|by apply Hrest].
    apply elem_of_cons in Hx as [->|Hx]; [apply list_elem_of_here|].
    by apply list_elem_of_further, Hrest.
Qed.

Lemma joined_dirname_cases (d : string) :
  joined_dirname d = d \/
  (all_char sep d = false /\ joined_dirname d = rstrip sep d).
Proof.
  unfold joined_dirname. destruct (ends_with sep d); [|by left].
  destruct (all_char sep d); [by left | by right].
Qed.

Lemma joined_dirname_not_empty (d : string) :
  is_empty d = false -> is_empty (joined_dirname d) = false.
Proof.
  intros Hne. destruct (joined_dirname_cases d) as [->|[Hall ->]]; [done|].
  by apply rstrip_not_all.
Qed.

Lemma joined_dirname_length (d : string) :
  (String.length (joined_dirname d) <= String.length d)%nat.
Proof.
  destruct (joined_dirname_cases d) as [->|[_ ->]]; [done|].
  destruct (rstrip_split d) as (t & Hd & _).
  apply (f_equal String.length) in Hd. rewrite length_app_string in Hd. lia.
Qed.

Lemma ancestors_joined_dirname (d x : string) :
  x ∈ ancestors (joined_dirname d) -> x ∈ ancestors d.
Proof.
  destruct (joined_dirname_cases d) as [->|[Hall ->]]; [done|].
  destruct (rstrip_not_all d Hall) as [Hne Hnall].
  destruct (rstrip_split d) as (t & Hd & Ht).
  intros Hx. rewrite Hd. destruct t as [|c t].
  - by rewrite string_app_empty_r.
  - change (Ascii.eqb c sep && all_char sep t = true) in Ht.
    apply andb_true_iff in Ht as [Hc _]. apply Ascii.eqb_eq in Hc as ->.
    by apply (path_prefixes_app_sep "" (rstrip sep d) t x).
Qed.

(** Joining any directory name and a plain file name, and splitting
    again. *)
Lemma join_dir (d f : string) :
  is_empty d = false -> no_sep f = true ->
  os_path_join d f = (if ends_with sep d then d else d ++ String sep "") ++ f /\
  os_path_dirname (os_path_join d f) = joined_dirname d /\
  os_path_basename (os_path_join d f) = f.
Proof.
  intros Hne Hf. destruct (ends_with sep d) eqn:Hend.
  - assert (Hj : os_path_join d f = d ++ f).
    { unfold os_path_join.
      by rewrite (no_sep_starts_with f Hf), Hend, orb_true_r. }
    rewrite Hj. split; [done|].
    unfold os_path_dirname, os_path_basename, os_path_split.
    rewrite (rsplit_at_app_ends d f Hend Hf). split; [|done].
    cbn [fst]. unfold joined_dirname. by rewrite Hne, Hend.
  - assert (Hd : clean_dir d = true).
    { unfold clean_dir. by rewrite Hne, Hend. }
    destruct (join_clean d f Hd Hf) as (Hj & Hdir & Hbase).
    rewrite Hj, string_app_assoc_one. split; [done|]. split; [|done].
    rewrite Hdir. unfold joined_dirname. by rewrite Hend.
Qed.

Lemma level_path_dir (d : string) (k : Z) :
  is_empty d = false ->
  os_path_dirname (level_path d k) = joined_dirname d /\
  is_empty (os_path_basename (level_path d k)) = false /\
  (String.length d + 22 <= String.length (level_path d k))%nat.
Proof.
  intros Hne. unfold level_path.
  destruct (join_dir d (level_filename k) Hne (no_sep_level_filename k))
    as (Hj & Hdir & Hbase).
  split; [done|]. split; [by rewrite Hbase|].
  rewrite Hj, length_app_string. pose proof (level_filename_length k).
  destruct (ends_with sep d); [lia|]. rewrite length_app_one. lia.
Qed.

Lemma level_path_outside (d : string) (k : Z) :
  is_empty d = false ->
  (level_path d k ∉ ancestors d) /\
  (level_path d k ∉ ancestors (joined_dirname d)).
Proof.
  intros Hne. destruct (level_path_dir d k Hne) as (_ & _ & Hlen).
  split; intros Hin; apply ancestors_length in Hin;
    [|pose proof (joined_dirname_length d)]; lia.
Qed.

Lemma level_paths_NoDup_dir (d : string) (levels : list Z) :
  is_empty d = false -> NoDup (map level_filename levels) ->
  NoDup (map (level_path d) levels).
Proof.
  intros Hne Hnd.
  set (pre := if ends_with sep d then d else d ++ String sep "").
  assert (Heq : map (level_path d) levels
                = map (fun f => pre ++ f) (map level_filename levels)).
  { rewrite map_map. apply map_ext. intros k. unfold level_path.
    by destruct (join_dir d (level_filename k) Hne (no_sep_level_filename k))
      as (-> & _). }
  rewrite Heq.
  assert (Hinj : Inj (=) (=) (fun f => pre ++ f)).
  { intros f1 f2 H. by apply string_app_inv_head in H. }
  by apply (NoDup_fmap_2 _).
Qed.

Lemma level_paths_NoDup (d : string) (levels : list Z) :
  clean_dir d = true -> NoDup (map level_filename levels) ->
  NoDup (map (level_path d) levels).
Proof.
  intros Hd Hnd.
  assert (Heq : map (level_path d) levels
                = map (fun f => d ++ String sep f) (map level_filename levels)).
  { rewrite map_map. apply map_ext. intros k.
    by destruct (level_path_clean d k Hd) as (-> & _). }
  rewrite Heq.
  assert (Hinj : Inj (=) (=) (fun f => d ++ String sep f)).
  { intros f1 f2 H. apply string_app_inv_head in H. by injection H. }
  by apply (NoDup_fmap_2 _).
Qed.

End LevelPaths.

Section MultiLevel.

Context {E : KMeansEngine} {C : ImageCodec} `{!KMeansLawful E}.

(** A valid level on an H x W x 3 array: the image is the same in every
    world, has the input's shape and holds bytes. *)
Lemma compress_image_kmeans_rgb (img : ndarray Z) (h w : nat) (k : Z) :
  shape img = [h; w; 3%nat] -> wf_ndarray img ->
  1 <= k <= Z.of_nat (h * w) ->
  exists out,
    (forall σ : world, compress_image_kmeans img k σ = (Ok out, σ)) /\
    shape out = [h; w; 3%nat] /\ wf_ndarray out /\
    Forall (fun v => 0 <= v <= 255) (data out).
Proof.
  intros Hs Hwf Hk. destruct (shape_hw3_size img h w Hs) as [Hm Hd].
  assert (Hk' : 1 <= k <= Z.of_nat (size img / 3)) by (by rewrite Hd).
  destruct (compress_image_kmeans_pure img k) as [r Hpure].
  destruct (compress_image_kmeans_valid img k (mk_world ∅ ∅ (RandomState_seed 0))
              Hwf Hm Hk')
    as (f & _ & Hrun & Hlen & Hw3 & Hlab & Hlt).
  rewrite Hpure in Hrun. injection Hrun as ->.
  rewrite <- Hlen in Hlt. rewrite Hd in Hlab.
  pose proof (quantized_rows_width f 3 Hw3 Hlt) as Hqw.
  eexists. split; [exact Hpure|]. cbn [shape data].
  split; [exact Hs|]. split.
  - unfold wf_ndarray. cbn [data]. rewrite (concat_width_length _ 3 Hqw).
    unfold quantized_rows. rewrite length_map, Hlab.
    unfold size. cbn [shape]. rewrite Hs. cbn. lia.
  - apply Forall_concat. unfold quantized_rows.
    apply Forall_map, Forall_forall. intros l _. cbn.
    apply Forall_map, Forall_forall. intros q _. apply to_uint8_range.
Qed.

Lemma calculate_compression_ratio_ok (a b : ndarray Z) :
  (size a mod 3 = 0)%nat -> (size b mod 3 = 0)%nat ->
  exists q, calculate_compression_ratio a b = Ok q.
Proof.
  intros Ha Hb. unfold calculate_compression_ratio, reshape_m1_3, py_truediv.
  rewrite (proj2 (Nat.eqb_eq _ _) Ha), (proj2 (Nat.eqb_eq _ _) Hb). cbn.
  destruct (Z.gtb_spec (Z.of_nat (count_unique_rows (rows3 (data b)))) 0);
    [|by eexists].
  rewrite (proj2 (Z.eqb_neq _ _)) by lia. by eexists.
Qed.

Lemma dir_ready_after_save (d : string) (L : list Z) (σ : world)
    (p : string) (bytes : list Byte.byte) :
  is_empty d = false -> p ∉ ancestors d ->
  dir_ready d L σ ->
  dir_ready d L (mk_world (<[p := bytes]> (files σ))
                          (dirs σ ∪ list_to_set (ancestors (joined_dirname d)))
                          (np_random σ)).
Proof.
  intros Hd Hp [Hfree Hnodir]. split.
  - apply Forall_forall. intros x Hx.
    pose proof (proj1 (Forall_forall _ _) Hfree x Hx) as Hfx.
    unfold is_file in *. cbn [files].
    apply bool_decide_eq_false. apply bool_decide_eq_false in Hfx.
    rewrite dom_insert_L, elem_of_union, elem_of_singleton.
    intros [->|Hin]; [by apply Hp | by apply Hfx].
  - eapply Forall_impl; [exact Hnodir|]. intros k Hk. cbn in Hk.
    unfold is_dir in *. cbn [dirs].
    apply bool_decide_eq_false. apply bool_decide_eq_false in Hk.
    rewrite elem_of_union, elem_of_list_to_set.
    intros [Hin|Hin]; [by apply Hk|].
    by apply (proj2 (level_path_outside d k Hd)).
Qed.

(** The loop of [compress_with_multiple_levels]: one entry per level, in
    the order of the levels, appended to the entries already there; every
    level's file is in place at the end and no other file is touched. *)
Lemma levels_loop_ok (img : ndarray Z) (h w : nat) (d : string) (L : list Z) :
  shape img = [h; w; 3%nat] -> wf_ndarray img -> is_empty d = false ->
  codec_ready d L h w ->
  forall (levels : list Z) (acc : list CompressionResult) (σ : world),
    Forall (fun k => k ∈ L /\ 1 <= k <= Z.of_nat (h * w)) levels ->
    NoDup (map (level_path d) levels) ->
    dir_ready d L σ ->
    exists rs σ',
      levels_loop img d levels acc σ = (Ok (acc ++ rs), σ') /\
      Forall2 (result_for img d) levels rs /\
      dir_ready d L σ' /\
      (forall p, p ∉ map (level_path d) levels ->
                 files σ' !! p = files σ !! p) /\
      Forall (fun r => exists bytes,
                image_encode (path r) (image r) = Ok bytes /\
                files σ' !! path r = Some bytes /\
                file_size r = Z.of_nat (length bytes)) rs.
Proof.
  intros Hs Hwf Hd Hcodec levels.
  induction levels as [|k levels IH]; intros acc σ Hlv Hnd Hready.
  { exists [], σ. rewrite app_nil_r.
    split; [reflexivity|]. split; [constructor|]. split; [exact Hready|].
    split; [reflexivity|constructor]. }
  apply Forall_cons in Hlv as [[HkL Hk] Hlv'].
  cbn [map] in Hnd. apply NoDup_cons in Hnd as [Hfresh Hnd'].
  destruct (compress_image_kmeans_rgb img h w k Hs Hwf Hk)
    as (out & Hrun & Hso & Hwfo & Hrange).
  destruct (Hcodec k out HkL Hso Hwfo Hrange) as [bytes Henc].
  destruct (level_path_dir d k Hd) as (Hdir & Hbase & _).
  destruct (level_path_outside d k Hd) as [Hout Hout'].
  destruct (calculate_compression_ratio_ok img out) as [q Hq].
  { apply (shape_hw3_size img h w Hs). }
  { apply (shape_hw3_size out h w Hso). }
  pose proof Hready as [Hfree Hnodir].
  assert (Hsave : save_image out (level_path d k) σ =
            (Ok (Z.of_nat (length bytes)),
             mk_world (<[level_path d k := bytes]> (files σ))
                      (dirs σ ∪ list_to_set (ancestors (joined_dirname d)))
                      (np_random σ))).
  { pose proof (save_image_ok out (level_path d k) bytes σ Henc) as Hsv.
    rewrite Hdir in Hsv. apply Hsv.
    - by apply joined_dirname_not_empty.
    - exact Hbase.
    - apply Forall_forall. intros x Hx.
      apply (proj1 (Forall_forall _ _) Hfree).
      by apply ancestors_joined_dirname.
    - by eapply (proj1 (Forall_forall _ _)) in Hnodir.
    - exact Hout'. }
  set (σ1 := mk_world _ _ _) in Hsave.
  set (r := mk_CompressionResult k (level_path d k) out q (Z.of_nat (length bytes))).
  destruct (IH (acc ++ [r]) σ1 Hlv' Hnd')
    as (rs & σ' & Hloop & Hres & Hready' & Hframe & Hfiles).
  { by apply dir_ready_after_save. }
  exists (r :: rs), σ'. split; [|split; [|split; [|split]]].
  - cbn [levels_loop].
    rewrite (bind_ok _ _ _ _ _ (Hrun σ)).
    fold (level_path d k).
    rewrite (bind_ok _ _ _ _ _ Hsave).
    unfold lift at 1. unfold bind at 1. rewrite Hq.
    fold r. rewrite Hloop. by rewrite <- app_assoc.
  - constructor; [|exact Hres].
    unfold result_for. cbn. repeat split; try done. by exists bytes.
  - exact Hready'.
  - intros p Hp. cbn in Hp. apply not_elem_of_cons in Hp as [Hne Hp].
    rewrite (Hframe p Hp). unfold σ1. cbn [files].
    by rewrite lookup_insert_ne.
  - constructor; [|exact Hfiles].
    exists bytes. cbn. split; [done|]. split; [|done].
    rewrite (Hframe _ Hfresh). unfold σ1. cbn [files].
    by rewrite lookup_insert_eq.
Qed.

End MultiLevel.

(** ** The full analysis *)

Lemma analysis_filenames_NoDup : NoDup (map level_filename analysis_levels).
Proof. apply (bool_decide_unpack _). by vm_compute. Qed.

Section FullAnalysis.

Context {E : KMeansEngine} {C : ImageCodec} `{!KMeansLawful E}.

Variable report : string -> list CompressionResult -> string -> py unit.

(** C7: [main] with the analysis flag, on an input file that decodes to a
    well-formed H x W x 3 array of at least 128 pixels, with any output
    directory name that is not empty, where nothing on the way to that
    directory or to the comparison directory is a regular file, no directory
    bears the name of one of the six output files, and the codec encodes
    them, creates the two directories and runs
    [compress_with_multiple_levels] on exactly the levels 4, 8, 16, 32, 64,
    128.  That run returns one entry per level, in that order; the entry of
    level k holds k, the path written, the image [compress_image_kmeans]
    gives for k, the ratio of that image and the size in bytes of the file
    written, which is in place at the end; the entries are then handed to
    the reporting collaborator. *)
Theorem analysis_runs_fixed_levels (args : Args) (σ : world)
    (bytes : list Byte.byte) (img : ndarray Z) (h w : nat) :
  analysis args = true ->
  files σ !! input args = Some bytes -> image_decode bytes = Some img ->
  shape img = [h; w; 3%nat] -> wf_ndarray img -> (128 <= h * w)%nat ->
  is_empty (output args) = false ->
  dir_ready (output args) analysis_levels σ ->
  Forall (fun x => is_file σ x = false) (ancestors default_comparison_dir) ->
  codec_ready (output args) analysis_levels h w ->
  exists results σ',
    compress_with_multiple_levels (input args) (output args)
        [4; 8; 16; 32; 64; 128]
        (mk_world (files σ)
           (dirs σ ∪ list_to_set (ancestors (output args))
                   ∪ list_to_set (ancestors default_comparison_dir))
           (np_random σ))
      = (Ok (Some results), σ') /\
    main report args σ =
      report (input args) results default_comparison_dir σ' /\
    map n_colors results = [4; 8; 16; 32; 64; 128] /\
    Forall2 (result_for img (output args)) [4; 8; 16; 32; 64; 128] results /\
    Forall (fun r => exists file,
              image_encode (path r) (image r) = Ok file /\
              files σ' !! path r = Some file /\
              file_size r = Z.of_nat (length file)) results.
Proof.
  intros Han Hf Hdec Hs Hwf Hpix Hd [Hfree Hnodir] Hcmp Hcodec.
  set (d := output args) in *.
  set (σ1 := mk_world (files σ) (dirs σ ∪ list_to_set (ancestors d)) (np_random σ)).
  set (σ0 := mk_world (files σ)
               (dirs σ ∪ list_to_set (ancestors d)
                       ∪ list_to_set (ancestors default_comparison_dir))
               (np_random σ)).
  assert (Hmk1 : os_makedirs d σ = (Ok tt, σ1)).
  { by apply os_makedirs_ok. }
  assert (Hmk2 : os_makedirs default_comparison_dir σ1 = (Ok tt, σ0)).
  { by apply (os_makedirs_ok default_comparison_dir σ1). }
  assert (Hready0 : dir_ready d analysis_levels σ0).
  { split; [exact Hfree|]. apply Forall_forall. intros k Hk.
    pose proof (proj1 (Forall_forall _ _) Hnodir k Hk) as Hnk. cbn in Hnk.
    unfold is_dir in *. apply bool_decide_eq_false.
    apply bool_decide_eq_false in Hnk. unfold σ0. cbn [dirs].
    rewrite !elem_of_union, !elem_of_list_to_set.
    intros [[Hin|Hin]|Hin];
      [done | by apply (proj1 (level_path_outside d k Hd))|].
    apply ancestors_length in Hin.
    destruct (level_path_dir d k Hd) as (_ & _ & Hl).
    change (String.length default_comparison_dir) with 21%nat in Hin. lia. }
  assert (Hload : load_image (input args) σ0 = (Ok (Some img), σ0)).
  { apply (load_image_ok _ bytes); [done | done | rewrite Hs; cbn; lia]. }
  destruct (levels_loop_ok img h w d analysis_levels Hs Hwf Hd Hcodec
              analysis_levels [] σ0)
    as (rs & σ' & Hloop & Hres & _ & _ & Hfiles).
  { apply Forall_forall. intros k Hk. split; [done|].
    unfold analysis_levels in Hk.
    repeat (apply elem_of_cons in Hk as [->|Hk]; [lia|]).
    by apply elem_of_nil in Hk. }
  { apply level_paths_NoDup_dir; [done | apply analysis_filenames_NoDup]. }
  { exact Hready0. }
  cbn [app] in Hloop.
  assert (Hdriver : compress_with_multiple_levels (input args) d
                      analysis_levels σ0 = (Ok (Some rs), σ')).
  { unfold compress_with_multiple_levels.
    rewrite (bind_ok _ _ _ _ _ Hload).
    by rewrite (bind_ok _ _ _ _ _ Hloop). }
  exists rs, σ'. split; [exact Hdriver|].
  assert (Hn : map n_colors rs = analysis_levels).
  { clear -Hres. induction Hres as [|k r ks rs' Hr _ IH]; [done|].
    cbn. destruct Hr as [-> _]. by rewrite IH. }
  split; [|split; [exact Hn|split; [exact Hres|exact Hfiles]]].
  unfold main.
  assert (Hex : os_path_exists (input args) σ = (Ok true, σ)).
  { unfold os_path_exists, is_file.
    rewrite bool_decide_eq_true_2; [done|]. apply elem_of_dom. by eexists. }
  rewrite (bind_ok _ _ _ _ _ Hex). cbn [negb]. rewrite Han.
  unfold compress_with_analysis.
  rewrite (bind_ok _ _ _ _ _ Hmk1), (bind_ok _ _ _ _ _ Hmk2).
  fold d. rewrite (bind_ok _ _ _ _ _ Hdriver).
  destruct rs as [|r rs']; [by inversion Hres | done].
Qed.

End FullAnalysis.

Lemma raw_codec_ready (d : string) (levels : list Z) (h w : nat) :
  @codec_ready raw_codec d levels h w.
Proof.
  intros k a _ Hs _ _. eexists. cbn. unfold raw_encode. by rewrite Hs.
Qed.

Lemma analysis_runs_fixed_levels_witness :
  exists results σ',
    compress_with_multiple_levels "photo.png" "../images/output"
        [4; 8; 16; 32; 64; 128]
        (mk_world (files large_world)
           (dirs large_world ∪ list_to_set (ancestors "../images/output")
                   ∪ list_to_set (ancestors default_comparison_dir))
           (np_random large_world))
      = (Ok (Some results), σ') /\
    main silent_report analysis_args large_world =
      silent_report "photo.png" results default_comparison_dir σ' /\
    map n_colors results = [4; 8; 16; 32; 64; 128] /\
    Forall2 (result_for large_image "../images/output")
            [4; 8; 16; 32; 64; 128] results /\
    Forall (fun r => exists file,
              image_encode (path r) (image r) = Ok file /\
              files σ' !! path r = Some file /\
              file_size r = Z.of_nat (length file)) results.
Proof.
  apply (analysis_runs_fixed_levels silent_report analysis_args large_world
           large_file large_image 8 16).
  - reflexivity.
  - by vm_compute.
  - by vm_compute.
  - reflexivity.
  - by vm_compute.
  - cbn. lia.
  - reflexivity.
  - split; apply (bool_decide_unpack _); by vm_compute.
  - apply (bool_decide_unpack _). by vm_compute.
  - apply raw_codec_ready.
Defined.

(** On an image of five pixels the same command stops at level 8: the file
    of level 4 is written, the clustering call for 8 clusters is refused and
    no list of entries is returned. *)
Lemma analysis_small_image_raises :
  fst (main silent_report analysis_args sample_world) = Err ValueError /\
  fst (compress_with_multiple_levels "photo.png" "../images/output"
         [4; 8; 16; 32; 64; 128] sample_world) = Err ValueError /\
  is_file (snd (main silent_report analysis_args sample_world))
          "../images/output/compressed_4_colors.png" = true /\
  is_file (snd (main silent_report analysis_args sample_world))
          "../images/output/compressed_8_colors.png" = false /\
  ~ exists results σ',
      compress_with_multiple_levels "photo.png" "../images/output"
        [4; 8; 16; 32; 64; 128]
        (mk_world (files sample_world)
           (dirs sample_world ∪ list_to_set (ancestors "../images/output")
                   ∪ list_to_set (ancestors default_comparison_dir))
           (np_random sample_world))
      = (Ok (Some results), σ').
Proof.
  split; [by vm_compute|]. split; [by vm_compute|].
  split; [by vm_compute|]. split; [by vm_compute|].
  intros (results & σ' & H).
  apply (f_equal fst) in H. vm_compute in H. discriminate.
Qed.

(** ** The program on the sample inputs, with the reference engine *)

Example checkerboard_two_colours :
  fst (compress_image_kmeans sample_checker 2 empty_world) = Ok sample_checker.
Proof. by vm_compute. Qed.

Example checkerboard_one_colour :
  fst (compress_image_kmeans sample_checker 1 empty_world)
  = Ok (mk_ndarray [2; 2; 3]%nat (replicate 12 127)).
Proof. by vm_compute. Qed.

Example sample_three_colours :
  fst (compress_image_kmeans sample_image 3 empty_world)
  = Ok (mk_ndarray [1; 5; 3]%nat
          [11; 21; 29;  11; 21; 29;  202; 95; 55;  202; 95; 55;  0; 0; 0]).
Proof. by vm_compute. Qed.

Example sample_too_many_colours :
  fst (compress_image_kmeans sample_image 6 empty_world) = Err ValueError.
Proof. by vm_compute. Qed.

Example sample_gray_refused :
  fst (compress_image_kmeans sample_gray 2 empty_world) = Err ValueError.
Proof. by vm_compute. Qed.

Example sample_file_written :
  fst (compress_image_file "photo.png" "out/photo_2.png" 2 sample_world)
    = Ok (Some (mk_ndarray [1; 5; 3]%nat
                  [7; 14; 19;  7; 14; 19;  202; 95; 55;  202; 95; 55;
                   7; 14; 19])) /\
  is_file (snd (compress_image_file "photo.png" "out/photo_2.png" 2
                  sample_world)) "out/photo_2.png" = true /\
  is_dir (snd (compress_image_file "photo.png" "out/photo_2.png" 2
                 sample_world)) "out" = true.
Proof. repeat split; vm_compute; reflexivity. Qed.

(** The call printed by the module's own usage text, with two colours. *)
Example usage_call_fails :
  fst (compress_image_file "photo.png" "output.jpg" 2 sample_world)
    = Err FileNotFoundError /\
  files (snd (compress_image_file "photo.png" "output.jpg" 2 sample_world))
    = files sample_world.
Proof. split; vm_compute; reflexivity. Qed.

Example ratio_sample :
  calculate_compression_ratio sample_image sample_checker = Ok (5 # 2)%Q.
Proof. by vm_compute. Qed.

(** * Further properties of the program *)

(** ** Loading and saving *)

Section LoadSave.

Context {E : KMeansEngine} {C : ImageCodec}.

Lemma load_image_cases (p : string) (σ : world) :
  (exists bytes img,
     files σ !! p = Some bytes /\ image_decode bytes = Some img /\
     (2 <= length (shape img))%nat /\
     load_image p σ = (Ok (Some img), σ)) \/
  ((forall bytes img,
      files σ !! p = Some bytes -> image_decode bytes = Some img ->
      (length (shape img) < 2)%nat) /\
   load_image p σ = (Ok None, σ)).
Proof.
  unfold load_image, try_except, bind, Image_open_array, lift, ret,
    print_dimensions.
  destruct (files σ !! p) as [bytes|] eqn:Hf; [|by right].
  destruct (image_decode bytes) as [img|] eqn:Hd.
  - destruct (Nat.ltb_spec (length (shape img)) 2) as [Hlt|Hge].
    + right. split; [|done]. intros b i [= <-] Hi.
      rewrite Hd in Hi. by injection Hi as <-.
    + left. by exists bytes, img.
  - right. split; [|done]. intros b i [= <-] Hi. by rewrite Hd in Hi.
Qed.

(** [load_image] never raises and never changes the world: it returns the
    decoded array when the file is there, decodes and has at least two
    dimensions, and [None] in every other case. *)
Theorem load_image_never_raises (p : string) (σ : world) :
  exists r,
    load_image p σ = (Ok r, σ) /\
    forall img,
      r = Some img <->
      exists bytes,
        files σ !! p = Some bytes /\ image_decode bytes = Some img /\
        (2 <= length (shape img))%nat.
Proof.
  destruct (load_image_cases p σ)
    as [(bytes & img & Hf & Hd & Hs & Hl)|[Hno Hl]].
  - exists (Some img). split; [exact Hl|]. intros img'. split.
    + intros [= <-]. by exists bytes.
    + intros (b & Hb & Hd' & _). rewrite Hf in Hb. injection Hb as <-.
      rewrite Hd in Hd'. by injection Hd' as <-.
  - exists None. split; [exact Hl|]. intros img. split; [done|].
    intros (b & Hb & Hd & Hs). specialize (Hno b img Hb Hd). lia.
Qed.

Lemma save_image_cases (img : ndarray Z) (p : string) (σ : world) :
  (exists bytes,
     image_encode p img = Ok bytes /\
     is_empty (os_path_dirname p) = false /\
     save_image img p σ =
       (Ok (Z.of_nat (length bytes)),
        mk_world (<[p := bytes]> (files σ))
                 (dirs σ ∪ list_to_set (ancestors (os_path_dirname p)))
                 (np_random σ))) \/
  (exists e σ', save_image img p σ = (Err e, σ') /\ failed_save img p σ σ').
Proof.
  unfold save_image, bind, os_makedirs.
  destruct (is_empty (os_path_dirname p)) eqn:Hd;
    [right; eexists _, _; split; [done | by left]|].
  destruct (is_file σ (os_path_dirname p));
    [right; eexists _, _; split; [done | by left]|].
  destruct (existsb _ _); [right; eexists _, _; split; [done | by left]|].
  unfold Image_save.
  destruct (image_encode p img) as [bytes|e] eqn:Henc.
  - destruct (_ || _); [right; eexists _, _; split; [done | by left]|].
    destruct (negb _); [right; eexists _, _; split; [done | by left]|].
    left. exists bytes. split; [done|]. split; [done|].
    unfold os_path_getsize, ret. cbn [files]. by rewrite lookup_insert_eq.
  - right.
    destruct (image_fails_early p img) eqn:Hearly;
      [eexists _, _; split; [done | by left]|].
    destruct (_ || _); [eexists _, _; split; [done | by left]|].
    destruct (negb _); [eexists _, _; split; [done | by left]|].
    match goal with |- context [is_file ?s p] => change (is_file s p) with (is_file σ p) end.
    destruct (is_file σ p) eqn:Hf; eexists _, _; (split; [done|]);
      [right | by left].
    split; [exact Hf|]. split; [done|]. split; [exact Hearly|]. by exists e.
Qed.

(** [save_image] either writes exactly the encoded image at the given path
    (replacing what was there), returns the length of that file, and leaves
    the path's directory in place, which it does only for a path with a
    directory part; or it raises.  When it raises no file is created and no
    file other than the output file is changed; the output file itself is as
    before, unless it existed and the format's writer failed once the file
    was open: then it is left empty. *)
Theorem save_image_effect (img : ndarray Z) (p : string) (σ : world) :
  match save_image img p σ with
  | (Ok n, σ') =>
      exists bytes,
        image_encode p img = Ok bytes /\
        n = Z.of_nat (length bytes) /\
        files σ' = <[p := bytes]> (files σ) /\
        os_path_getsize p σ' = (Ok n, σ') /\
        is_empty (os_path_dirname p) = false /\
        is_dir σ' (os_path_dirname p) = true
  | (Err e, σ') =>
      files σ' = files σ \/
      (is_file σ p = true /\ files σ' = <[p := []]> (files σ) /\
       image_fails_early p img = false /\
       exists e', image_encode p img = Err e')
  end.
Proof.
  destruct (save_image_cases img p σ)
    as [(bytes & Henc & Hd & ->)|(e & σ' & -> & Hf)]; [|exact Hf].
  exists bytes. repeat split; try done.
  - unfold os_path_getsize. cbn [files]. by rewrite lookup_insert_eq.
  - unfold is_dir. apply bool_decide_eq_true. cbn [dirs].
    apply elem_of_union. right. apply elem_of_list_to_set.
    by apply ancestors_self.
Qed.

(** For a path with a directory part and a file name, in a world where
    nothing on the way to the directory is a regular file and the path is
    not a directory, [save_image] succeeds as soon as the codec encodes the
    array: every directory on the way is created, the file is written and
    its length returned. *)
Theorem save_image_creates_parents (img : ndarray Z) (p : string)
    (bytes : list Byte.byte) (σ : world) :
  image_encode p img = Ok bytes ->
  is_empty (os_path_dirname p) = false ->
  is_empty (os_path_basename p) = false ->
  Forall (fun x => is_file σ x = false) (ancestors (os_path_dirname p)) ->
  is_dir σ p = false ->
  p ∉ ancestors (os_path_dirname p) ->
  exists σ',
    save_image img p σ = (Ok (Z.of_nat (length bytes)), σ') /\
    files σ' = <[p := bytes]> (files σ) /\
    Forall (fun x => is_dir σ' x = true) (ancestors (os_path_dirname p)) /\
    (forall x, is_dir σ x = true -> is_dir σ' x = true).
Proof.
  intros Henc Hd Hb Hfree Hnd Hna. eexists.
  split; [by apply save_image_ok|]. split; [done|]. split.
  - apply Forall_forall. intros x Hx. unfold is_dir.
    apply bool_decide_eq_true. cbn [dirs].
    apply elem_of_union. right. by apply elem_of_list_to_set.
  - intros x Hx. unfold is_dir in *. apply bool_decide_eq_true.
    apply bool_decide_eq_true in Hx. cbn [dirs]. apply elem_of_union. by left.
Qed.

(** Saving and loading compose: when the codec decodes what it encoded, the
    array saved at a path is the array [load_image] returns for that path
    afterwards. *)
Theorem save_then_load (img : ndarray Z) (p : string)
    (bytes : list Byte.byte) (n : Z) (σ σ' : world) :
  save_image img p σ = (Ok n, σ') ->
  image_encode p img = Ok bytes -> image_decode bytes = Some img ->
  (2 <= length (shape img))%nat ->
  load_image p σ' = (Ok (Some img), σ').
Proof.
  intros Hsave Henc Hdec Hs.
  destruct (save_image_cases img p σ)
    as [(bytes' & Henc' & _ & Hsave')|(e & σ'' & Hsave' & _)];
    rewrite Hsave' in Hsave; [|done].
  injection Hsave as _ <-. rewrite Henc in Henc'. injection Henc' as <-.
  apply (load_image_ok p bytes); [|done|done].
  cbn [files]. by rewrite lookup_insert_eq.
Qed.

End LoadSave.

(** ** The single-image pipeline *)

Section SingleImage.

Context {E : KMeansEngine} {C : ImageCodec}.

(** Whatever the arguments, [compress_image_file] ends in one of three
    ways: it returns the compressed image and has written exactly its
    encoding at the output path; or it returns [None] because the input
    could not be loaded, and the world is untouched; or it raises, and then
    no file is created and no file other than the output file is changed:
    the output file is as before, or, if it existed and the format's writer
    failed on the compressed image once the file was open, left empty. *)
Theorem compress_image_file_effect (input_path output_path : string) (k : Z)
    (σ : world) :
  match compress_image_file input_path output_path k σ with
  | (Ok (Some out), σ') =>
      exists img bytes,
        load_image input_path σ = (Ok (Some img), σ) /\
        compress_image_kmeans img k σ = (Ok out, σ) /\
        image_encode output_path out = Ok bytes /\
        files σ' = <[output_path := bytes]> (files σ)
  | (Ok None, σ') => σ' = σ /\ load_image input_path σ = (Ok None, σ)
  | (Err e, σ') =>
      files σ' = files σ \/
      (is_file σ output_path = true /\
       files σ' = <[output_path := []]> (files σ) /\
       exists img out e',
         load_image input_path σ = (Ok (Some img), σ) /\
         compress_image_kmeans img k σ = (Ok out, σ) /\
         image_fails_early output_path out = false /\
         image_encode output_path out = Err e')
  end.
Proof.
  unfold compress_image_file.
  destruct (load_image_cases input_path σ)
    as [(bytes & img & _ & _ & _ & Hl)|[_ Hl]];
    rewrite (bind_ok _ _ _ _ _ Hl); [|done].
  destruct (compress_image_kmeans_pure img k) as [r Hr].
  destruct r as [out|e]; [|rewrite (bind_err _ _ _ _ _ (Hr σ)); by left].
  rewrite (bind_ok _ _ _ _ _ (Hr σ)).
  unfold lift at 1. unfold bind at 1.
  destruct (calculate_compression_ratio img out) as [q|e]; [|by left].
  destruct (save_image_cases out output_path σ)
    as [(file & Henc & _ & Hs)|(e & σ' & Hs & Hf)].
  - rewrite (bind_ok _ _ _ _ _ Hs). exists img, file. by rewrite Hr.
  - rewrite (bind_err _ _ _ _ _ Hs).
    destruct Hf as [Hf|(Hfile & Hf & Hearly & e' & Henc)]; [by left|].
    right. do 2 (split; [done|]). exists img, out, e'. by rewrite Hr.
Qed.

End SingleImage.

Section SingleImageValid.

Context {E : KMeansEngine} {C : ImageCodec} `{!KMeansLawful E}.

Lemma compress_image_file_success (input_path output_path : string)
    (bytes : list Byte.byte) (img : ndarray Z) (h w : nat) (k : Z)
    (σ : world) :
  files σ !! input_path = Some bytes -> image_decode bytes = Some img ->
  shape img = [h; w; 3%nat] -> wf_ndarray img ->
  1 <= k <= Z.of_nat (h * w) ->
  codec_encodes output_path h w -> path_ready σ output_path ->
  exists out file,
    (forall σ0 : world, compress_image_kmeans img k σ0 = (Ok out, σ0)) /\
    image_encode output_path out = Ok file /\
    compress_image_file input_path output_path k σ =
      (Ok (Some out),
       mk_world (<[output_path := file]> (files σ))
                (dirs σ ∪ list_to_set (ancestors (os_path_dirname output_path)))
                (np_random σ)).
Proof.
  intros Hf Hdec Hs Hwf Hk Hcodec (Hd & Hb & Hfree & Hnd & Hna).
  destruct (compress_image_kmeans_rgb img h w k Hs Hwf Hk)
    as (out & Hrun & Hso & Hwfo & Hrange).
  destruct (Hcodec out Hso Hwfo Hrange) as [file Henc].
  destruct (calculate_compression_ratio_ok img out) as [q Hq].
  { apply (shape_hw3_size img h w Hs). }
  { apply (shape_hw3_size out h w Hso). }
  exists out, file. split; [exact Hrun|]. split; [exact Henc|].
  assert (Hdim : (2 <= length (shape img))%nat) by (rewrite Hs; cbn; lia).
  unfold compress_image_file.
  rewrite (bind_ok _ _ _ _ _ (load_image_ok input_path bytes img σ Hf Hdec Hdim)).
  rewrite (bind_ok _ _ _ _ _ (Hrun σ)).
  unfold lift at 1. unfold bind at 1. rewrite Hq.
  by rewrite (bind_ok _ _ _ _ _
                (save_image_ok out output_path file σ Henc Hd Hb Hfree Hnd Hna)).
Qed.

(** With a lawful engine, an input file that decodes to a well-formed
    H x W x 3 array, a valid [k], a codec that encodes for the output path
    and an output path that can receive a file, [compress_image_file]
    returns the image [compress_image_kmeans] gives for [k], having created
    the output directory and written that image's encoding at the output
    path, and nothing else. *)
Theorem compress_image_file_writes_output (input_path output_path : string)
    (bytes : list Byte.byte) (img : ndarray Z) (h w : nat) (k : Z)
    (σ : world) :
  files σ !! input_path = Some bytes -> image_decode bytes = Some img ->
  shape img = [h; w; 3%nat] -> wf_ndarray img ->
  1 <= k <= Z.of_nat (h * w) ->
  codec_encodes output_path h w -> path_ready σ output_path ->
  exists out file σ',
    compress_image_file input_path output_path k σ = (Ok (Some out), σ') /\
    fst (compress_image_kmeans img k σ) = Ok out /\
    image_encode output_path out = Ok file /\
    files σ' = <[output_path := file]> (files σ) /\
    is_dir σ' (os_path_dirname output_path) = true.
Proof.
  intros Hf Hdec Hs Hwf Hk Hcodec Hready.
  destruct (compress_image_file_success input_path output_path bytes img h w
              k σ Hf Hdec Hs Hwf Hk Hcodec Hready)
    as (out & file & Hrun & Henc & Hrunf).
  exists out, file. eexists. split; [exact Hrunf|].
  split; [by rewrite Hrun|]. split; [exact Henc|]. split; [done|].
  unfold is_dir. apply bool_decide_eq_true. cbn [dirs].
  apply elem_of_union. right. apply elem_of_list_to_set.
  apply ancestors_self. by destruct Hready.
Qed.

End SingleImageValid.

(** ** File names *)

Section FileNames.

Local Open Scope string_scope.

Lemma str_of_Z_inj (a b : Z) : str_of_Z a = str_of_Z b -> a = b.
Proof.
  unfold str_of_Z. intros H. apply DecimalZ.to_int_inj.
  assert (Hparse : forall n,
            NilZero.int_of_string (NilZero.string_of_int (Z.to_int n))
            = Some (Z.to_int n)).
  { intros n. apply NilZero.isi; destruct n; cbn; try discriminate;
      intros [= Hnil]; by apply DecimalPos.Unsigned.to_uint_nonnil in Hnil. }
  pose proof (Hparse a) as Ha. rewrite H, Hparse in Ha. by injection Ha.
Qed.

Lemma string_app_length_nil (s t : string) : s ++ t = t -> s = "".
Proof.
  intros H. apply (f_equal String.length) in H.
  rewrite length_app_string in H. destruct s; [done|]. cbn in H. lia.
Qed.

Lemma string_app_inv_tail (s1 s2 t : string) : s1 ++ t = s2 ++ t -> s1 = s2.
Proof.
  revert s2. induction s1 as [|c s1 IH]; intros s2 H.
  - symmetry. symmetry in H. by apply string_app_length_nil in H.
  - destruct s2 as [|c2 s2].
    + by apply (string_app_length_nil (String c s1)) in H.
    + change (String c (s1 ++ t) = String c2 (s2 ++ t)) in H.
      injection H as -> H. f_equal. by apply IH.
Qed.

Lemma level_filename_inj (a b : Z) : level_filename a = level_filename b -> a = b.
Proof.
  unfold level_filename. intros H.
  apply string_app_inv_head, string_app_inv_tail in H. by apply str_of_Z_inj.
Qed.

Lemma level_paths_NoDup_levels (d : string) (levels : list Z) :
  clean_dir d = true -> NoDup levels -> NoDup (map (level_path d) levels).
Proof.
  intros Hd Hnd. apply level_paths_NoDup; [done|].
  assert (Hinj : Inj (=) (=) level_filename)
    by (intros a b; apply level_filename_inj).
  by apply (NoDup_fmap_2 _).
Qed.

Lemma rsplit_at_app_eq (ch : ascii) (p : string) :
  fst (rsplit_at ch p) ++ snd (rsplit_at ch p) = p.
Proof.
  induction p as [|c p IH]; [done|]. simpl.
  destruct (rsplit_at ch p) as [h t]. cbn [fst snd] in IH.
  destruct h as [|c' h].
  - cbn in IH. subst. by destruct (Ascii.eqb c ch).
  - cbn [fst snd]. by rewrite <- IH.
Qed.

Lemma no_sep_tail (p : string) : no_sep (snd (rsplit_at sep p)) = true.
Proof.
  induction p as [|c p IH]; [done|]. simpl.
  destruct (rsplit_at sep p) as [h t]. cbn [snd] in IH.
  destruct h as [|c' h]; [|done].
  destruct (Ascii.eqb c sep) eqn:Hc; [done|]. simpl. by rewrite Hc.
Qed.

Lemma no_sep_basename (p : string) : no_sep (os_path_basename p) = true.
Proof. apply no_sep_tail. Qed.

Lemma no_sep_app_l (s t : string) : no_sep (s ++ t) = true -> no_sep s = true.
Proof.
  induction s as [|c s IH]; [done|]. simpl.
  intros [Hc Hs]%andb_true_iff. by rewrite Hc, IH.
Qed.

Lemma no_sep_drop_last (s : string) : no_sep s = true -> no_sep (drop_last s) = true.
Proof.
  induction s as [|c s IH]; [done|]. intros H.
  change (negb (Ascii.eqb c sep) && no_sep s = true) in H.
  apply andb_true_iff in H as [Hc Hs]. destruct s as [|c' s]; [done|].
  change (negb (Ascii.eqb c sep) && no_sep (drop_last (String c' s)) = true).
  by rewrite Hc, IH.
Qed.

Lemma no_sep_splitext_root (p : string) :
  no_sep p = true -> no_sep (os_path_splitext_root p) = true.
Proof.
  intros Hp. unfold os_path_splitext_root.
  rewrite (rsplit_at_no_sep p Hp).
  pose proof (rsplit_at_app_eq "."%char p) as Heq.
  destruct (rsplit_at "."%char p) as [th tt]. cbn [fst snd] in Heq.
  destruct (_ || _); [done|]. cbn.
  apply no_sep_drop_last. rewrite <- Heq in Hp. by apply no_sep_app_l in Hp.
Qed.

Lemma no_sep_single_filename (input_path : string) (k : Z) :
  no_sep (single_filename input_path k) = true.
Proof.
  unfold single_filename.
  apply no_sep_app; [apply no_sep_splitext_root, no_sep_basename|].
  apply (no_sep_app "_compressed_"); [done|].
  apply no_sep_app; [apply no_sep_str_of_Z | done].
Qed.

(** Where [compress_single_image] writes, for a clean output directory. *)
Lemma single_path_clean (d input_path : string) (k : Z) :
  clean_dir d = true ->
  os_path_join d (single_filename input_path k)
    = d ++ String sep (single_filename input_path k) /\
  os_path_dirname (d ++ String sep (single_filename input_path k)) = d /\
  is_empty (os_path_basename (d ++ String sep (single_filename input_path k)))
    = false /\
  d ++ String sep (single_filename input_path k) ∉ ancestors d.
Proof.
  intros Hd.
  destruct (join_clean d _ Hd (no_sep_single_filename input_path k))
    as (Hj & Hdir & Hbase).
  split; [done|]. split; [done|]. split.
  - rewrite Hbase. unfold single_filename.
    by destruct (os_path_splitext_root (os_path_basename input_path)).
  - intros Hin. apply ancestors_length in Hin.
    rewrite length_app_string in Hin. cbn [String.length] in Hin. lia.
Qed.

End FileNames.

(** ** The multi-level driver on any list of levels *)

Section DriverAnyEngine.

Context {E : KMeansEngine} {C : ImageCodec}.

(** The loop over a concatenation is the loop over the first part followed
    by the loop over the second, started from the entries of the first. *)
Lemma levels_loop_app (img : ndarray Z) (d : string) (pre rest : list Z)
    (acc : list CompressionResult) (σ : world) :
  levels_loop img d (pre ++ rest) acc σ =
    bind (levels_loop img d pre acc)
         (fun acc' => levels_loop img d rest acc') σ.
Proof.
  revert acc σ. induction pre as [|k pre IH]; intros acc σ.
  { reflexivity. }
  cbn [app levels_loop]. unfold bind, lift.
  destruct (compress_image_kmeans img k σ) as [[out|e] σ1]; [|reflexivity].
  destruct (save_image out _ σ1) as [[n|e] σ2]; [|reflexivity].
  destruct (calculate_compression_ratio img out) as [q|e]; [|reflexivity].
  apply IH.
Qed.

Lemma load_image_same_files (p : string) (σ σ0 : world)
    (r : option (ndarray Z)) :
  files σ0 = files σ -> load_image p σ = (Ok r, σ) ->
  load_image p σ0 = (Ok r, σ0).
Proof.
  intros Hf Hl.
  destruct (load_image_cases p σ0)
    as [(bytes & img & Hb & Hd & Hs & Hl0)|[Hno Hl0]]; rewrite Hl0.
  - rewrite Hf in Hb. rewrite (load_image_ok p bytes img σ Hb Hd Hs) in Hl.
    by injection Hl as <-.
  - destruct (load_image_cases p σ)
      as [(bytes & img & Hb & Hd & Hs & Hl1)|[_ Hl1]];
      rewrite Hl1 in Hl; [|by injection Hl as <-].
    rewrite <- Hf in Hb. specialize (Hno bytes img Hb Hd). lia.
Qed.

(** When the input cannot be loaded, [compress_with_multiple_levels] returns
    [None] without raising, whatever the levels, and touches nothing. *)
Theorem multiple_levels_unreadable_input (input_path output_dir : string)
    (levels : list Z) (σ : world) :
  (forall bytes img,
     files σ !! input_path = Some bytes -> image_decode bytes = Some img ->
     (length (shape img) < 2)%nat) ->
  compress_with_multiple_levels input_path output_dir levels σ = (Ok None, σ).
Proof.
  intros Hno. unfold compress_with_multiple_levels.
  destruct (load_image_cases input_path σ)
    as [(bytes & img & Hb & Hd & Hs & _)|[_ Hl]].
  - specialize (Hno bytes img Hb Hd). lia.
  - by rewrite (bind_ok _ _ _ _ _ Hl).
Qed.

End DriverAnyEngine.

Lemma multiple_levels_unreadable_input_witness :
  compress_with_multiple_levels "absent.png" "out" [0; 4; 1000] sample_world
  = (Ok None, sample_world).
Proof.
  apply (multiple_levels_unreadable_input "absent.png" "out" [0; 4; 1000]
           sample_world).
  intros bytes img Hf. vm_compute in Hf. discriminate.
Defined.

Section DriverValid.

Context {E : KMeansEngine} {C : ImageCodec} `{!KMeansLawful E}.

(** For any list of distinct levels that are all valid for the image, a
    clean output directory ready to receive the files and a codec that
    encodes them, [compress_with_multiple_levels] returns one entry per
    level, in the order of the levels; each entry holds its level, path,
    image, ratio and file size, every level's file is in place at the end,
    and no other file is written or changed. *)
Theorem multiple_levels_one_entry_per_level (input_path d : string)
    (levels : list Z) (bytes : list Byte.byte) (img : ndarray Z) (h w : nat)
    (σ : world) :
  files σ !! input_path = Some bytes -> image_decode bytes = Some img ->
  shape img = [h; w; 3%nat] -> wf_ndarray img ->
  clean_dir d = true ->
  Forall (fun k => 1 <= k <= Z.of_nat (h * w)) levels -> NoDup levels ->
  dir_ready d levels σ -> codec_ready d levels h w ->
  exists results σ',
    compress_with_multiple_levels input_path d levels σ
      = (Ok (Some results), σ') /\
    map n_colors results = levels /\
    Forall2 (result_for img d) levels results /\
    Forall (fun r => exists file,
              image_encode (path r) (image r) = Ok file /\
              files σ' !! path r = Some file /\
              file_size r = Z.of_nat (length file)) results /\
    (forall p, p ∉ map (level_path d) levels -> files σ' !! p = files σ !! p).
Proof.
  intros Hf Hdec Hs Hwf Hd Hlv Hnd Hready Hcodec.
  assert (Hdim : (2 <= length (shape img))%nat) by (rewrite Hs; cbn; lia).
  destruct (levels_loop_ok img h w d levels Hs Hwf (clean_dir_not_empty d Hd)
              Hcodec levels [] σ)
    as (rs & σ' & Hloop & Hres & _ & Hframe & Hfiles).
  { apply Forall_forall. intros k Hk. split; [done|].
    by eapply (proj1 (Forall_forall _ _)) in Hlv. }
  { by apply level_paths_NoDup_levels. }
  { exact Hready. }
  exists rs, σ'. split; [|split; [|by repeat split]].
  - unfold compress_with_multiple_levels.
    rewrite (bind_ok _ _ _ _ _ (load_image_ok input_path bytes img σ Hf Hdec Hdim)).
    by rewrite (bind_ok _ _ _ _ _ Hloop).
  - clear -Hres. induction Hres as [|k r ks rs' Hr _ IH]; [done|].
    cbn. destruct Hr as [-> _]. by rewrite IH.
Qed.

(** The driver stops at the first level that is not valid for the image:
    it raises [ValueError] and returns no entry, the files of the levels
    before it have been written, and no other file is written or changed
    (in particular none for that level or the levels after it). *)
Theorem multiple_levels_stops_at_invalid_level (input_path d : string)
    (pre post : list Z) (k : Z) (bytes : list Byte.byte) (img : ndarray Z)
    (h w : nat) (σ : world) :
  files σ !! input_path = Some bytes -> image_decode bytes = Some img ->
  shape img = [h; w; 3%nat] -> wf_ndarray img ->
  clean_dir d = true ->
  Forall (fun k => 1 <= k <= Z.of_nat (h * w)) pre -> NoDup pre ->
  k < 1 \/ Z.of_nat (h * w) < k ->
  dir_ready d pre σ -> codec_ready d pre h w ->
  exists σ',
    compress_with_multiple_levels input_path d (pre ++ k :: post) σ
      = (Err ValueError, σ') /\
    Forall (fun k' => is_file σ' (level_path d k') = true) pre /\
    (forall p, p ∉ map (level_path d) pre -> files σ' !! p = files σ !! p).
Proof.
  intros Hf Hdec Hs Hwf Hd Hlv Hnd Hk Hready Hcodec.
  assert (Hdim : (2 <= length (shape img))%nat) by (rewrite Hs; cbn; lia).
  destruct (levels_loop_ok img h w d pre Hs Hwf (clean_dir_not_empty d Hd)
              Hcodec pre [] σ)
    as (rs & σ' & Hloop & Hres & _ & Hframe & Hfiles).
  { apply Forall_forall. intros k' Hk'. split; [done|].
    by eapply (proj1 (Forall_forall _ _)) in Hlv. }
  { by apply level_paths_NoDup_levels. }
  { exact Hready. }
  assert (Hbad : compress_image_kmeans img k σ' = (Err ValueError, σ')).
  { destruct (shape_hw3_size img h w Hs) as [Hm Hdiv].
    apply compress_image_kmeans_fit_error; [|exact Hm].
    apply k_means_invalid. by rewrite rows3_length, Hwf, Hdiv. }
  exists σ'. split; [|split; [|exact Hframe]].
  - unfold compress_with_multiple_levels.
    rewrite (bind_ok _ _ _ _ _ (load_image_ok input_path bytes img σ Hf Hdec Hdim)).
    unfold bind at 1. rewrite levels_loop_app.
    rewrite (bind_ok _ _ _ _ _ Hloop). cbn [levels_loop].
    by rewrite (bind_err _ _ _ _ _ Hbad).
  - clear -Hres Hfiles. revert Hfiles.
    induction Hres as [|k' r ks rs' Hr _ IH]; intros Hfiles; [done|].
    apply Forall_cons in Hfiles as [(file & _ & Hfile & _) Hfiles].
    constructor; [|by apply IH].
    destruct Hr as (_ & Hp & _). unfold level_path. rewrite <- Hp.
    unfold is_file. apply bool_decide_eq_true, elem_of_dom. by eexists.
Qed.

End DriverValid.

(** ** The full analysis on an image too small for it *)

Lemma analysis_levels_split (n : nat) :
  (n < 128)%nat ->
  exists pre k post,
    analysis_levels = pre ++ k :: post /\
    Forall (fun k' => k' ∈ analysis_levels /\ 1 <= k' <= Z.of_nat n) pre /\
    Z.of_nat n < k /\
    (forall k', k' ∈ analysis_levels -> k' <= Z.of_nat n -> k' ∈ pre).
Proof.
  intros Hn. unfold analysis_levels.
  destruct (decide (n < 4)%nat);
    [exists [], 4, [8; 16; 32; 64; 128]|
  destruct (decide (n < 8)%nat);
    [exists [4], 8, [16; 32; 64; 128]|
  destruct (decide (n < 16)%nat);
    [exists [4; 8], 16, [32; 64; 128]|
  destruct (decide (n < 32)%nat);
    [exists [4; 8; 16], 32, [64; 128]|
  destruct (decide (n < 64)%nat);
    [exists [4; 8; 16; 32], 64, [128]|
     exists [4; 8; 16; 32; 64], 128, []]]]]];
  (split; [reflexivity|]; split; [|split; [lia|]]);
  [apply Forall_forall; intros k' Hk'
  |intros k' Hk' Hle|
   apply Forall_forall; intros k' Hk'
  |intros k' Hk' Hle|
   apply Forall_forall; intros k' Hk'
  |intros k' Hk' Hle|
   apply Forall_forall; intros k' Hk'
  |intros k' Hk' Hle|
   apply Forall_forall; intros k' Hk'
  |intros k' Hk' Hle|
   apply Forall_forall; intros k' Hk'
  |intros k' Hk' Hle];
  repeat (apply elem_of_cons in Hk' as [->|Hk'];
          [first [lia
                 | by apply (bool_decide_unpack _)
                 | split; [by apply (bool_decide_unpack _) | lia]]|]);
  by apply elem_of_nil in Hk'.
Qed.

Section AnalysisTooSmall.

Context {E : KMeansEngine} {C : ImageCodec} `{!KMeansLawful E}.

Variable report : string -> list CompressionResult -> string -> py unit.

(** The loop on levels of which the first ones fit the image and the next
    one does not. *)
Lemma levels_loop_stops (img : ndarray Z) (h w : nat) (d : string)
    (L pre post : list Z) (k : Z) (σ : world) :
  shape img = [h; w; 3%nat] -> wf_ndarray img -> is_empty d = false ->
  codec_ready d L h w ->
  Forall (fun k' => k' ∈ L /\ 1 <= k' <= Z.of_nat (h * w)) pre ->
  NoDup (map (level_path d) pre) ->
  k < 1 \/ Z.of_nat (h * w) < k ->
  dir_ready d L σ ->
  exists σ',
    levels_loop img d (pre ++ k :: post) [] σ = (Err ValueError, σ') /\
    Forall (fun k' => is_file σ' (level_path d k') = true) pre /\
    (forall p, p ∉ map (level_path d) pre -> files σ' !! p = files σ !! p).
Proof.
  intros Hs Hwf Hd Hcodec Hpre Hnd Hk Hready.
  destruct (levels_loop_ok img h w d L Hs Hwf Hd Hcodec pre [] σ Hpre Hnd Hready)
    as (rs & σ' & Hloop & Hres & _ & Hframe & Hfiles).
  assert (Hbad : compress_image_kmeans img k σ' = (Err ValueError, σ')).
  { destruct (shape_hw3_size img h w Hs) as [Hm Hdiv].
    apply compress_image_kmeans_fit_error; [|exact Hm].
    apply k_means_invalid. by rewrite rows3_length, Hwf, Hdiv. }
  exists σ'. split; [|split; [|exact Hframe]].
  - rewrite levels_loop_app, (bind_ok _ _ _ _ _ Hloop). cbn [levels_loop].
    by rewrite (bind_err _ _ _ _ _ Hbad).
  - clear -Hres Hfiles. revert Hfiles.
    induction Hres as [|k' r ks rs' Hr _ IH]; intros Hfiles; [done|].
    apply Forall_cons in Hfiles as [(file & _ & Hfile & _) Hfiles].
    constructor; [|by apply IH].
    destruct Hr as (_ & Hp & _). unfold level_path. rewrite <- Hp.
    unfold is_file. apply bool_decide_eq_true, elem_of_dom. by eexists.
Qed.

(** [main] with the analysis flag on an input that decodes to a well-formed
    H x W x 3 array of fewer than 128 pixels, the directories and the codec
    being as the analysis needs them: the run ends on the [ValueError] of
    the first level above the number of pixels, with exit status 1 and
    without a report.  The files of the levels that fit have been written;
    no other file is written or changed. *)
Theorem main_analysis_too_few_pixels (args : Args) (σ : world)
    (bytes : list Byte.byte) (img : ndarray Z) (h w : nat) :
  analysis args = true ->
  files σ !! input args = Some bytes -> image_decode bytes = Some img ->
  shape img = [h; w; 3%nat] -> wf_ndarray img -> (h * w < 128)%nat ->
  is_empty (output args) = false ->
  dir_ready (output args) analysis_levels σ ->
  Forall (fun x => is_file σ x = false) (ancestors default_comparison_dir) ->
  codec_ready (output args) analysis_levels h w ->
  exists σ',
    main report args σ = (Err ValueError, σ') /\
    exit_status (fst (main report args σ)) = 1 /\
    (forall k, k ∈ analysis_levels -> k <= Z.of_nat (h * w) ->
               is_file σ' (level_path (output args) k) = true) /\
    (forall p,
       (forall k, k ∈ analysis_levels -> k <= Z.of_nat (h * w) ->
                  p <> level_path (output args) k) ->
       files σ' !! p = files σ !! p).
Proof.
  intros Han Hf Hdec Hs Hwf Hpix Hd [Hfree Hnodir] Hcmp Hcodec.
  set (d := output args) in *.
  set (σ1 := mk_world (files σ) (dirs σ ∪ list_to_set (ancestors d)) (np_random σ)).
  set (σ0 := mk_world (files σ)
               (dirs σ ∪ list_to_set (ancestors d)
                       ∪ list_to_set (ancestors default_comparison_dir))
               (np_random σ)).
  assert (Hmk1 : os_makedirs d σ = (Ok tt, σ1)) by (by apply os_makedirs_ok).
  assert (Hmk2 : os_makedirs default_comparison_dir σ1 = (Ok tt, σ0)).
  { by apply (os_makedirs_ok default_comparison_dir σ1). }
  assert (Hready0 : dir_ready d analysis_levels σ0).
  { split; [exact Hfree|]. apply Forall_forall. intros k Hk.
    pose proof (proj1 (Forall_forall _ _) Hnodir k Hk) as Hnk. cbn in Hnk.
    unfold is_dir in *. apply bool_decide_eq_false.
    apply bool_decide_eq_false in Hnk. unfold σ0. cbn [dirs].
    rewrite !elem_of_union, !elem_of_list_to_set.
    intros [[Hin|Hin]|Hin];
      [done | by apply (proj1 (level_path_outside d k Hd))|].
    apply ancestors_length in Hin.
    destruct (level_path_dir d k Hd) as (_ & _ & Hl).
    change (String.length default_comparison_dir) with 21%nat in Hin. lia. }
  assert (Hload : load_image (input args) σ0 = (Ok (Some img), σ0)).
  { apply (load_image_ok _ bytes); [done | done | rewrite Hs; cbn; lia]. }
  destruct (analysis_levels_split (h * w) Hpix)
    as (pre & k & post & Hsplit & Hpre & Hk & Hall).
  destruct (levels_loop_stops img h w d analysis_levels pre post k σ0
              Hs Hwf Hd Hcodec Hpre)
    as (σ' & Hloop & Hwritten & Hframe).
  { pose proof (level_paths_NoDup_dir d analysis_levels Hd
                  analysis_filenames_NoDup) as Hnd.
    rewrite Hsplit, map_app in Hnd. by apply NoDup_app in Hnd as [Hnd _]. }
  { by right. }
  { exact Hready0. }
  assert (Hdriver : compress_with_multiple_levels (input args) d
                      analysis_levels σ0 = (Err ValueError, σ')).
  { unfold compress_with_multiple_levels.
    rewrite (bind_ok _ _ _ _ _ Hload), Hsplit.
    by rewrite (bind_err _ _ _ _ _ Hloop). }
  assert (Hmain : main report args σ = (Err ValueError, σ')).
  { unfold main.
    assert (Hex : os_path_exists (input args) σ = (Ok true, σ)).
    { unfold os_path_exists, is_file.
      rewrite bool_decide_eq_true_2; [done|]. apply elem_of_dom. by eexists. }
    rewrite (bind_ok _ _ _ _ _ Hex). cbn [negb]. rewrite Han.
    unfold compress_with_analysis.
    rewrite (bind_ok _ _ _ _ _ Hmk1), (bind_ok _ _ _ _ _ Hmk2).
    fold d. by rewrite (bind_err _ _ _ _ _ Hdriver). }
  exists σ'. rewrite Hmain. split; [done|]. split; [done|]. split.
  - intros k' Hin Hle.
    apply (proj1 (Forall_forall _ _) Hwritten). by apply Hall.
  - intros p Hp. rewrite Hframe; [done|]. intros Hin.
    apply list_elem_of_In, in_map_iff in Hin as (k' & Heq & Hk').
    apply list_elem_of_In in Hk'.
    pose proof (proj1 (Forall_forall _ _) Hpre k' Hk') as [HkL Hkr].
    apply (Hp k' HkL); [lia | done].
Qed.

End AnalysisTooSmall.

(** ** The command surface *)

Section MainAnyEngine.

Context {E : KMeansEngine} {C : ImageCodec}.

Variable report : string -> list CompressionResult -> string -> py unit.

(** In analysis mode, an input that exists but cannot be loaded as an image
    (a directory, a file that does not decode) makes [main] create the two
    directories and stop there: no file is written, the reporting
    collaborator is not called, and the exit status is 0. *)
Theorem main_analysis_unreadable_input (args : Args) (σ : world) :
  analysis args = true ->
  is_file σ (input args) || is_dir σ (input args) = true ->
  (forall bytes img,
     files σ !! input args = Some bytes -> image_decode bytes = Some img ->
     (length (shape img) < 2)%nat) ->
  is_empty (output args) = false ->
  Forall (fun x => is_file σ x = false) (ancestors (output args)) ->
  Forall (fun x => is_file σ x = false) (ancestors default_comparison_dir) ->
  main report args σ =
    (Ok tt, mk_world (files σ)
              (dirs σ ∪ list_to_set (ancestors (output args))
                      ∪ list_to_set (ancestors default_comparison_dir))
              (np_random σ)) /\
  exit_status (fst (main report args σ)) = 0.
Proof.
  intros Han Hex Hno Hne Hout Hcmp.
  assert (Hmain : main report args σ =
    (Ok tt, mk_world (files σ)
              (dirs σ ∪ list_to_set (ancestors (output args))
                      ∪ list_to_set (ancestors default_comparison_dir))
              (np_random σ))).
  { unfold main, bind at 1, os_path_exists. rewrite Hex, Han. cbn [negb].
    unfold compress_with_analysis.
    rewrite (bind_ok _ _ _ _ _ (os_makedirs_ok _ σ Hne Hout)).
    set (σ1 := mk_world (files σ) _ (np_random σ)).
    rewrite (bind_ok _ _ _ _ _
               (os_makedirs_ok default_comparison_dir σ1 eq_refl Hcmp)).
    cbn [files dirs np_random].
    set (σ0 := mk_world (files σ) _ (np_random σ)).
    by rewrite (bind_ok _ _ _ _ _
                  (multiple_levels_unreadable_input (input args) (output args)
                     analysis_levels σ0 Hno)). }
  by rewrite Hmain.
Qed.

End MainAnyEngine.

Section MainValid.

Context {E : KMeansEngine} {C : ImageCodec} `{!KMeansLawful E}.

Variable report : string -> list CompressionResult -> string -> py unit.

(** Without the analysis flag, on an input file that decodes to a
    well-formed H x W x 3 array, with a valid colour count and a clean
    output directory that can be created, [main] writes one file, named
    after the input's base name without its extension followed by
    [_compressed_<colors>.png], in the output directory; the file holds the
    encoding of the image [compress_image_kmeans] gives, no other file
    changes, and the exit status is 0. *)
Theorem main_single_image_writes_named_file (args : Args) (σ : world)
    (bytes : list Byte.byte) (img : ndarray Z) (h w : nat) :
  analysis args = false ->
  files σ !! input args = Some bytes -> image_decode bytes = Some img ->
  shape img = [h; w; 3%nat] -> wf_ndarray img ->
  1 <= colors args <= Z.of_nat (h * w) ->
  clean_dir (output args) = true ->
  Forall (fun x => is_file σ x = false) (ancestors (output args)) ->
  is_dir σ (output args ++ String sep
              (single_filename (input args) (colors args)))%string = false ->
  codec_encodes (output args ++ String sep
                   (single_filename (input args) (colors args)))%string h w ->
  exists out file σ',
    main report args σ = (Ok tt, σ') /\
    exit_status (fst (main report args σ)) = 0 /\
    fst (compress_image_kmeans img (colors args) σ) = Ok out /\
    image_encode (output args ++ String sep
                    (single_filename (input args) (colors args)))%string out
      = Ok file /\
    files σ' = <[(output args ++ String sep
                    (single_filename (input args) (colors args)))%string
                 := file]> (files σ).
Proof.
  intros Han Hf Hdec Hs Hwf Hk Hd Hfree Hnd Hcodec.
  destruct (single_path_clean (output args) (input args) (colors args) Hd)
    as (Hj & Hdir & Hbase & Hna).
  set (p := (output args ++ String sep
               (single_filename (input args) (colors args)))%string) in *.
  destruct (compress_image_file_success (input args) p bytes img h w
              (colors args) σ Hf Hdec Hs Hwf Hk Hcodec)
    as (out & file & Hrun & Henc & Hrunf).
  { unfold path_ready. rewrite Hdir.
    split; [by apply clean_dir_not_empty|]. by repeat split. }
  assert (Hmain : main report args σ =
            (Ok tt, mk_world (<[p := file]> (files σ))
                      (dirs σ ∪ list_to_set (ancestors (os_path_dirname p)))
                      (np_random σ))).
  { unfold main, bind at 1, os_path_exists.
    assert (Hex : is_file σ (input args) = true).
    { unfold is_file. apply bool_decide_eq_true, elem_of_dom. by eexists. }
    rewrite Hex, Han. cbn [orb negb].
    unfold compress_single_image. fold (single_filename (input args) (colors args)).
    rewrite Hj. fold p. unfold bind. by rewrite Hrunf. }
  exists out, file. eexists. split; [exact Hmain|].
  rewrite Hmain. split; [done|]. split; [by rewrite Hrun|]. by split.
Qed.

End MainValid.

(** ** Arrays of any shape *)

Section AnyShape.

Context {E : KMeansEngine} {C : ImageCodec} `{!KMeansLawful E}.

(** The number of channels plays no part: any well-formed array whose
    element count is a multiple of 3 is accepted with any [k] between 1 and
    a third of that count, and the result has the input's shape, bytes for
    values and at most [k] distinct rows of three. *)
Theorem compress_accepts_any_multiple_of_three (img : ndarray Z) (k : Z)
    (σ : world) :
  wf_ndarray img -> (size img mod 3 = 0)%nat ->
  1 <= k <= Z.of_nat (size img / 3) ->
  exists out,
    compress_image_kmeans img k σ = (Ok out, σ) /\
    shape out = shape img /\ wf_ndarray out /\
    Forall (fun v => 0 <= v <= 255) (data out) /\
    (count_unique_rows (rows3 (data out)) <= Z.to_nat k)%nat.
Proof.
  intros Hwf Hm Hk.
  destruct (compress_image_kmeans_valid img k σ Hwf Hm Hk)
    as (f & _ & Hrun & Hlen & Hw3 & Hlab & Hlt).
  rewrite <- Hlen in Hlt.
  pose proof (quantized_rows_width f 3 Hw3 Hlt) as Hqw.
  eexists. split; [exact Hrun|]. cbn [shape data]. split; [done|]. split.
  { unfold wf_ndarray. cbn [data]. rewrite (concat_width_length _ 3 Hqw).
    unfold quantized_rows. rewrite length_map, Hlab.
    unfold size at 2. cbn [shape]. fold (size img).
    pose proof (Nat.div_mod_eq (size img) 3). lia. }
  split.
  { apply Forall_concat. unfold quantized_rows.
    apply Forall_map, Forall_forall. intros l _. cbn.
    apply Forall_map, Forall_forall. intros q _. apply to_uint8_range. }
  rewrite concat_rows3 by exact Hqw.
  unfold count_unique_rows. rewrite <- Hlen.
  rewrite <- (length_map (map to_uint8) (cluster_centers_ f)).
  apply remove_dups_length_le. intros px Hpx.
  pose proof (quantized_rows_in_palette f Hlt) as Hpal.
  by eapply (proj1 (Forall_forall _ _)) in Hpal.
Qed.

(** An array with fewer than three elements holds no complete sample, and
    every [k] is refused for it. *)
Theorem compress_without_sample_fails (img : ndarray Z) (k : Z) (σ : world) :
  wf_ndarray img -> (size img < 3)%nat ->
  compress_image_kmeans img k σ = (Err ValueError, σ).
Proof.
  intros Hwf Hsz.
  destruct (decide (size img mod 3 = 0)%nat) as [Hm|Hm];
    [|by apply compress_image_kmeans_bad_size].
  apply compress_image_kmeans_fit_error; [|exact Hm].
  apply k_means_invalid. rewrite rows3_length, Hwf.
  rewrite (Nat.div_small _ _ Hsz). cbn. lia.
Qed.

End AnyShape.

Lemma compress_accepts_any_multiple_of_three_witness :
  exists out,
    compress_image_kmeans sample_rgba 2 empty_world = (Ok out, empty_world) /\
    shape out = shape sample_rgba /\ wf_ndarray out /\
    Forall (fun v => 0 <= v <= 255) (data out) /\
    (count_unique_rows (rows3 (data out)) <= Z.to_nat 2)%nat.
Proof.
  apply (compress_accepts_any_multiple_of_three sample_rgba 2 empty_world);
    [reflexivity | reflexivity | cbn; lia].
Defined.

Lemma compress_without_sample_fails_witness :
  compress_image_kmeans sample_empty 1 empty_world
  = (Err ValueError, empty_world).
Proof.
  apply (compress_without_sample_fails sample_empty 1 empty_world);
    [reflexivity | cbn; lia].
Defined.

(** ** More on the ratio *)

Lemma calculate_compression_ratio_eq (a b : ndarray Z) :
  (size a mod 3 = 0)%nat -> (size b mod 3 = 0)%nat ->
  calculate_compression_ratio a b =
    Ok (if (0 <? count_unique_rows (rows3 (data b)))%nat
        then (inject_Z (Z.of_nat (count_unique_rows (rows3 (data a)))) /
              inject_Z (Z.of_nat (count_unique_rows (rows3 (data b)))))%Q
        else 1%Q).
Proof.
  intros Ha Hb. unfold calculate_compression_ratio, reshape_m1_3, py_truediv.
  rewrite (proj2 (Nat.eqb_eq _ _) Ha), (proj2 (Nat.eqb_eq _ _) Hb).
  cbn [result_bind].
  destruct (Nat.ltb_spec 0 (count_unique_rows (rows3 (data b)))) as [Hp|Hp].
  - rewrite (proj2 (Z.gtb_gt _ _)) by lia.
    by rewrite (proj2 (Z.eqb_neq _ _)) by lia.
  - by replace (count_unique_rows (rows3 (data b))) with 0%nat by lia.
Qed.

(** The only error [calculate_compression_ratio] raises is the
    [ValueError] of the reshape, and it raises it exactly when one of the
    two arrays has an element count that is not a multiple of 3. *)
Theorem ratio_error_cases (a b : ndarray Z) :
  (calculate_compression_ratio a b = Err ValueError <->
   (size a mod 3 <> 0)%nat \/ (size b mod 3 <> 0)%nat) /\
  (forall e, calculate_compression_ratio a b = Err e -> e = ValueError).
Proof.
  destruct (decide (size a mod 3 = 0)%nat) as [Ha|Ha];
    [destruct (decide (size b mod 3 = 0)%nat) as [Hb|Hb]|].
  - rewrite (calculate_compression_ratio_eq a b Ha Hb).
    split; [split; [done | tauto] | done].
  - unfold calculate_compression_ratio, reshape_m1_3, result_bind.
    rewrite (proj2 (Nat.eqb_eq _ _) Ha), (proj2 (Nat.eqb_neq _ _) Hb).
    split; [split; [tauto | done] | by intros e [= <-]].
  - unfold calculate_compression_ratio, reshape_m1_3, result_bind.
    rewrite (proj2 (Nat.eqb_neq _ _) Ha).
    split; [split; [tauto | done] | by intros e [= <-]].
Qed.

(** The ratio of an array to itself is 1. *)
Theorem ratio_of_image_to_itself (a : ndarray Z) :
  (size a mod 3 = 0)%nat ->
  exists q, calculate_compression_ratio a a = Ok q /\ (q == 1)%Q.
Proof.
  intros Ha. rewrite (calculate_compression_ratio_eq a a Ha Ha).
  eexists. split; [reflexivity|].
  destruct (Nat.ltb_spec 0 (count_unique_rows (rows3 (data a)))) as [Hp|Hp];
    [|reflexivity].
  apply Qmult_inv_r. unfold Qeq. cbn. lia.
Qed.

Lemma ratio_of_image_to_itself_witness :
  exists q, calculate_compression_ratio sample_image sample_image = Ok q
            /\ (q == 1)%Q.
Proof. apply (ratio_of_image_to_itself sample_image). reflexivity. Defined.

Lemma Qdiv_count_bounds (o c k : Z) :
  0 <= o -> 1 <= c <= k ->
  (inject_Z o / inject_Z k <= inject_Z o / inject_Z c)%Q /\
  (inject_Z o / inject_Z c <= inject_Z o)%Q.
Proof.
  intros Ho [Hc Hk].
  destruct c as [|c|c]; try lia. destruct k as [|k|k]; try lia.
  unfold Qdiv, Qinv, Qmult, Qle, inject_Z. cbn.
  split; nia.
Qed.

Section RatioOfCompressed.

Context {E : KMeansEngine} {C : ImageCodec} `{!KMeansLawful E}.

(** The image of a valid level, with the number of its distinct colours
    between 1 and [k]. *)
Lemma compress_image_kmeans_count (img : ndarray Z) (h w : nat) (k : Z) :
  shape img = [h; w; 3%nat] -> wf_ndarray img ->
  1 <= k <= Z.of_nat (h * w) ->
  exists out,
    (forall σ : world, compress_image_kmeans img k σ = (Ok out, σ)) /\
    shape out = [h; w; 3%nat] /\
    1 <= Z.of_nat (count_unique_rows (rows3 (data out))) <= k.
Proof.
  intros Hs Hwf Hk. destruct (shape_hw3_size img h w Hs) as [Hm Hd].
  assert (Hk' : 1 <= k <= Z.of_nat (size img / 3)) by (by rewrite Hd).
  destruct (compress_image_kmeans_pure img k) as [r Hpure].
  destruct (compress_image_kmeans_valid img k (mk_world ∅ ∅ (RandomState_seed 0))
              Hwf Hm Hk')
    as (f & _ & Hrun & Hlen & Hw3 & Hlab & Hlt).
  rewrite Hpure in Hrun. injection Hrun as ->.
  rewrite <- Hlen in Hlt. rewrite Hd in Hlab.
  pose proof (quantized_rows_width f 3 Hw3 Hlt) as Hqw.
  eexists. split; [exact Hpure|]. cbn [shape data]. split; [exact Hs|].
  rewrite concat_rows3 by exact Hqw. unfold count_unique_rows. split.
  - assert (Hne : quantized_rows f <> []).
    { unfold quantized_rows. destruct (labels_ f); [cbn in Hlab; lia | done]. }
    destruct (quantized_rows f) as [|r rs] eqn:Hq; [done|].
    assert (Hin : r ∈ remove_dups (r :: rs))
      by (apply elem_of_remove_dups, list_elem_of_here).
    destruct (remove_dups (r :: rs)); [by apply elem_of_nil in Hin | cbn; lia].
  - assert (Hle : (length (remove_dups (quantized_rows f))
                   <= length (map (map to_uint8) (cluster_centers_ f)))%nat).
    { apply remove_dups_length_le. intros px Hpx.
      pose proof (quantized_rows_in_palette f Hlt) as Hpal.
      by eapply (proj1 (Forall_forall _ _)) in Hpal. }
    rewrite length_map, Hlen in Hle. lia.
Qed.

(** For the image of a valid level the ratio lies between the original's
    number of distinct colours divided by [k] and that number itself. *)
Theorem ratio_of_compressed_bounds (img : ndarray Z) (h w : nat) (k : Z)
    (σ : world) :
  shape img = [h; w; 3%nat] -> wf_ndarray img ->
  1 <= k <= Z.of_nat (h * w) ->
  exists out q,
    compress_image_kmeans img k σ = (Ok out, σ) /\
    calculate_compression_ratio img out = Ok q /\
    (inject_Z (Z.of_nat (count_unique_rows (rows3 (data img)))) / inject_Z k
       <= q)%Q /\
    (q <= inject_Z (Z.of_nat (count_unique_rows (rows3 (data img)))))%Q.
Proof.
  intros Hs Hwf Hk.
  destruct (compress_image_kmeans_count img h w k Hs Hwf Hk)
    as (out & Hrun & Hso & Hcount).
  exists out. eexists. split; [apply Hrun|].
  rewrite (calculate_compression_ratio_eq img out
             (proj1 (shape_hw3_size img h w Hs))
             (proj1 (shape_hw3_size out h w Hso))).
  split; [reflexivity|].
  rewrite (proj2 (Nat.ltb_lt _ _)) by lia.
  apply Qdiv_count_bounds; lia.
Qed.

End RatioOfCompressed.

Lemma ratio_of_compressed_bounds_witness :
  exists out q,
    compress_image_kmeans sample_image 2 empty_world = (Ok out, empty_world) /\
    calculate_compression_ratio sample_image out = Ok q /\
    (inject_Z (Z.of_nat (count_unique_rows (rows3 (data sample_image))))
       / inject_Z 2 <= q)%Q /\
    (q <= inject_Z (Z.of_nat (count_unique_rows (rows3 (data sample_image)))))%Q.
Proof.
  apply (ratio_of_compressed_bounds sample_image 1 5 2 empty_world);
    [reflexivity | reflexivity | lia].
Defined.

(** ** The comparison figures *)

Lemma call_middle (pre post : list axes_obj) (a : Axes) (i : nat) (d : draw) :
  length pre = i ->
  call (pre ++ an_Axes a :: post) i d
  = Drawn (pre ++ an_Axes (a ++ [d]) :: post).
Proof.
  intros <-. unfold call. rewrite list_lookup_middle by done.
  f_equal. rewrite <- (Nat.add_0_r (length pre)) at 1.
  by rewrite insert_app_r.
Qed.

Lemma call_imshow_middle `{FigureCodec} (pre post : list axes_obj)
    (a : Axes) (i : nat) (img : ndarray Z) :
  length pre = i -> image_shape_ok (shape img) = true ->
  call_imshow (pre ++ an_Axes a :: post) i img
  = Drawn (pre ++ an_Axes (a ++ [imshow img]) :: post).
Proof.
  intros Hi Hok. unfold call_imshow. rewrite (call_middle _ _ _ _ _ Hi).
  cbn. by rewrite Hok.
Qed.

Lemma draw_results_fresh `{FigureCodec} (results : list CompressionResult)
    (done_ : list axes_obj) (i m : nat) :
  length done_ = (i + 1)%nat -> (length results <= m)%nat ->
  Forall (fun r => image_shape_ok (shape (image r)) = true) results ->
  draw_results (done_ ++ replicate m (an_Axes [])) i results
  = Drawn (done_ ++ map level_cell results
                 ++ replicate (m - length results) (an_Axes [])).
Proof.
  revert done_ i m. induction results as [|r results IH];
    intros done_ i m Hlen Hm Hok.
  { cbn. by rewrite Nat.sub_0_r. }
  apply Forall_cons in Hok as [Hr Hok]. cbn [length] in Hm.
  destruct m as [|m]; [lia|]. rewrite replicate_S.
  cbn [draw_results].
  rewrite (call_imshow_middle _ _ _ _ _ Hlen Hr). cbn [plot_bind app].
  rewrite (call_middle _ _ _ _ _ Hlen). cbn [plot_bind app].
  rewrite (call_middle _ _ _ _ _ Hlen). cbn [plot_bind app].
  fold (level_cell r).
  rewrite (cons_middle (level_cell r)), app_assoc.
  rewrite (IH (done_ ++ [level_cell r]) (S i) m); [| |lia|done].
  - cbn [map length]. by rewrite <- app_assoc.
  - rewrite length_app. cbn. lia.
Qed.

Lemma hide_axes_fresh (done_ : list axes_obj) (m : nat) :
  hide_axes (done_ ++ replicate m (an_Axes [])) (seq (length done_) m)
  = Drawn (done_ ++ replicate m hidden_cell).
Proof.
  revert done_. induction m as [|m IH]; intros done_; [done|].
  rewrite !replicate_S. cbn [seq hide_axes].
  rewrite (call_middle _ _ _ _ _ eq_refl). cbn [plot_bind app].
  fold hidden_cell.
  rewrite (cons_middle hidden_cell), app_assoc.
  replace (S (length done_)) with (length (done_ ++ [hidden_cell]))
    by (rewrite length_app; cbn; lia).
  rewrite IH. by rewrite <- app_assoc.
Qed.

(** The grid has room for the original and every result, without a spare
    row, and never more than four columns. *)
Lemma grid_fits (n : nat) :
  (1 <= grid_cols n <= 4)%nat /\
  (n + 1 <= grid_rows n * grid_cols n)%nat /\
  (grid_rows n * grid_cols n < n + 1 + grid_cols n)%nat.
Proof.
  unfold grid_rows. set (c := grid_cols n).
  assert (Hc : (1 <= c <= 4)%nat) by (unfold c, grid_cols; lia).
  split; [exact Hc|].
  pose proof (Nat.div_mod_eq (n + 1 + c - 1) c) as Hdm.
  pose proof (Nat.mod_upper_bound (n + 1 + c - 1) c) as Hub.
  nia.
Qed.

Section Figures.

Context {E : KMeansEngine} {C : ImageCodec} {F : FigureCodec}.

Lemma save_and_return_outcome (fig : Figure) (save_path : option string)
    (σ : world) :
  (exists σ', save_and_return fig save_path σ = (Drawn fig, σ')) \/
  (exists e σ', save_and_return fig save_path σ = (Failed (Raised e), σ')).
Proof.
  unfold save_and_return.
  destruct save_path as [p|]; [|left; by eexists].
  destruct (is_empty p); [left; by eexists|].
  destruct (bind _ _ σ) as [[?|e] σ']; [left|right]; by repeat eexists.
Qed.

Lemma compare_multiple_drawn (original_img : ndarray Z)
    (results : list CompressionResult) (save_path : option string)
    (σ : world) :
  length results <> 1%nat ->
  image_shape_ok (shape original_img) = true ->
  (size original_img mod 3 = 0)%nat ->
  Forall (fun r => image_shape_ok (shape (image r)) = true) results ->
  compare_multiple_compressions original_img results save_path σ =
    save_and_return
      (mk_Figure
         (an_Axes [imshow original_img;
                   set_title (OriginalWithColours
                                (count_unique_rows (rows3 (data original_img))));
                   axis_off]
          :: map level_cell results
          ++ replicate (grid_rows (length results) * grid_cols (length results)
                        - (length results + 1)) hidden_cell)
         true)
      save_path σ.
Proof.
  intros Hn Hok Hm Hres.
  destruct (grid_fits (length results)) as ([_ Hc4] & Hfit & _).
  unfold compare_multiple_compressions.
  set (n := length results) in *.
  assert (Haxes : (if (1 <? n)%nat
                   then flatten (plt_subplots (grid_rows n) (grid_cols n))
                   else Drawn [plt_subplots (grid_rows n) (grid_cols n)])
                  = Drawn ([] ++ an_Axes []
                           :: replicate (grid_rows n * grid_cols n - 1)
                                (an_Axes []))).
  { destruct (Nat.ltb_spec 1 n) as [Hlt|Hge].
    - unfold plt_subplots.
      assert (Hc : (3 <= grid_cols n)%nat) by (unfold grid_cols; lia).
      rewrite (proj2 (Nat.eqb_neq (grid_cols n) 1)) by lia.
      rewrite andb_false_r. cbn [flatten app].
      change (map an_Axes ?l) with (an_Axes <$> l).
      rewrite fmap_replicate.
      destruct (grid_rows n * grid_cols n)%nat as [|m] eqn:Hrc; [lia|].
      by rewrite replicate_S, Nat.sub_succ, Nat.sub_0_r.
    - assert (Hn0 : n = 0%nat) by lia. by rewrite Hn0. }
  rewrite Haxes. cbn [plot_bind].
  rewrite (call_imshow_middle [] _ [] 0 original_img eq_refl Hok).
  cbn [plot_bind]. unfold reshape_m1_3.
  rewrite (proj2 (Nat.eqb_eq _ _) Hm). cbn [of_result plot_bind].
  rewrite (call_middle [] _ _ 0 _ eq_refl). cbn [plot_bind].
  rewrite (call_middle [] _ _ 0 _ eq_refl). cbn [plot_bind app].
  set (first := an_Axes [imshow original_img; _; axis_off]).
  change (first :: replicate (grid_rows n * grid_cols n - 1) (an_Axes []))
    with ([first] ++ replicate (grid_rows n * grid_cols n - 1) (an_Axes [])).
  rewrite (draw_results_fresh results [first] 0
             (grid_rows n * grid_cols n - 1) eq_refl); [|fold n; lia|done].
  cbn [plot_bind]. fold n.
  replace (length ([first] ++ map level_cell results
                   ++ replicate (grid_rows n * grid_cols n - 1 - n) (an_Axes []))
           - (n + 1))%nat
    with (grid_rows n * grid_cols n - 1 - n)%nat
    by (rewrite !length_app, length_map, length_replicate; fold n; cbn; lia).
  rewrite app_assoc.
  replace (n + 1)%nat with (length ([first] ++ map level_cell results))
    by (rewrite length_app, length_map; fold n; cbn; lia).
  rewrite hide_axes_fresh. cbn [plot_bind].
  rewrite <- app_assoc. cbn [app length]. rewrite length_map. fold n.
  by replace (grid_rows n * grid_cols n - 1 - n)%nat
    with (grid_rows n * grid_cols n - S n)%nat by lia.
Qed.

(** With images that [imshow] accepts and an original that reshapes into
    rows of three, [compare_multiple_compressions] raises [AttributeError]
    exactly when it is given one result: the grid is then 1 x 2,
    [plt.subplots] returns an array, and the code wraps that array in a list
    instead of flattening it (its test is [n_results > 1]), so the first
    [imshow] is called on the array.  In that case nothing is written. *)
Theorem compare_multiple_single_result_fails (original_img : ndarray Z)
    (results : list CompressionResult) (save_path : option string)
    (σ : world) :
  image_shape_ok (shape original_img) = true ->
  (size original_img mod 3 = 0)%nat ->
  Forall (fun r => image_shape_ok (shape (image r)) = true) results ->
  (fst (compare_multiple_compressions original_img results save_path σ)
     = Failed AttributeError <-> length results = 1%nat) /\
  (length results = 1%nat ->
   compare_multiple_compressions original_img results save_path σ
     = (Failed AttributeError, σ)).
Proof.
  intros Hok Hm Hres.
  assert (Hone : length results = 1%nat ->
            compare_multiple_compressions original_img results save_path σ
            = (Failed AttributeError, σ)).
  { intros Hn. destruct results as [|r [|]]; try done. }
  split; [|exact Hone]. split; [|by intros ->%Hone].
  intros Hfail. destruct (decide (length results = 1%nat)) as [|Hn]; [done|].
  rewrite (compare_multiple_drawn _ _ save_path σ Hn Hok Hm Hres) in Hfail.
  destruct (save_and_return_outcome
              (mk_Figure
                 (an_Axes [imshow original_img;
                           set_title (OriginalWithColours
                              (count_unique_rows (rows3 (data original_img))));
                           axis_off]
                  :: map level_cell results
                  ++ replicate (grid_rows (length results)
                                * grid_cols (length results)
                                - (length results + 1)) hidden_cell)
                 true) save_path σ)
    as [[σ' Hs]|(e & σ' & Hs)]; by rewrite Hs in Hfail.
Qed.

(** With no result or at least two, an original that [imshow] accepts and
    reshapes into rows of three, and result images that [imshow] accepts,
    the figure of [compare_multiple_compressions] has [rows * cols] axes:
    the original first, then one per result in the order of the results,
    each with its image and a title made of its level and ratio, then the
    unused axes, switched off.  The grid has at most four columns and room
    for all of them.  The figure is then saved as asked. *)
Theorem compare_multiple_layout (original_img : ndarray Z)
    (results : list CompressionResult) (save_path : option string)
    (σ : world) :
  length results <> 1%nat ->
  image_shape_ok (shape original_img) = true ->
  (size original_img mod 3 = 0)%nat ->
  Forall (fun r => image_shape_ok (shape (image r)) = true) results ->
  compare_multiple_compressions original_img results save_path σ =
    save_and_return
      (mk_Figure
         (an_Axes [imshow original_img;
                   set_title (OriginalWithColours
                                (count_unique_rows (rows3 (data original_img))));
                   axis_off]
          :: map level_cell results
          ++ replicate (grid_rows (length results) * grid_cols (length results)
                        - (length results + 1)) hidden_cell)
         true)
      save_path σ /\
  (length results + 1
   <= grid_rows (length results) * grid_cols (length results))%nat /\
  (grid_rows (length results) * grid_cols (length results)
   < length results + 1 + grid_cols (length results))%nat /\
  (grid_cols (length results) <= 4)%nat.
Proof.
  intros Hn Hok Hm Hres.
  destruct (grid_fits (length results)) as ([_ Hc4] & Hfit & Htight).
  split; [by apply compare_multiple_drawn|]. by repeat split.
Qed.


Lemma compare_images_drawn (original_img compressed_img : ndarray Z)
    (n_colors : Z) (save_path : option string) (σ : world) :
  image_shape_ok (shape original_img) = true ->
  image_shape_ok (shape compressed_img) = true ->
  (size original_img mod 3 = 0)%nat ->
  compare_images original_img compressed_img n_colors save_path σ =
    match py_truediv
            (Z.of_nat (count_unique_rows (rows3 (data original_img))))
            n_colors with
    | Err e => (Failed (Raised e), σ)
    | Ok ratio =>
        save_and_return
          (mk_Figure
             [an_Axes [imshow original_img; set_title OriginalImage; axis_off;
                       text (UniqueColours
                               (count_unique_rows (rows3 (data original_img))))];
              an_Axes [imshow compressed_img; set_title (Compressed n_colors);
                       axis_off; text (RatioText ratio)]]
             false)
          save_path σ
    end.
Proof.
  intros Ho Hc Hm. unfold compare_images. cbv zeta.
  change [an_Axes []; an_Axes []] with ([] ++ an_Axes [] :: [an_Axes []]).
  rewrite (call_imshow_middle [] [an_Axes []] [] 0 original_img eq_refl Ho).
  cbn [plot_bind].
  rewrite (call_middle [] _ _ 0 _ eq_refl). cbn [plot_bind].
  rewrite (call_middle [] _ _ 0 _ eq_refl). cbn [plot_bind].
  unfold reshape_m1_3. rewrite (proj2 (Nat.eqb_eq _ _) Hm).
  cbn [of_result plot_bind].
  rewrite (call_middle [] _ _ 0 _ eq_refl). cbn [plot_bind app].
  set (left_axes := an_Axes [imshow original_img; _; _; _]).
  change [left_axes; an_Axes []] with ([left_axes] ++ [an_Axes []]).
  rewrite (call_imshow_middle [left_axes] [] [] 1 compressed_img eq_refl Hc).
  cbn [plot_bind app].
  change (left_axes :: ?l) with ([left_axes] ++ l).
  rewrite (call_middle [left_axes] _ _ 1 _ eq_refl). cbn [plot_bind app].
  change (left_axes :: ?l) with ([left_axes] ++ l).
  rewrite (call_middle [left_axes] _ _ 1 _ eq_refl). cbn [plot_bind app].
  destruct (py_truediv _ n_colors) as [ratio|e]; [|reflexivity].
  cbn [of_result plot_bind].
  change (left_axes :: ?l) with ([left_axes] ++ l).
  by rewrite (call_middle [left_axes] _ _ 1 _ eq_refl).
Qed.

(** A colour count of 0 makes [compare_images] raise [ZeroDivisionError]
    once both images are drawn: its ratio is the original's number of
    distinct colours divided by the count it is given, without the guard of
    [calculate_compression_ratio].  Nothing is written. *)
Theorem compare_images_zero_colours (original_img compressed_img : ndarray Z)
    (save_path : option string) (σ : world) :
  image_shape_ok (shape original_img) = true ->
  image_shape_ok (shape compressed_img) = true ->
  (size original_img mod 3 = 0)%nat ->
  compare_images original_img compressed_img 0 save_path σ
  = (Failed (Raised ZeroDivisionError), σ).
Proof.
  intros Ho Hc Hm. by rewrite (compare_images_drawn _ _ _ _ _ Ho Hc Hm).
Qed.

(** The [if save_path:] block creates [os.path.dirname(save_path)] like
    [save_image] does: with a save path that has no directory part the
    figure is drawn, then [FileNotFoundError] is raised and nothing is
    written. *)
Theorem compare_images_bare_save_path_fails
    (original_img compressed_img : ndarray Z) (n_colors : Z) (p : string)
    (σ : world) :
  image_shape_ok (shape original_img) = true ->
  image_shape_ok (shape compressed_img) = true ->
  (size original_img mod 3 = 0)%nat -> n_colors <> 0 ->
  is_empty p = false -> os_path_dirname p = ""%string ->
  compare_images original_img compressed_img n_colors (Some p) σ
  = (Failed (Raised FileNotFoundError), σ).
Proof.
  intros Ho Hc Hm Hk Hp Hd.
  rewrite (compare_images_drawn _ _ _ _ _ Ho Hc Hm).
  unfold py_truediv. rewrite (proj2 (Z.eqb_neq _ _) Hk).
  unfold save_and_return. rewrite Hp, Hd.
  by rewrite (bind_err _ _ σ σ FileNotFoundError (os_makedirs_empty σ)).
Qed.

End Figures.

Section FiguresOfCompressed.

Context {E : KMeansEngine} {C : ImageCodec} {F : FigureCodec}
  `{!KMeansLawful E}.

(** For the image of a valid level, [compare_images] draws the original
    with its number of distinct colours and the compressed image with the
    ratio of that number to the requested [k]; this ratio is at most the one
    [calculate_compression_ratio] gives for the same pair, which divides by
    the colours actually present. *)
Theorem compare_images_ratio_at_most_computed (img : ndarray Z) (h w : nat)
    (k : Z) (save_path : option string) (σ : world) :
  shape img = [h; w; 3%nat] -> wf_ndarray img ->
  1 <= k <= Z.of_nat (h * w) ->
  exists out q,
    compress_image_kmeans img k σ = (Ok out, σ) /\
    calculate_compression_ratio img out = Ok q /\
    compare_images img out k save_path σ =
      save_and_return
        (mk_Figure
           [an_Axes [imshow img; set_title OriginalImage; axis_off;
                     text (UniqueColours (count_unique_rows (rows3 (data img))))];
            an_Axes [imshow out; set_title (Compressed k); axis_off;
                     text (RatioText
                             (inject_Z (Z.of_nat
                                 (count_unique_rows (rows3 (data img))))
                              / inject_Z k))]]
           false)
        save_path σ /\
    (inject_Z (Z.of_nat (count_unique_rows (rows3 (data img)))) / inject_Z k
     <= q)%Q.
Proof.
  intros Hs Hwf Hk.
  destruct (compress_image_kmeans_count img h w k Hs Hwf Hk)
    as (out & Hrun & Hso & Hcount).
  exists out. eexists. split; [apply Hrun|].
  rewrite (calculate_compression_ratio_eq img out
             (proj1 (shape_hw3_size img h w Hs))
             (proj1 (shape_hw3_size out h w Hso))).
  split; [reflexivity|]. split.
  - assert (Hpos : (0 <? h * w)%nat = true) by (apply Nat.ltb_lt; lia).
    rewrite compare_images_drawn;
      [| rewrite Hs; exact Hpos | rewrite Hso; exact Hpos
       | apply (shape_hw3_size img h w Hs)].
    unfold py_truediv. by rewrite (proj2 (Z.eqb_neq _ _)) by lia.
  - rewrite (proj2 (Nat.ltb_lt _ _)) by lia.
    apply Qdiv_count_bounds; lia.
Qed.

End FiguresOfCompressed.

(** ** Instances of the further properties *)

Lemma raw_codec_encodes (p : string) (h w : nat) : @codec_encodes raw_codec p h w.
Proof. intros a Hs _ _. eexists. cbn. unfold raw_encode. by rewrite Hs. Qed.

(** A writer that fails late: saving a four-channel image raises, empties
    the file it was to replace and leaves no file where there was none; so
    does the single-image pipeline on a four-channel input. *)
Lemma late_failure_empties_existing_file :
  let σ : @world lloyd_engine :=
    mk_world {[ "out/x.jpg"%string := sample_file ]} ∅ (0 : Z) in
  fst (@save_image _ rgb_codec sample_rgba "out/x.jpg" σ) = Err OSError /\
  files (snd (@save_image _ rgb_codec sample_rgba "out/x.jpg" σ))
    !! "out/x.jpg"%string = Some [] /\
  fst (@save_image _ rgb_codec sample_rgba "out/y.jpg" σ) = Err OSError /\
  files (snd (@save_image _ rgb_codec sample_rgba "out/y.jpg" σ))
    !! "out/y.jpg"%string = None.
Proof. repeat split; vm_compute; reflexivity. Qed.

Lemma pipeline_late_failure_empties_output :
  let σ : @world lloyd_engine :=
    mk_world {[ "rgba.png"%string :=
                  [Byte.x01; Byte.x03; Byte.x04] ++ map byte_of_Z (data sample_rgba);
                "out/x.jpg"%string := sample_file ]} ∅ (0 : Z) in
  fst (@compress_image_file _ rgb_codec "rgba.png" "out/x.jpg" 2 σ)
    = Err OSError /\
  files (snd (@compress_image_file _ rgb_codec "rgba.png" "out/x.jpg" 2 σ))
    !! "out/x.jpg"%string = Some [] /\
  files (snd (@compress_image_file _ rgb_codec "rgba.png" "out/x.jpg" 2 σ))
    !! "rgba.png"%string = files σ !! "rgba.png"%string.
Proof. repeat split; vm_compute; reflexivity. Qed.

Lemma main_analysis_too_few_pixels_witness :
  exists σ',
    main silent_report analysis_args sample_world = (Err ValueError, σ') /\
    exit_status (fst (main silent_report analysis_args sample_world)) = 1 /\
    (forall k, k ∈ analysis_levels -> k <= Z.of_nat (1 * 5) ->
               is_file σ' (level_path (output analysis_args) k) = true) /\
    (forall p,
       (forall k, k ∈ analysis_levels -> k <= Z.of_nat (1 * 5) ->
                  p <> level_path (output analysis_args) k) ->
       files σ' !! p = files sample_world !! p).
Proof.
  apply (main_analysis_too_few_pixels silent_report analysis_args sample_world
           sample_file sample_image 1 5).
  - reflexivity.
  - by vm_compute.
  - by vm_compute.
  - reflexivity.
  - by vm_compute.
  - cbn. lia.
  - reflexivity.
  - split; apply (bool_decide_unpack _); by vm_compute.
  - apply (bool_decide_unpack _). by vm_compute.
  - apply raw_codec_ready.
Defined.

(** An output directory written with a trailing separator: the files go
    under it, and the directory created is the name without the separator. *)
Lemma trailing_separator_directory :
  let run := compress_with_multiple_levels "photo.png" "out/" [2; 4]
               sample_world in
  (exists rs, fst run = Ok (Some rs) /\
              map path rs = ["out/compressed_2_colors.png"%string;
                             "out/compressed_4_colors.png"%string]) /\
  is_file (snd run) "out/compressed_2_colors.png" = true /\
  is_file (snd run) "out/compressed_4_colors.png" = true /\
  is_dir (snd run) "out" = true /\
  joined_dirname "out/" = "out"%string.
Proof.
  split; [|repeat split; vm_compute; reflexivity].
  eexists. split; [vm_compute; reflexivity|]. reflexivity.
Qed.

(** The reference renderer refuses an image without pixels at the first
    [imshow], before any ratio is computed or any file written. *)
Lemma imshow_refuses_empty_image :
  fst (compare_images sample_empty sample_empty 0 (Some "figure.png"%string)
         empty_world) = Failed (Raised ValueError) /\
  fst (compare_multiple_compressions sample_empty [] None empty_world)
    = Failed (Raised ValueError).
Proof. split; vm_compute; reflexivity. Qed.

Lemma save_image_creates_parents_witness :
  exists σ',
    save_image sample_image "out/photo.png" empty_world
      = (Ok (Z.of_nat (length sample_file)), σ') /\
    files σ' = <["out/photo.png"%string := sample_file]> (files empty_world) /\
    Forall (fun x => is_dir σ' x = true)
           (ancestors (os_path_dirname "out/photo.png")) /\
    (forall x, is_dir empty_world x = true -> is_dir σ' x = true).
Proof.
  apply (save_image_creates_parents sample_image "out/photo.png" sample_file
           empty_world).
  - reflexivity.
  - reflexivity.
  - reflexivity.
  - apply (bool_decide_unpack _). by vm_compute.
  - by vm_compute.
  - apply (bool_decide_unpack _). by vm_compute.
Defined.

Lemma save_then_load_witness :
  load_image "out/photo.png"
    (mk_world (<["out/photo.png"%string := sample_file]> (files empty_world))
       (dirs empty_world ∪ list_to_set (ancestors "out"))
       (np_random empty_world))
  = (Ok (Some sample_image),
     mk_world (<["out/photo.png"%string := sample_file]> (files empty_world))
       (dirs empty_world ∪ list_to_set (ancestors "out"))
       (np_random empty_world)).
Proof.
  apply (save_then_load sample_image "out/photo.png" sample_file
           (Z.of_nat (length sample_file)) empty_world).
  - apply (save_image_ok sample_image "out/photo.png" sample_file empty_world).
    + reflexivity.
    + reflexivity.
    + reflexivity.
    + apply (bool_decide_unpack _). by vm_compute.
    + by vm_compute.
    + apply (bool_decide_unpack _). by vm_compute.
  - reflexivity.
  - by vm_compute.
  - cbn. lia.
Defined.

Lemma sample_out_ready : path_ready sample_world "out/photo_2.png".
Proof.
  unfold path_ready. split; [reflexivity|]. split; [reflexivity|].
  split; [apply (bool_decide_unpack _); by vm_compute|].
  split; [by vm_compute|]. apply (bool_decide_unpack _). by vm_compute.
Qed.

Lemma compress_image_file_writes_output_witness :
  exists out file σ',
    compress_image_file "photo.png" "out/photo_2.png" 2 sample_world
      = (Ok (Some out), σ') /\
    fst (compress_image_kmeans sample_image 2 sample_world) = Ok out /\
    image_encode "out/photo_2.png" out = Ok file /\
    files σ' = <["out/photo_2.png"%string := file]> (files sample_world) /\
    is_dir σ' (os_path_dirname "out/photo_2.png") = true.
Proof.
  apply (compress_image_file_writes_output "photo.png" "out/photo_2.png"
           sample_file sample_image 1 5 2 sample_world).
  - by vm_compute.
  - by vm_compute.
  - reflexivity.
  - reflexivity.
  - lia.
  - apply raw_codec_encodes.
  - apply sample_out_ready.
Defined.

Lemma sample_dir_ready (levels : list Z) : dir_ready "out" levels sample_world.
Proof.
  split.
  - apply (bool_decide_unpack _). by vm_compute.
  - apply Forall_forall. intros k _. unfold is_dir.
    apply bool_decide_eq_false. cbn. apply not_elem_of_empty.
Qed.

Lemma multiple_levels_one_entry_per_level_witness :
  exists results σ',
    compress_with_multiple_levels "photo.png" "out" [3; 2] sample_world
      = (Ok (Some results), σ') /\
    map n_colors results = [3; 2] /\
    Forall2 (result_for sample_image "out") [3; 2] results /\
    Forall (fun r => exists file,
              image_encode (path r) (image r) = Ok file /\
              files σ' !! path r = Some file /\
              file_size r = Z.of_nat (length file)) results /\
    (forall p, p ∉ map (level_path "out") [3; 2] ->
               files σ' !! p = files sample_world !! p).
Proof.
  apply (multiple_levels_one_entry_per_level "photo.png" "out" [3; 2]
           sample_file sample_image 1 5 sample_world).
  - by vm_compute.
  - by vm_compute.
  - reflexivity.
  - reflexivity.
  - reflexivity.
  - repeat constructor; lia.
  - apply (bool_decide_unpack _). by vm_compute.
  - apply sample_dir_ready.
  - apply raw_codec_ready.
Defined.

Lemma multiple_levels_stops_at_invalid_level_witness :
  exists σ',
    compress_with_multiple_levels "photo.png" "out" ([4] ++ 8 :: [16])
        sample_world
      = (Err ValueError, σ') /\
    Forall (fun k' => is_file σ' (level_path "out" k') = true) [4] /\
    (forall p, p ∉ map (level_path "out") [4] ->
               files σ' !! p = files sample_world !! p).
Proof.
  apply (multiple_levels_stops_at_invalid_level "photo.png" "out" [4] [16] 8
           sample_file sample_image 1 5 sample_world).
  - by vm_compute.
  - by vm_compute.
  - reflexivity.
  - reflexivity.
  - reflexivity.
  - repeat constructor; lia.
  - apply (bool_decide_unpack _). by vm_compute.
  - right. cbn. lia.
  - apply sample_dir_ready.
  - apply raw_codec_ready.
Defined.

Lemma main_analysis_unreadable_input_witness :
  main silent_report (mk_Args "notes.txt" 16 true "out") notes_world =
    (Ok tt, mk_world (files notes_world)
              (dirs notes_world ∪ list_to_set (ancestors "out")
                      ∪ list_to_set (ancestors default_comparison_dir))
              (np_random notes_world)) /\
  exit_status (fst (main silent_report (mk_Args "notes.txt" 16 true "out")
                      notes_world)) = 0.
Proof.
  apply (main_analysis_unreadable_input silent_report
           (mk_Args "notes.txt" 16 true "out") notes_world).
  - reflexivity.
  - by vm_compute.
  - intros bytes img Hf Hd. vm_compute in Hf. injection Hf as <-.
    vm_compute in Hd. discriminate.
  - reflexivity.
  - apply (bool_decide_unpack _). by vm_compute.
  - apply (bool_decide_unpack _). by vm_compute.
Defined.

Lemma main_single_image_writes_named_file_witness :
  exists out file σ',
    main silent_report (mk_Args "photo.png" 2 false "out") sample_world
      = (Ok tt, σ') /\
    exit_status (fst (main silent_report (mk_Args "photo.png" 2 false "out")
                        sample_world)) = 0 /\
    fst (compress_image_kmeans sample_image 2 sample_world) = Ok out /\
    image_encode "out/photo_compressed_2.png" out = Ok file /\
    files σ' = <["out/photo_compressed_2.png"%string := file]>
                 (files sample_world).
Proof.
  apply (main_single_image_writes_named_file silent_report
           (mk_Args "photo.png" 2 false "out") sample_world
           sample_file sample_image 1 5).
  - reflexivity.
  - by vm_compute.
  - by vm_compute.
  - reflexivity.
  - reflexivity.
  - cbn. lia.
  - reflexivity.
  - apply (bool_decide_unpack _). by vm_compute.
  - by vm_compute.
  - apply raw_codec_encodes.
Defined.

Section MainInvalidColours.

Context {E : KMeansEngine} {C : ImageCodec} `{!KMeansLawful E}.

Variable report : string -> list CompressionResult -> string -> py unit.

(** Without the analysis flag, a colour count below 1 or above the number
    of samples of the input image makes [main] end on the clustering
    call's [ValueError]: exit status 1, and the world is as it was. *)
Theorem main_single_invalid_colours (args : Args) (σ : world)
    (bytes : list Byte.byte) (img : ndarray Z) :
  analysis args = false ->
  files σ !! input args = Some bytes -> image_decode bytes = Some img ->
  (2 <= length (shape img))%nat ->
  colors args < 1 \/ Z.of_nat (length (rows3 (data img))) < colors args ->
  main report args σ = (Err ValueError, σ) /\
  exit_status (fst (main report args σ)) = 1.
Proof.
  intros Han Hf Hdec Hdim Hk.
  assert (Hc : compress_image_kmeans img (colors args) σ = (Err ValueError, σ)).
  { destruct (decide (size img mod 3 = 0)%nat) as [Hm|Hm].
    - apply compress_image_kmeans_fit_error; [|exact Hm].
      by apply k_means_invalid.
    - by apply compress_image_kmeans_bad_size. }
  assert (Hmain : main report args σ = (Err ValueError, σ)).
  { unfold main, bind at 1, os_path_exists.
    assert (Hex : is_file σ (input args) = true).
    { unfold is_file. apply bool_decide_eq_true, elem_of_dom. by eexists. }
    rewrite Hex, Han. cbn [orb negb].
    unfold compress_single_image, compress_image_file, bind.
    by rewrite (load_image_ok _ _ _ _ Hf Hdec Hdim), Hc. }
  by rewrite Hmain.
Qed.

End MainInvalidColours.

Lemma main_single_invalid_colours_witness :
  main silent_report (mk_Args "photo.png" 0 false "out") sample_world
    = (Err ValueError, sample_world) /\
  exit_status (fst (main silent_report (mk_Args "photo.png" 0 false "out")
                      sample_world)) = 1.
Proof.
  apply (main_single_invalid_colours silent_report
           (mk_Args "photo.png" 0 false "out") sample_world
           sample_file sample_image).
  - reflexivity.
  - by vm_compute.
  - by vm_compute.
  - cbn. lia.
  - left. cbn. lia.
Defined.

(** Two levels never share an output file: under a clean directory,
    different levels are written to different paths. *)
Theorem level_paths_distinct (d : string) (a b : Z) :
  clean_dir d = true -> a <> b ->
  os_path_join d (level_filename a) <> os_path_join d (level_filename b).
Proof.
  intros Hd Hab H. apply Hab.
  fold (level_path d a) in H. fold (level_path d b) in H.
  destruct (level_path_clean d a Hd) as (Ha & _).
  destruct (level_path_clean d b Hd) as (Hb & _).
  rewrite Ha, Hb in H. apply string_app_inv_head in H.
  apply level_filename_inj. congruence.
Qed.

Lemma level_paths_distinct_witness :
  os_path_join "out" (level_filename 4) <> os_path_join "out" (level_filename 8).
Proof. apply (level_paths_distinct "out" 4 8); [reflexivity | lia]. Defined.

Lemma compare_multiple_layout_witness :
  compare_multiple_compressions sample_image sample_results None empty_world =
    save_and_return
      (mk_Figure
         (an_Axes [imshow sample_image;
                   set_title (OriginalWithColours
                                (count_unique_rows (rows3 (data sample_image))));
                   axis_off]
          :: map level_cell sample_results
          ++ replicate (grid_rows (length sample_results)
                        * grid_cols (length sample_results)
                        - (length sample_results + 1)) hidden_cell)
         true)
      None empty_world /\
  (length sample_results + 1
   <= grid_rows (length sample_results) * grid_cols (length sample_results))%nat /\
  (grid_rows (length sample_results) * grid_cols (length sample_results)
   < length sample_results + 1 + grid_cols (length sample_results))%nat /\
  (grid_cols (length sample_results) <= 4)%nat.
Proof.
  apply (compare_multiple_layout sample_image sample_results None empty_world).
  - cbn. lia.
  - reflexivity.
  - reflexivity.
  - repeat constructor.
Defined.

Lemma compare_images_zero_colours_witness :
  compare_images sample_image sample_checker 0 None empty_world
  = (Failed (Raised ZeroDivisionError), empty_world).
Proof.
  apply (compare_images_zero_colours sample_image sample_checker None
           empty_world); reflexivity.
Defined.

Lemma compare_images_bare_save_path_fails_witness :
  compare_images sample_image sample_checker 2 (Some "comparison.png"%string)
    empty_world
  = (Failed (Raised FileNotFoundError), empty_world).
Proof.
  apply (compare_images_bare_save_path_fails sample_image sample_checker 2
           "comparison.png" empty_world); try reflexivity. lia.
Defined.

Lemma compare_images_ratio_at_most_computed_witness :
  exists out q,
    compress_image_kmeans sample_image 2 empty_world = (Ok out, empty_world) /\
    calculate_compression_ratio sample_image out = Ok q /\
    compare_images sample_image out 2 None empty_world =
      save_and_return
        (mk_Figure
           [an_Axes [imshow sample_image; set_title OriginalImage; axis_off;
                     text (UniqueColours
                             (count_unique_rows (rows3 (data sample_image))))];
            an_Axes [imshow out; set_title (Compressed 2); axis_off;
                     text (RatioText
                             (inject_Z (Z.of_nat
                                 (count_unique_rows
                                    (rows3 (data sample_image))))
                              / inject_Z 2))]]
           false)
        None empty_world /\
    (inject_Z (Z.of_nat (count_unique_rows (rows3 (data sample_image))))
       / inject_Z 2 <= q)%Q.
Proof.
  apply (compare_images_ratio_at_most_computed sample_image 1 5 2 None
           empty_world); [reflexivity | reflexivity | lia].
Defined.

Lemma compare_multiple_single_result_fails_witness :
  (fst (compare_multiple_compressions sample_image (take 1 sample_results)
          None empty_world)
     = Failed AttributeError <-> length (take 1 sample_results) = 1%nat) /\
  (length (take 1 sample_results) = 1%nat ->
   compare_multiple_compressions sample_image (take 1 sample_results) None
     empty_world
     = (Failed AttributeError, empty_world)).
Proof.
  apply (compare_multiple_single_result_fails sample_image
           (take 1 sample_results) None empty_world).
  - reflexivity.
  - reflexivity.
  - repeat constructor.
Defined.

(** A figure with four results: the 2 x 4 grid has three unused axes. *)
Example sample_figure_cells :
  fst (compare_multiple_compressions sample_image sample_results None
         empty_world)
  = Drawn (mk_Figure
             (an_Axes [imshow sample_image;
                       set_title (OriginalWithColours 5); axis_off]
              :: map level_cell sample_results
              ++ [hidden_cell; hidden_cell; hidden_cell])
             true).
Proof. by vm_compute. Qed.
